(** * LC-3 assembler (assembler.py): shallow embedding and verified properties

    The Python program keeps its assembly state in module globals
    ([memory], [pc], [orig], [labels], [label_location], [verbose]); here
    they are the fields of one [state] record threaded through every
    function.  A Python exception aborts the run, so every function that
    can raise returns a [result].

    Conventions of the embedding:
    - Python [int] is [Z]; [&], [|], [<<] are [Z.land], [Z.lor], [Z.shiftl].
    - [array('H', ...)] is a [list Z]; Python's index rules (negative
      indices count from the end, anything else out of range raises
      IndexError) and the unsigned 16-bit item range (OverflowError) are
      written out in [mem_get] and [mem_set].
    - Python [dict] is an association list in insertion order (the order in
      which [.items()] iterates).
    - [str] is [string]: a text is represented by the bytes of its UTF-8
      encoding, so that a character below 128 is one byte, itself.  The
      characters that make up the syntax of a line are taken to be ASCII,
      where the character classes below agree with Python's [str]
      methods; the characters of a [.STRINGZ] text, whose codes the
      program stores, are any characters ([code_points]).
    - The semantics is that of Python 3: [dict] keeps insertion order and
      [int] accepts single underscores between digits.
    - Trace output of verbose mode is not recorded, but the exceptions
      raised while producing it are; the warnings and the bad-label report,
      printed in every mode, are recorded as [event]s, and so are the two
      [input] prompts, whose answer the program ignores.  The symbol
      cross-reference and the file names printed by the output stage are
      not recorded.
    - The input of [assemble] is the list of lines of the code file and the
      answer to the verbosity prompt. *)

From Stdlib Require Import ZArith String Ascii List Lia Bool.
From stdpp Require Import base tactics list.

Import ListNotations.
Local Open Scope string_scope.
Local Open Scope list_scope.
Local Open Scope Z_scope.

(** ** Exceptions and the error monad *)

Inductive exn : Type :=
| ValueError
| IndexError
| OverflowError
| NameError
| UnboundLocalError
| KeyError.

Inductive result (A : Type) : Type :=
| Ok (a : A)
| Raise (e : exn).

Arguments Ok {A} a.
Arguments Raise {A} e.

Definition bind {A B : Type} (c : result A) (k : A -> result B) : result B :=
  match c with
  | Ok a => k a
  | Raise e => Raise e
  end.

Notation "x <- c ;; k" := (bind c (fun x => k))
  (at level 100, c at next level, right associativity).

(** ** Strings *)

Definition ord (c : ascii) : Z := Z.of_nat (nat_of_ascii c).

Definition in_codes (lo hi : Z) (c : ascii) : bool :=
  (lo <=? ord c) && (ord c <=? hi).

(** [str.isalpha], [str.isdigit], [str.isspace] and [str.lower] on one
    ASCII character. *)
Definition isalpha (c : ascii) : bool := in_codes 65 90 c || in_codes 97 122 c.
Definition isdigit (c : ascii) : bool := in_codes 48 57 c.
Definition isspace (c : ascii) : bool := in_codes 9 13 c || in_codes 28 32 c.
Definition lower_char (c : ascii) : ascii :=
  if in_codes 65 90 c then ascii_of_nat (nat_of_ascii c + 32) else c.

Fixpoint lower (s : string) : string :=
  match s with
  | EmptyString => EmptyString
  | String c r => String (lower_char c) (lower r)
  end.

(** [c in s] for a one-character [c]. *)
Fixpoint char_in (c : ascii) (s : string) : bool :=
  match s with
  | EmptyString => false
  | String d r => Ascii.eqb c d || char_in c r
  end.

(** [all(p(c) for c in s)]. *)
Fixpoint str_all (p : ascii -> bool) (s : string) : bool :=
  match s with
  | EmptyString => true
  | String c r => p c && str_all p r
  end.

(** [s.startswith(p)]. *)
Fixpoint startswith (s p : string) {struct p} : bool :=
  match p with
  | EmptyString => true
  | String a p' =>
      match s with
      | EmptyString => false
      | String b s' => Ascii.eqb b a && startswith s' p'
      end
  end.

(** [s[n:]]. *)
Fixpoint str_drop (n : nat) (s : string) : string :=
  match n, s with
  | O, _ => s
  | S n', EmptyString => EmptyString
  | S n', String _ r => str_drop n' r
  end.

(** [s[n]] for [n >= 0]. *)
Definition str_item (s : string) (n : nat) : result ascii :=
  match String.get n s with
  | Some c => Ok c
  | None => Raise IndexError
  end.

Fixpoint endswith_char (s : string) (c : ascii) : bool :=
  match s with
  | EmptyString => false
  | String d EmptyString => Ascii.eqb d c
  | String _ r => endswith_char r c
  end.

(** [s.rstrip(',')]. *)
Fixpoint rstrip_comma (s : string) : string :=
  match s with
  | EmptyString => EmptyString
  | String c r =>
      match rstrip_comma r with
      | EmptyString => if Ascii.eqb c "," then EmptyString else String c EmptyString
      | r' => String c r'
      end
  end.

(** [s.replace(',', ', ')]. *)
Fixpoint replace_comma (s : string) : string :=
  match s with
  | EmptyString => EmptyString
  | String c r =>
      if Ascii.eqb c "," then String "," (String " " (replace_comma r))
      else String c (replace_comma r)
  end.

(** [s.split(sep)] for a one-character separator: at least one piece. *)
Fixpoint split_char (sep : ascii) (s : string) : list string :=
  match s with
  | EmptyString => [EmptyString]
  | String c r =>
      if Ascii.eqb c sep then EmptyString :: split_char sep r
      else match split_char sep r with
           | [] => [String c EmptyString]
           | p :: ps => String c p :: ps
           end
  end.

(** [s.split()]: the maximal runs of non-whitespace characters. *)
Fixpoint split_ws_from (cur : string) (s : string) : list string :=
  match s with
  | EmptyString => match cur with EmptyString => [] | _ => [cur] end
  | String c r =>
      if isspace c
      then match cur with
           | EmptyString => split_ws_from EmptyString r
           | _ => cur :: split_ws_from EmptyString r
           end
      else split_ws_from (String.append cur (String c EmptyString)) r
  end.

Definition split_ws (s : string) : list string := split_ws_from EmptyString s.

(** [s.strip()]. *)
Fixpoint lstrip (s : string) : string :=
  match s with
  | EmptyString => EmptyString
  | String c r => if isspace c then lstrip r else s
  end.

Fixpoint rstrip (s : string) : string :=
  match s with
  | EmptyString => EmptyString
  | String c r =>
      match rstrip r with
      | EmptyString => if isspace c then EmptyString else String c EmptyString
      | r' => String c r'
      end
  end.

Definition strip (s : string) : string := rstrip (lstrip s).

(** The payload of a continuation byte [10xxxxxx] of UTF-8. *)
Definition continuation (c : ascii) : option Z :=
  if (0x80 <=? ord c) && (ord c <? 0xC0) then Some (ord c - 0x80) else None.

(** The characters of a text, as their codes ([ord] of each): what
    [for c in s] ranges over.  One to four bytes make a character, in the
    shortest form only and surrogates excluded, as Python decodes UTF-8.
    (Bytes that encode no character belong to no Python text; here each
    counts as a character of its own.) *)
Fixpoint code_points (s : string) : list Z :=
  match s with
  | EmptyString => []
  | String c0 r0 =>
      let b0 := ord c0 in
      let single := b0 :: code_points r0 in
      if b0 <? 0xC0 then single
      else
        match r0 with
        | EmptyString => single
        | String c1 r1 =>
            match continuation c1 with
            | None => single
            | Some x1 =>
                if b0 <? 0xE0 then
                  let v := (b0 - 0xC0) * 64 + x1 in
                  if 0x80 <=? v then v :: code_points r1 else single
                else
                  match r1 with
                  | EmptyString => single
                  | String c2 r2 =>
                      match continuation c2 with
                      | None => single
                      | Some x2 =>
                          if b0 <? 0xF0 then
                            let v := ((b0 - 0xE0) * 64 + x1) * 64 + x2 in
                            if (0x800 <=? v)
                               && negb ((0xD800 <=? v) && (v <? 0xE000))
                            then v :: code_points r2 else single
                          else
                            match r2 with
                            | EmptyString => single
                            | String c3 r3 =>
                                match continuation c3 with
                                | None => single
                                | Some x3 =>
                                    let v := (((b0 - 0xF0) * 64 + x1) * 64 + x2)
                                             * 64 + x3 in
                                    if (0x10000 <=? v) && (v <? 0x110000)
                                    then v :: code_points r3 else single
                                end
                            end
                      end
                  end
            end
        end
  end.

(** ** Python's [int(s)] and [int(s, 0)]

    After surrounding whitespace and an optional sign come the digits, in
    which single underscores may separate digits.  With base 0 the prefixes
    [0x], [0o], [0b] select the base (one underscore may follow the prefix)
    and a decimal literal with a leading zero must be zero.  [None] stands
    for ValueError. *)

Definition digit_value (c : ascii) : option Z :=
  if in_codes 48 57 c then Some (ord c - 48)
  else if in_codes 97 122 c then Some (ord c - 97 + 10)
  else if in_codes 65 90 c then Some (ord c - 65 + 10)
  else None.

Fixpoint int_digits (base : Z) (s : string) (prev_underscore seen : bool) (acc : Z)
  : option Z :=
  match s with
  | EmptyString => if prev_underscore || negb seen then None else Some acc
  | String c r =>
      if Ascii.eqb c "_"
      then if prev_underscore || negb seen then None
           else int_digits base r true seen acc
      else match digit_value c with
           | Some d =>
               if d <? base then int_digits base r false true (acc * base + d)
               else None
           | None => None
           end
  end.

Definition skip_underscore (s : string) : string :=
  match s with
  | String "_" r => r
  | _ => s
  end.

Definition int_unsigned (base0 : bool) (s : string) : option Z :=
  if base0 then
    match s with
    | String "0" (String c r) =>
        if char_in c "xX" then int_digits 16 (skip_underscore r) false false 0
        else if char_in c "oO" then int_digits 8 (skip_underscore r) false false 0
        else if char_in c "bB" then int_digits 2 (skip_underscore r) false false 0
        else match int_digits 10 s false false 0 with
             | Some 0 => Some 0
             | _ => None
             end
    | _ => int_digits 10 s false false 0
    end
  else int_digits 10 s false false 0.

Definition int_parse (base0 : bool) (s : string) : option Z :=
  match strip s with
  | String "+" r => int_unsigned base0 r
  | String "-" r => option_map Z.opp (int_unsigned base0 r)
  | t => int_unsigned base0 t
  end.

(** [int(s)] *)
Definition py_int (s : string) : option Z := int_parse false s.
(** [int(s, 0)] *)
Definition py_int0 (s : string) : option Z := int_parse true s.

(** ** Dictionaries in insertion order *)

Definition dict (V : Type) : Type := list (string * V).

Fixpoint dict_get {V : Type} (k : string) (d : dict V) : option V :=
  match d with
  | [] => None
  | (k', v) :: r => if String.eqb k k' then Some v else dict_get k r
  end.

(** [d[k] = v]: an existing key keeps its place, a new one goes last. *)
Fixpoint dict_set {V : Type} (k : string) (v : V) (d : dict V) : dict V :=
  match d with
  | [] => [(k, v)]
  | (k', v') :: r =>
      if String.eqb k k' then (k, v) :: r else (k', v') :: dict_set k v r
  end.

Definition dict_mem {V : Type} (k : string) (d : dict V) : bool :=
  match dict_get k d with
  | Some _ => true
  | None => false
  end.

Definition keys {V : Type} (d : dict V) : list string := map fst d.

(** [w in words] for a list of strings. *)
Fixpoint str_in (w : string) (ws : list string) : bool :=
  match ws with
  | [] => false
  | x :: r => String.eqb w x || str_in w r
  end.

(** [words.index(w)], used only where [w] is known to occur. *)
Fixpoint index_of (w : string) (ws : list string) : nat :=
  match ws with
  | [] => O
  | x :: r => if String.eqb w x then O else S (index_of w r)
  end.

(** [words[n]] for [n >= 0]. *)
Definition list_item {A : Type} (l : list A) (n : nat) : result A :=
  match nth_error l n with
  | Some a => Ok a
  | None => Raise IndexError
  end.

(** ** The memory array

    [memory = array('H', [0] * (1 << 16))]: unsigned 16-bit items. *)

Definition memory_init : list Z := replicate (Z.to_nat (Z.shiftl 1 16)) 0.

(** Index of a sequence of [len] items: a negative index counts from the
    end; what is still out of range raises IndexError. *)
Definition py_index (len i : Z) : result nat :=
  let j := if i <? 0 then i + len else i in
  if (0 <=? j) && (j <? len) then Ok (Z.to_nat j) else Raise IndexError.

Definition is_word (v : Z) : bool := (0 <=? v) && (v <? 65536).

(** [memory[i]] *)
Definition mem_get (m : list Z) (i : Z) : result Z :=
  n <- py_index (Z.of_nat (length m)) i ;;
  match m !! n with
  | Some w => Ok w
  | None => Raise IndexError
  end.

(** [memory[i] = v]: the index is checked first, then the item range. *)
Definition mem_set (m : list Z) (i v : Z) : result (list Z) :=
  n <- py_index (Z.of_nat (length m)) i ;;
  if is_word v then Ok (<[n := v]> m) else Raise OverflowError.

(** [memory[a:b]]: both bounds are taken from the end when negative, then
    clamped to the array. *)
Definition slice_bound (len i : Z) : nat :=
  let j := if i <? 0 then i + len else i in
  Z.to_nat (Z.min (Z.max j 0) len).

Definition mem_slice (m : list Z) (a b : Z) : list Z :=
  let len := Z.of_nat (length m) in
  let lo := slice_bound len a in
  let hi := slice_bound len b in
  take (hi - lo)%nat (drop lo m).

(** [memory.byteswap()] exchanges the two bytes of every item. *)
Definition swap_bytes (w : Z) : Z :=
  Z.lor (Z.shiftl (Z.land w 255) 8) (Z.shiftr w 8).

Definition byteswap (m : list Z) : list Z := swap_bytes <$> m.

(** ** Assembler state *)

(** A fixup record [[pc, mask, bits]] of [label_location]. *)
Record fixup : Type := Fixup { fx_ref : Z; fx_mask : Z; fx_bits : Z }.

(** What the program prints or asks outside verbose tracing. *)
Inductive event : Type :=
| WarnNoLabelStringz (at_pc : Z) (line : string)
| WarnInvalidLabel (word line : string)
| PromptNotInstruction (line : string)
| PromptUnknown (found : string)
| BadLabelFailure (label : string) (recs : list fixup).

Record state : Type := State {
  verbose : bool;
  memory : list Z;
  orig : option Z;
  pc : option Z;
  labels : dict Z;
  label_location : dict (list fixup);
  stdout : list event
}.

Definition initial_state (v : bool) : state :=
  {| verbose := v; memory := memory_init; orig := None; pc := None;
     labels := []; label_location := []; stdout := [] |}.

Definition set_memory (m : list Z) (st : state) : state :=
  {| verbose := verbose st; memory := m; orig := orig st; pc := pc st;
     labels := labels st; label_location := label_location st;
     stdout := stdout st |}.

Definition set_pc (p : Z) (st : state) : state :=
  {| verbose := verbose st; memory := memory st; orig := orig st; pc := Some p;
     labels := labels st; label_location := label_location st;
     stdout := stdout st |}.

Definition set_orig_pc (p : Z) (st : state) : state :=
  {| verbose := verbose st; memory := memory st; orig := Some p; pc := Some p;
     labels := labels st; label_location := label_location st;
     stdout := stdout st |}.

Definition set_labels (l : dict Z) (st : state) : state :=
  {| verbose := verbose st; memory := memory st; orig := orig st; pc := pc st;
     labels := l; label_location := label_location st;
     stdout := stdout st |}.

Definition set_label_location (f : dict (list fixup)) (st : state) : state :=
  {| verbose := verbose st; memory := memory st; orig := orig st; pc := pc st;
     labels := labels st; label_location := f;
     stdout := stdout st |}.

Definition print (e : event) (st : state) : state :=
  {| verbose := verbose st; memory := memory st; orig := orig st; pc := pc st;
     labels := labels st; label_location := label_location st;
     stdout := stdout st ++ [e] |}.

(** Reading the global [pc] (or [orig]) before any [.ORIG] has bound it. *)
Definition get_pc (st : state) : result Z :=
  match pc st with
  | Some p => Ok p
  | None => Raise NameError
  end.

Definition get_orig (st : state) : result Z :=
  match orig st with
  | Some o => Ok o
  | None => Raise NameError
  end.

(** [labels[name] = pc] *)
Definition define_label (name : string) (st : state) : result state :=
  p <- get_pc st ;;
  Ok (set_labels (dict_set name p (labels st)) st).

(** [pc += n] *)
Definition advance_pc (n : Z) (st : state) : result state :=
  p <- get_pc st ;;
  Ok (set_pc (p + n) st).

(** The two branches
    [if word in label_location: label_location[word].append(rec)
     else: label_location[word] = [rec]]. *)
Definition add_fixup (word : string) (rec : fixup) (st : state) : state :=
  match dict_get word (label_location st) with
  | Some recs =>
      set_label_location (dict_set word (recs ++ [rec]) (label_location st)) st
  | None =>
      set_label_location (dict_set word [rec] (label_location st)) st
  end.

(** ** Tables *)

Definition reg_pos : list Z := [9; 6; 0].

Definition flags : dict Z :=
  [("n", Z.shiftl 1 11); ("z", Z.shiftl 1 10); ("p", Z.shiftl 1 9)].

Definition instruction_info : dict Z :=
  [("ADD", Z.shiftl 1 12);
   ("AND", Z.shiftl 5 12);
   ("BR", 0);
   ("GETC", Z.shiftl 15 12 + 0x20);
   ("HALT", Z.shiftl 15 12 + 0x25);
   ("IN", Z.shiftl 15 12 + 0x23);
   ("JMP", Z.shiftl 12 12);
   ("JMPT", Z.shiftl 96 9 + 1);
   ("JSR", Z.shiftl 9 11);
   ("JSRR", Z.shiftl 16 9);
   ("LD", Z.shiftl 2 12);
   ("LDI", Z.shiftl 10 12);
   ("LDR", Z.shiftl 6 12);
   ("LEA", Z.shiftl 14 12);
   ("NOT", Z.shiftl 9 12 + 63);
   ("OUT", Z.shiftl 15 12 + 0x21);
   ("PUTS", Z.shiftl 15 12 + 0x22);
   ("PUTSP", Z.shiftl 15 12 + 0x24);
   ("RET", 0xC1C0);
   ("RTI", Z.shiftl 8 12);
   ("RTT", 0xC1C1);
   ("ST", Z.shiftl 3 12);
   ("STI", Z.shiftl 11 12);
   ("STR", Z.shiftl 7 12);
   ("TRAP", Z.shiftl 15 12)].

Definition immediate : dict Z :=
  [("ADD", 5); ("AND", 5); ("BR", 9); ("GETC", 0); ("HALT", 0); ("IN", 0);
   ("JMP", 0); ("JMPT", 0); ("JSR", 11); ("JSRR", 0); ("LD", 9); ("LDI", 9);
   ("LDR", 6); ("LEA", 9); ("NOT", 9); ("OUT", 0); ("PUTS", 0); ("PUTSP", 0);
   ("RET", 0); ("RTI", 0); ("RTT", 0); ("ST", 9); ("STI", 9); ("STR", 6);
   ("TRAP", 8); ("UNDEFINED", 0)].

(** [immediate_mask[im] = (1 << immediate[im]) - 1] *)
Definition immediate_mask : dict Z :=
  map (fun kv => (fst kv, Z.shiftl 1 (snd kv) - 1)) immediate.

Definition instructions : list string := keys instruction_info.

(** [regs = dict(('R%1i' % r, r) for r in range(8))] *)
Definition reg_name (r : Z) : string :=
  String "R" (String (ascii_of_nat (48 + Z.to_nat r)) EmptyString).

Definition regs : dict Z := map (fun r => (reg_name r, r)) [0; 1; 2; 3; 4; 5; 6; 7].

(** [d[k]] in an expression: KeyError when the key is absent. *)
Definition dict_item {V : Type} (k : string) (d : dict V) : result V :=
  match dict_get k d with
  | Some v => Ok v
  | None => Raise KeyError
  end.

(** ** The helper functions of the source *)

Definition put_and_show (n : Z) (st : state) : result state :=
  let n := if n <? 0 then Z.shiftl 1 16 + n else n in
  p <- get_pc st ;;
  m <- mem_set (memory st) p n ;;
  Ok (set_memory m st).

Definition valid_label (word : string) : result bool :=
  c0 <- str_item word 0 ;;
  hex_like <- (if Ascii.eqb c0 "x"
               then c1 <- str_item word 1 ;; Ok (isdigit c1)
               else Ok false) ;;
  if hex_like then Ok false
  else Ok (isalpha c0 &&
           str_all (fun c => isalpha c || isdigit c || Ascii.eqb c "_") word).

(** [get_immediate(word, mask)]; [Ok None] is Python's [None]. *)
Definition get_immediate (word : string) (mask : Z) : result (option Z) :=
  if startswith word "x"
     && str_all (fun n => char_in n "-0123456789abcdefgABCDEF") (str_drop 1 word)
     && negb (char_in "-" (str_drop 2 word))
  then match py_int0 (String "0" word) with
       | Some v => Ok (Some (Z.land v mask))
       | None => Raise ValueError
       end
  else if startswith word "#"
  then match py_int (str_drop 1 word) with
       | Some v => Ok (Some (Z.land v mask))
       | None => Raise ValueError
       end
  else match py_int word with
       | Some v => Ok (Some (Z.land v mask))
       | None => Ok None
       end.

Definition in_range (n bits : Z) : result bool :=
  if bits - 1 <? 0 then Raise ValueError
  else Ok ((- Z.shiftl 1 (bits - 1) <=? n) && (n <? Z.shiftl 1 (bits - 1))).

(** ** [process_instruction]

    [line] is the global the driver loop sets before each call (the source
    line after comment removal); [words] is the list of its tokens. *)

(** The [.FILL] branch. *)
Definition fill_directive (words : list string) (st : state) : result state :=
  word <- list_item words (index_of ".FILL" words + 1) ;;
  st1 <- match py_int word with
         | Some n => put_and_show n st
         | None =>
             value <- get_immediate word 0xFFFF ;;
             p <- get_pc st ;;
             match value with
             | None => Ok (add_fixup word (Fixup p 0xFFFF 16) st)
             | Some v => m <- mem_set (memory st) p v ;; Ok (set_memory m st)
             end
         end ;;
  w0 <- list_item words 0 ;;
  st2 <- (if negb (String.eqb w0 ".FILL") then define_label w0 st1 else Ok st1) ;;
  advance_pc 1 st2.

(** The [.ORIG] branch. *)
Definition orig_directive (words : list string) (st : state) : result state :=
  w1 <- list_item words 1 ;;
  match py_int0 (if startswith w1 "x" then String "0" w1 else w1) with
  | Some a => Ok (set_orig_pc a st)
  | None => Raise ValueError
  end.

(** [chr(m)], evaluated only to print the trace. *)
Definition chr_check (m : Z) : result unit :=
  if (0 <=? m) && (m <? 0x110000) then Ok tt else Raise ValueError.

(** [c in 'nblr'] for a character [c] given by its code. *)
Definition escape_letter (c : Z) : bool := existsb (Z.eqb c) (code_points "nblr").

(** The character loop of the [.STRINGZ] branch, over the codes of the
    characters of the text. *)
Fixpoint stringz_chars (cs : list Z) (backslash : bool) (st : state) : result state :=
  match cs with
  | [] => Ok st
  | c :: r =>
      if negb backslash && (c =? ord "\") then stringz_chars r true st
      else
        let m := if backslash && escape_letter c then c - 100 else c in
        st1 <- put_and_show m st ;;
        _ <- (if verbose st1 then chr_check m else Ok tt) ;;
        st2 <- advance_pc 1 st1 ;;
        stringz_chars r false st2
  end.

(** The loop over [s[2:]] that rejoins the pieces of a literal holding an
    escaped quote: a piece is appended, after a quote character, when the
    string so far ends with a backslash. *)
Fixpoint rejoin_quotes (str : string) (rest : list string) : string :=
  match rest with
  | [] => str
  | piece :: rest' =>
      rejoin_quotes
        (if endswith_char str "\"
         then String.append str (String "034" piece)
         else str)
        rest'
  end.

Definition stringz_directive (line : string) (words : list string) (st : state)
  : result state :=
  w0 <- list_item words 0 ;;
  ok <- valid_label w0 ;;
  st1 <- (if ok then define_label w0 st
          else p <- get_pc st ;; Ok (print (WarnNoLabelStringz p line) st)) ;;
  let s := split_char "034" line in
  str <- list_item s 1 ;;
  let str := rejoin_quotes str (drop 2 s) in
  st2 <- stringz_chars (code_points str) false st1 ;;
  st3 <- put_and_show 0 st2 ;;
  advance_pc 1 st3.

(** The [.BLKW] branch. *)
Definition blkw_directive (words : list string) (st : state) : result state :=
  w0 <- list_item words 0 ;;
  st1 <- define_label w0 st ;;
  value <- get_immediate (List.last words EmptyString) 0xFFFF ;;
  match value with
  | None => Raise ValueError
  | Some v => if v <=? 0 then Raise ValueError else advance_pc v st1
  end.

(** Branch normalization: which token, if any, is looked at. *)
Definition branch_index (words : list string) : option nat :=
  match words with
  | w0 :: rest =>
      if startswith w0 "BR" then Some 0%nat
      else match rest with
           | w1 :: _ => if startswith w1 "BR" then Some 1%nat else None
           | [] => None
           end
  | [] => None
  end.

(** [for f in suffix: fl |= flags[f]] *)
Fixpoint flag_bits (suffix : string) (fl : Z) : Z :=
  match suffix with
  | EmptyString => fl
  | String f r =>
      flag_bits r (match dict_get (String f EmptyString) flags with
                   | Some b => Z.lor fl b
                   | None => fl
                   end)
  end.

(** The normalized token list and the local [fl], unbound ([None]) when no
    token was recognized as a branch. *)
Definition normalize_branch (words : list string) : list string * option Z :=
  match branch_index words with
  | Some ind =>
      match nth_error words ind with
      | Some w =>
          if (String.length w <=? 5)%nat
             && str_all (fun c => dict_mem (String c EmptyString) flags)
                  (lower (str_drop 2 w))
          then
            let w' := if String.eqb w "BR" then "BRnzp" else w in
            (<[ind := "BR"]> words, Some (flag_bits (lower (str_drop 2 w')) 0))
          else (words, None)
      | None => (words, None)
      end
  | None => (words, None)
  end.

(** Loop state of the operand loop: [instruction], [r], [rc] and the
    assembler state (for [label_location]). *)
Record operands : Type := Operands {
  op_instruction : Z;
  op_r : Z;
  op_rc : nat;
  op_state : state
}.

(** One operand token, up to (not including) [instruction |= r]. *)
Definition operand_token (found : string) (token : string) (a : operands)
  : result operands :=
  let word := rstrip_comma token in
  match dict_get word regs with
  | Some n =>
      pos <- list_item reg_pos (op_rc a) ;;
      Ok (Operands (op_instruction a) (Z.lor (op_r a) (Z.shiftl n pos))
            (op_rc a + 1)%nat (op_state a))
  | None =>
      mask <- dict_item found immediate_mask ;;
      value <- get_immediate word mask ;;
      match value with
      | Some v =>
          let i := Z.lor (op_instruction a) v in
          let i := if String.eqb found "ADD" || String.eqb found "AND"
                   then Z.lor i (Z.shiftl 1 5) else i in
          Ok (Operands i (op_r a) (op_rc a) (op_state a))
      | None =>
          if negb (String.eqb word found) then
            ok <- valid_label word ;;
            if ok then
              p <- get_pc (op_state a) ;;
              width <- dict_item found immediate ;;
              Ok (Operands (op_instruction a) (op_r a) (op_rc a)
                    (add_fixup word (Fixup p mask width) (op_state a)))
            else Raise ValueError
          else Ok a
      end
  end.

(** [for word in words[1:]: ...; instruction |= r; if found == 'JMPT': break] *)
Fixpoint operand_loop (found : string) (tokens : list string) (a : operands)
  : result operands :=
  match tokens with
  | [] => Ok a
  | token :: rest =>
      a1 <- operand_token found token a ;;
      let a2 := Operands (Z.lor (op_instruction a1) (op_r a1)) (op_r a1)
                  (op_rc a1) (op_state a1) in
      if String.eqb found "JMPT" then Ok a2 else operand_loop found rest a2
  end.

(** From [try: instruction = instruction_info[found]] to the end. *)
Definition encode_instruction (found : string) (fl : option Z)
    (words : list string) (st : state) : result state :=
  match dict_get found instruction_info with
  | None => Ok (print (PromptUnknown found) st)
  | Some instruction =>
      instruction <- (if String.eqb found "BR"
                      then match fl with
                           | Some f => Ok (Z.lor instruction f)
                           | None => Raise UnboundLocalError
                           end
                      else Ok instruction) ;;
      let rc := if String.eqb found "JMPT" then 1%nat else 0%nat in
      a <- operand_loop found (drop 1 words) (Operands instruction 0 rc st) ;;
      st1 <- put_and_show (op_instruction a) (op_state a) ;;
      advance_pc 1 st1
  end.

(** The part of [process_instruction] after the directives. *)
Definition instruction_line (line : string) (words : list string) (st : state)
  : result state :=
  let '(words, fl) := normalize_branch words in
  w0 <- list_item words 0 ;;
  if str_in w0 instructions then encode_instruction w0 fl words st
  else
    ok <- valid_label w0 ;;
    st1 <- (if ok then define_label w0 st
            else Ok (print (WarnInvalidLabel w0 line) st)) ;;
    if (length words <? 2)%nat then Ok st1
    else
      w1 <- list_item words 1 ;;
      let found := if str_in w1 instructions then w1 else EmptyString in
      if String.eqb found EmptyString then
        if (1 <? length words)%nat
        then Ok (print (PromptNotInstruction line) st1)
        else
          ok0 <- valid_label w0 ;;
          if ok0 then
            p <- get_pc st1 ;;
            Ok (add_fixup w0 (Fixup p 0xFFFF 16) st1)
          else Raise ValueError
      else encode_instruction found fl words st1.

Definition process_instruction (line : string) (words : list string) (st : state)
  : result state :=
  match words with
  | [] => Ok st
  | w0 :: _ =>
      if startswith w0 ";" then Ok st
      else if str_in ".FILL" words then fill_directive words st
      else if str_in ".ORIG" words then orig_directive words st
      else if str_in ".STRINGZ" words then stringz_directive line words st
      else if str_in ".BLKW" words then blkw_directive words st
      else instruction_line line words st
  end.

(** ** The driver loop over the source lines *)

(** Comment removal, comma spacing and tokenization of one raw line: the
    global [line] and the list [words]. *)
Definition preprocess (raw : string) : string * list string :=
  let line := hd EmptyString (split_char ";" raw) in
  let line := if negb (char_in "034" line) then replace_comma line else line in
  (line, split_ws line).

Fixpoint encode_lines (lines : list string) (st : state) : result state :=
  match lines with
  | [] => Ok st
  | raw :: rest =>
      let '(line, words) := preprocess raw in
      if str_in ".END" words then Ok st
      else
        st1 <- process_instruction line words st ;;
        encode_lines rest st1
  end.

(** ** Resolution of the label references *)

(** The body of [for ref, mask, bits in value]. *)
Definition resolve_record (label : string) (fx : fixup) (st : state) : result state :=
  target <- dict_item label (labels st) ;;
  let current := target - fx_ref fx - 1 in
  w <- mem_get (memory st) (fx_ref fx) ;;
  if w =? 0 then
    m <- mem_set (memory st) (fx_ref fx) target ;;
    Ok (set_memory m st)
  else
    ok <- in_range current (fx_bits fx) ;;
    if negb ok then Raise ValueError
    else
      m <- mem_set (memory st) (fx_ref fx) (Z.lor w (Z.land (fx_mask fx) current)) ;;
      Ok (set_memory m st).

Fixpoint resolve_records (label : string) (recs : list fixup) (st : state)
  : result state :=
  match recs with
  | [] => Ok st
  | fx :: rest =>
      st1 <- resolve_record label fx st ;;
      resolve_records label rest st1
  end.

(** The body of [for label, value in label_location.items()]. *)
Definition resolve_label (label : string) (value : list fixup) (st : state)
  : result state :=
  if negb (dict_mem label (labels st))
  then Ok (print (BadLabelFailure label value) st)
  else resolve_records label value st.

Fixpoint resolve_items (items : dict (list fixup)) (st : state) : result state :=
  match items with
  | [] => Ok st
  | (label, value) :: rest =>
      st1 <- resolve_label label value st ;;
      resolve_items rest st1
  end.

Definition resolve (st : state) : result state :=
  resolve_items (label_location st) st.

(** ** Output *)

Definition tab : string := String "009" EmptyString.
Definition newline : string := String "010" EmptyString.

Fixpoint spaces (n : nat) (c : ascii) : string :=
  match n with
  | O => EmptyString
  | S n' => String c (spaces n' c)
  end.

Fixpoint join (sep : string) (pieces : list string) : string :=
  match pieces with
  | [] => EmptyString
  | [p] => p
  | p :: rest => String.append p (String.append sep (join sep rest))
  end.

Fixpoint bin_pos (p : positive) : string :=
  match p with
  | xH => "1"
  | xO q => String.append (bin_pos q) "0"
  | xI q => String.append (bin_pos q) "1"
  end.

Definition pad_left (width : nat) (c : ascii) (s : string) : string :=
  String.append (spaces (width - String.length s) c) s.

(** ['{0:016b}'.format(n)] *)
Definition format_016b (n : Z) : string :=
  match n with
  | Z0 => pad_left 16 "0" "0"
  | Zpos p => pad_left 16 "0" (bin_pos p)
  | Zneg p => String "-" (pad_left 15 "0" (bin_pos p))
  end.

Fixpoint pos_bits (p : positive) : list bool :=
  match p with
  | xH => [true]
  | xO q => false :: pos_bits q
  | xI q => true :: pos_bits q
  end.

Definition hex_digit (b0 b1 b2 b3 : bool) : ascii :=
  let v := (Nat.b2n b0 + 2 * Nat.b2n b1 + 4 * Nat.b2n b2 + 8 * Nat.b2n b3)%nat in
  match String.get v "0123456789abcdef" with
  | Some c => c
  | None => "0"%char
  end.

(** Hexadecimal digits, most significant first, of bits given least
    significant first. *)
Fixpoint hex_of_bits (bs : list bool) (acc : string) : string :=
  match bs with
  | [] => acc
  | [b0] => String (hex_digit b0 false false false) acc
  | [b0; b1] => String (hex_digit b0 b1 false false) acc
  | [b0; b1; b2] => String (hex_digit b0 b1 b2 false) acc
  | b0 :: b1 :: b2 :: b3 :: r => hex_of_bits r (String (hex_digit b0 b1 b2 b3) acc)
  end.

(** ['%4x' % n] *)
Definition format_4x (n : Z) : string :=
  match n with
  | Z0 => pad_left 4 " " "0"
  | Zpos p => pad_left 4 " " (hex_of_bits (pos_bits p) EmptyString)
  | Zneg p => pad_left 4 " " (String "-" (hex_of_bits (pos_bits p) EmptyString))
  end.

(** ['\t%-20s%4x' % (name, value)] *)
Definition sym_entry (kv : string * Z) : string :=
  String.append tab
    (String.append (fst kv)
       (String.append (spaces (20 - String.length (fst kv)) " ")
          (format_4x (snd kv)))).

(** The text of the symbol file. *)
Definition sym_text (l : dict Z) : string :=
  String.append "//Symbol Name"
  (String.append tab (String.append tab (String.append "Page Address"
  (String.append newline (String.append "//----------------"
  (String.append tab (String.append "------------"
  (String.append newline (String.append "//"
  (String.append tab
  (String.append
     (join (String.append newline (String.append "//" tab)) (map sym_entry l))
     newline))))))))))).

(** [range(a, b)] *)
Definition py_range (a b : Z) : list Z :=
  map (fun i => a + Z.of_nat i) (seq 0 (Z.to_nat (b - a))).

(** [[memory[m] for m in ms]] *)
Fixpoint mem_gets (m : list Z) (ms : list Z) : result (list Z) :=
  match ms with
  | [] => Ok []
  | i :: rest =>
      w <- mem_get m i ;;
      ws <- mem_gets m rest ;;
      Ok (w :: ws)
  end.

(** The files written, in the order they are opened.  An [ObjFile] holds
    the array items handed to [tofile], which writes each as its two bytes
    in the byte order of the host. *)
Inductive artifact : Type :=
| SymFile (text : string)
| BinFile (text : string)
| ObjFile (items : list Z).

(** The object file block: the origin is parked in [memory[pc]], the whole
    array is byte-swapped, the two slices are written and the array is
    swapped back. *)
Definition emit_obj (st : state) : result (list Z * state) :=
  o <- get_orig st ;;
  p <- get_pc st ;;
  m <- mem_set (memory st) p o ;;
  let m1 := byteswap m in
  let items := mem_slice m1 p (p + 1) ++ mem_slice m1 o p in
  Ok (items, set_memory (byteswap m1) st).

(** Everything after resolution.  A file that was opened exists even when
    an exception cuts its writing short. *)
Definition emit (st : state) : list artifact * result state :=
  let sym := SymFile (sym_text (labels st)) in
  match get_orig st with
  | Raise e => ([sym; BinFile EmptyString], Raise e)
  | Ok o =>
      let head := String.append (format_016b o) newline in
      match (p <- get_pc st ;; mem_gets (memory st) (py_range o p)) with
      | Raise e => ([sym; BinFile head], Raise e)
      | Ok ws =>
          let bin := BinFile (String.append head
                       (String.append (join newline (map format_016b ws)) newline)) in
          match emit_obj st with
          | Raise e => ([sym; bin; ObjFile []], Raise e)
          | Ok (items, st1) => ([sym; bin; ObjFile items], Ok st1)
          end
      end
  end.

(** The whole run on the lines of the code file: encoding, resolution,
    output.  An exception before the output leaves no file. *)
Definition assemble (v : bool) (lines : list string) : list artifact * result state :=
  match (st <- encode_lines lines (initial_state v) ;; resolve st) with
  | Raise e => ([], Raise e)
  | Ok st => emit st
  end.

(** * Vocabulary of the properties

    States, programs and predicates that the statements below refer to,
    and the tactics shared by their proofs. *)

(** Reading a component of the state a computation ends in. *)
Definition word_at (r : result state) (i : Z) : result Z :=
  st <- r ;; mem_get (memory st) i.

(** The location counter, the origin and the diagnostics it ends with. *)
Definition pc_of (r : result state) : result (option Z) :=
  st <- r ;; Ok (pc st).

Definition orig_of (r : result state) : result (option Z) :=
  st <- r ;; Ok (orig st).

(** Whether a computation ended without an exception. *)
Definition is_ok {A : Type} (r : result A) : bool :=
  match r with
  | Ok _ => true
  | Raise _ => false
  end.

(** Exchanging the bytes twice gives the word back; checked on each of
    the 65536 words, as high byte and low byte. *)
Definition swap_twice_ok (n : nat) : bool :=
  forallb (fun h =>
    forallb (fun l =>
      let w := 256 * Z.of_nat h + Z.of_nat l in
      swap_bytes (swap_bytes w) =? w) (seq 0 n)) (seq 0 n).

(** A three-word memory holding [LD R0, ...] at address 0 and an unfilled
    word at address 1, with the label [L] defined at address 2. *)
Definition small_state : state :=
  {| verbose := false; memory := [0x2000; 0; 0]; orig := Some 0; pc := Some 3;
     labels := [("L", 2)]; label_location := []; stdout := [] |}.

(** Two memories compared word by word. *)
Definition same_words (a b : list Z) : bool :=
  (length a =? length b)%nat && forallb (fun xy => fst xy =? snd xy) (combine a b).

(** Whether a run ends with the memory of the initial state. *)
Definition unchanged_memory (r : result state) : result bool :=
  st <- r ;; Ok (same_words (memory st) memory_init).

(** The double quote character, for source lines that hold a literal. *)
Definition dquote : string := String "034" EmptyString.

(** The token the tokenizer produces for register [r] before a comma. *)
Definition reg_token (r : Z) : string := String.append (reg_name r) ",".

(** Case analysis on a mnemonic of the table. *)
Ltac split_or H :=
  repeat (apply orb_prop in H; destruct H as [H | H]).

Ltac each_mnemonic H :=
  unfold instructions, keys, instruction_info in H; simpl in H;
  rewrite ?orb_false_r in H; split_or H;
  apply String.eqb_eq in H; subst.

(** Tokens that start with the letter [R], such as register tokens. *)
Definition r_token (t : string) : bool := startswith t "R".

Ltac each_register d H :=
  let E := fresh "E" in
  assert (E : d = 0 \/ d = 1 \/ d = 2 \/ d = 3 \/ d = 4 \/ d = 5 \/ d = 6 \/ d = 7)
    by lia;
  clear H;
  destruct E as [E | [E | [E | [E | [E | [E | [E | E]]]]]]]; subst d.

(** The example program of the specification. *)
Definition example_program : list string :=
  [".ORIG x3000"; "ADD R1, R2, R3"; "HALT"; ".END"].






(** Whether a directive name occurs among the tokens. *)
Definition has_directive (words : list string) : bool :=
  str_in ".FILL" words || str_in ".ORIG" words
  || str_in ".STRINGZ" words || str_in ".BLKW" words.



(** A source line holding a [.STRINGZ] literal with a [;] inside. *)
Definition stringz_semicolon_line : string :=
  String.append "S .STRINGZ " (String.append dquote (String.append "a;b" dquote)).

Definition stdout_of (r : result state) : result (list event) :=
  st <- r ;; Ok (stdout st).

(** The diagnostic printed for one entry of [label_location] whose label
    is not defined. *)
Definition report_undefined (st : state) (item : string * list fixup) : state :=
  print (BadLabelFailure (fst item) (snd item)) st.

(** A program whose only label reference is to a label defined nowhere. *)
Definition undefined_label_program : list string :=
  [".ORIG x3000"; "LD R1, NOWHERE"; "HALT"; ".END"].

(** Every item of the array is a 16-bit word. *)
Definition words16 (m : list Z) : Prop := Forall (fun w => 0 <= w < 65536) m.

(** A four-word memory holding a two-word program at addresses 1 and 2. *)
Definition loaded_state : state :=
  {| verbose := false; memory := [0; 0x1283; 0xF025; 0]; orig := Some 1;
     pc := Some 3; labels := []; label_location := []; stdout := [] |}.











(** The records queued so far for a label. *)
Definition fixups_of (word : string) (st : state) : list fixup :=
  match dict_get word (label_location st) with
  | Some recs => recs
  | None => []
  end.

(** A four-word memory with nothing assembled yet and no label defined. *)
Definition fresh_state : state :=
  {| verbose := false; memory := [0; 0; 0; 0]; orig := Some 0; pc := Some 0;
     labels := []; label_location := []; stdout := [] |}.

(** A computation that, if it ends, ends with a memory of 16-bit words. *)
Definition keeps_words (r : result state) : Prop :=
  match r with
  | Ok st => words16 (memory st)
  | Raise _ => True
  end.

(** A mask and width as the tables pair them: the mask of a field of
    [width] bits, the width at most 16. *)
Definition field_shape (mask width : Z) : Prop :=
  mask = Z.shiftl 1 width - 1 /\ 0 <= width <= 16.

(** [reaches R st r]: the computation [r], started in [st], raised or ended
    in a state that [R] relates to [st]. *)
Definition reaches (R : state -> state -> Prop) (st : state) (r : result state)
  : Prop :=
  match r with
  | Ok st' => R st st'
  | Raise _ => True
  end.

Definition reaches_operands (R : state -> state -> Prop) (st : state)
    (r : result operands) : Prop :=
  match r with
  | Ok a => R st (op_state a)
  | Raise _ => True
  end.

(** Between two [.ORIG] directives: the origin stays and the location
    counter, once bound, does not move back. *)
Definition counter_advances (st st' : state) : Prop :=
  orig st' = orig st
  /\ match pc st with
     | Some p => exists p', pc st' = Some p' /\ p <= p'
     | None => pc st' = None
     end.

(** Nothing recorded is lost: the records of every label, the diagnostics
    and the defined names only grow, the memory keeps its size and the
    verbosity its value. *)
Definition only_grows (st st' : state) : Prop :=
  (forall w, exists more, fixups_of w st' = fixups_of w st ++ more)
  /\ (forall k, dict_mem k (labels st) = true -> dict_mem k (labels st') = true)
  /\ (exists more, stdout st' = stdout st ++ more)
  /\ length (memory st') = length (memory st)
  /\ verbose st' = verbose st.

(** Every record queued pairs a mask with its width. *)
Definition shaped_fixups (st : state) : Prop :=
  forall w rec, In rec (fixups_of w st) -> field_shape (fx_mask rec) (fx_bits rec).

(** The memory indices that the records [recs] point to, in an array of
    [len] items. *)
Definition touched (len : Z) (recs : list fixup) (i : nat) : Prop :=
  exists fx, In fx recs /\ py_index len (fx_ref fx) = Ok i.

(** The memory indices that some queued record of the state points to. *)
Definition patched_at (st : state) (i : nat) : Prop :=
  exists label recs,
    In (label, recs) (label_location st)
    /\ touched (Z.of_nat (length (memory st))) recs i.

(** [st'] is [st] up to the memory words at the indices in [T] and to
    diagnostics added at the end. *)
Definition patched_within (T : nat -> Prop) (st st' : state) : Prop :=
  labels st' = labels st /\ label_location st' = label_location st
  /\ pc st' = pc st /\ orig st' = orig st /\ verbose st' = verbose st
  /\ length (memory st') = length (memory st)
  /\ (forall i, ~ T i -> memory st' !! i = memory st !! i)
  /\ (exists more, stdout st' = stdout st ++ more).



(** The field of a fix-up of the given width that an offset is patched
    into. *)
Definition offset_field (bits n : Z) : Z := Z.land (Z.shiftl 1 bits - 1) n.

(** [hex(h)] *)
Definition hex (h : Z) : string :=
  match h with
  | Z0 => "0x0"
  | Zpos p => String.append "0x" (hex_of_bits (pos_bits p) EmptyString)
  | Zneg p => String.append "-0x" (hex_of_bits (pos_bits p) EmptyString)
  end.

(** [lc_hex(h)]: [hex(h)[1:]]. *)
Definition lc_hex (h : Z) : string := str_drop 1 (hex h).

(** The number whose binary digits are given, least significant first. *)
Fixpoint bits_value (bs : list bool) : Z :=
  match bs with
  | [] => 0
  | b :: r => Z.b2z b + 2 * bits_value r
  end.

(** The digits of lower-case hexadecimal notation. *)
Definition hex_lower (c : ascii) : bool := char_in c "0123456789abcdef".

(** [ends P r]: the computation [r] returned a result that satisfies [P],
    or raised something other than OverflowError. *)
Definition ends {A : Type} (P : A -> Prop) (r : result A) : Prop :=
  match r with
  | Ok a => P a
  | Raise e => e <> OverflowError
  end.

(** The instruction word and the register bits collected so far both fit
    in 16 bits. *)
Definition word_operands (a : operands) : Prop :=
  0 <= op_instruction a < 65536 /\ 0 <= op_r a < 65536.

(** All values of a table satisfy a test. *)
Definition all_values {V : Type} (p : V -> bool) (d : dict V) : bool :=
  forallb (fun kv => p (snd kv)) d.

(** A [.STRINGZ] line whose text is the one character U+1F600, four bytes
    in UTF-8. *)
Definition wide_stringz_line : string :=
  String.append "S .STRINGZ "
    (String "034" (String "240" (String "159" (String "152" (String "128"
       (String "034" EmptyString)))))).

(** [small_state] with two fix-ups queued for [L]: the first at the
    unfilled word at address 1, the second at the instruction at
    address 0. *)
Definition two_fixups_state : state :=
  add_fixup "L" (Fixup 0 511 9) (add_fixup "L" (Fixup 1 511 9) small_state).

(** [small_state] with one fix-up of width 1 queued for [L] at the
    instruction at address 0. *)
Definition narrow_fixup_state : state := add_fixup "L" (Fixup 0 1 1) small_state.

(** The tokens that branch normalization rewrites to [BR]: the letters
    [BR] followed by at most three flag letters, in either case. *)
Definition branch_token (w : string) : bool :=
  startswith w "BR"
  && (String.length w <=? 5)%nat
  && str_all (fun c => dict_mem (String c EmptyString) flags) (lower (str_drop 2 w)).

(** Two states that agree on everything the resolver and the output stage
    read: the verbosity, the memory, the origin, the location counter and
    the symbol table.  The fix-up table and the diagnostics printed so far
    are free. *)
Definition same_run (s1 s2 : state) : Prop :=
  verbose s1 = verbose s2 /\ memory s1 = memory s2 /\ orig s1 = orig s2
  /\ pc s1 = pc s2 /\ labels s1 = labels s2.

(** Two runs that end alike: with the same exception, or in states that
    agree in the sense of [same_run]. *)
Definition same_outcome (r1 r2 : result state) : Prop :=
  match r1, r2 with
  | Ok s1, Ok s2 => same_run s1 s2
  | Raise e1, Raise e2 => e1 = e2
  | _, _ => False
  end.

(** What [assemble] does with the outcome of encoding and resolution: an
    exception ends the run before any file is opened, otherwise the output
    stage runs. *)
Definition finish (r : result state) : list artifact * result state :=
  match r with
  | Raise e => ([], Raise e)
  | Ok st => emit st
  end.

(** [small_state] with a fix-up queued for the defined label [L] and one
    for a label [NOWHERE] that is defined nowhere. *)
Definition dangling_state : state :=
  add_fixup "NOWHERE" (Fixup 1 511 9) (add_fixup "L" (Fixup 0 511 9) small_state).

(** * Properties *)

(** ** The error monad *)

Lemma bind_Ok {A B : Type} (a : A) (k : A -> result B) : bind (Ok a) k = k a.
Proof. reflexivity. Qed.

Lemma bind_Ok_inv {A B : Type} (c : result A) (k : A -> result B) (b : B) :
  bind c k = Ok b -> exists a, c = Ok a /\ k a = Ok b.
Proof. destruct c as [a|e]; simpl; [eauto | discriminate]. Qed.

(** ** Sixteen-bit words *)

Section Words.

Lemma is_word_spec (v : Z) : is_word v = true <-> 0 <= v < 65536.
Proof. unfold is_word. rewrite andb_true_iff, Z.leb_le, Z.ltb_lt. tauto. Qed.

Lemma word_land_ones (v : Z) : 0 <= v < 65536 <-> Z.land v (Z.ones 16) = v.
Proof.
  rewrite Z.land_ones by lia. change (2 ^ 16) with 65536. split.
  - intros H. now apply Z.mod_small.
  - intros H. rewrite <- H. apply Z.mod_pos_bound. lia.
Qed.

Lemma lor_word (a b : Z) :
  0 <= a < 65536 -> 0 <= b < 65536 -> 0 <= Z.lor a b < 65536.
Proof.
  rewrite !word_land_ones. intros Ha Hb.
  now rewrite Z.land_lor_distr_l, Ha, Hb.
Qed.

Lemma land_word_l (a b : Z) : 0 <= a < 65536 -> 0 <= Z.land a b < 65536.
Proof.
  rewrite !word_land_ones. intros Ha.
  rewrite <- Z.land_assoc, (Z.land_comm b), Z.land_assoc. now rewrite Ha.
Qed.

Lemma swap_twice_ok_spec (n : nat) (h l : Z) :
  swap_twice_ok n = true ->
  0 <= h < Z.of_nat n -> 0 <= l < Z.of_nat n ->
  swap_bytes (swap_bytes (256 * h + l)) = 256 * h + l.
Proof.
  unfold swap_twice_ok. intros H Hh Hl.
  rewrite forallb_forall in H.
  assert (Hin : forall z, 0 <= z < Z.of_nat n -> In (Z.to_nat z) (seq 0 n)).
  { intros z Hz. apply in_seq. lia. }
  specialize (H (Z.to_nat h) (Hin _ Hh)).
  rewrite forallb_forall in H.
  specialize (H (Z.to_nat l) (Hin _ Hl)).
  rewrite !Z2Nat.id in H by lia.
  now apply Z.eqb_eq.
Qed.

Lemma swap_twice_all : swap_twice_ok 256 = true.
Proof. vm_compute. reflexivity. Qed.

Lemma swap_bytes_involutive (w : Z) :
  0 <= w < 65536 -> swap_bytes (swap_bytes w) = w.
Proof.
  intros Hw.
  assert (Hh : 0 <= w / 256 < 256).
  { split; [apply Z.div_pos; lia | apply Z.div_lt_upper_bound; lia]. }
  assert (Hl : 0 <= w mod 256 < 256) by (apply Z.mod_pos_bound; lia).
  rewrite (Z.div_mod w 256) by lia.
  apply (swap_twice_ok_spec 256 _ _ swap_twice_all);
    change (Z.of_nat 256) with 256; assumption.
Qed.

End Words.

(** ** The memory array *)

Section Memory.

Lemma py_index_lt (len i : Z) (n : nat) :
  py_index len i = Ok n -> (Z.of_nat n < len).
Proof.
  unfold py_index. destruct (i <? 0) eqn:Hi;
    destruct (_ && _) eqn:Hb; intros [= <-];
    apply andb_true_iff in Hb as [H1%Z.leb_le H2%Z.ltb_lt]; lia.
Qed.

Lemma py_index_upper (len i : Z) (n : nat) :
  py_index len i = Ok n -> i < len.
Proof.
  unfold py_index. destruct (i <? 0) eqn:Hi;
    destruct (_ && _) eqn:Hb; intros [= <-];
    apply andb_true_iff in Hb as [H1%Z.leb_le H2%Z.ltb_lt];
    apply Z.ltb_lt in Hi || apply Z.ltb_ge in Hi; lia.
Qed.

Lemma mem_get_index (m : list Z) (i w : Z) :
  mem_get m i = Ok w <->
  exists n, py_index (Z.of_nat (length m)) i = Ok n /\ m !! n = Some w.
Proof.
  unfold mem_get. split.
  - intros H. apply bind_Ok_inv in H as (n & Hn & H). exists n. split; [done|].
    destruct (m !! n); [congruence | discriminate].
  - intros (n & -> & H). simpl. now rewrite H.
Qed.

Lemma mem_set_index (m : list Z) (i v : Z) (n : nat) :
  py_index (Z.of_nat (length m)) i = Ok n -> 0 <= v < 65536 ->
  mem_set m i v = Ok (<[n := v]> m).
Proof.
  intros Hn Hv. unfold mem_set. rewrite Hn. simpl.
  apply is_word_spec in Hv. now rewrite Hv.
Qed.

Lemma mem_set_overflow (m : list Z) (i v : Z) (n : nat) :
  py_index (Z.of_nat (length m)) i = Ok n -> ~ 0 <= v < 65536 ->
  mem_set m i v = Raise OverflowError.
Proof.
  intros Hn Hv. unfold mem_set. rewrite Hn. simpl.
  destruct (is_word v) eqn:E; [|done]. now apply is_word_spec in E.
Qed.

Lemma mem_get_insert (m : list Z) (i v : Z) (n : nat) :
  py_index (Z.of_nat (length m)) i = Ok n ->
  mem_get (<[n := v]> m) i = Ok v.
Proof.
  intros Hn. unfold mem_get. rewrite length_insert, Hn. simpl.
  rewrite list_lookup_insert_eq; [done|].
  apply py_index_lt in Hn. lia.
Qed.

End Memory.

(** ** Resolution of one fixup record *)

Section Resolver.

Variable label : string.
Variable st : state.
Variable target : Z.
Hypothesis label_defined : dict_get label (labels st) = Some target.

Lemma in_range_inside (n bits : Z) :
  - 2 ^ (bits - 1) <= n < 2 ^ (bits - 1) -> in_range n bits = Ok true.
Proof.
  intros H. unfold in_range. destruct (bits - 1 <? 0) eqn:E.
  - apply Z.ltb_lt in E. rewrite Z.pow_neg_r in H by assumption. lia.
  - rewrite Z.shiftl_1_l. f_equal.
    apply andb_true_iff. rewrite Z.leb_le, Z.ltb_lt. exact H.
Qed.

Lemma in_range_outside (n bits : Z) :
  ~ (- 2 ^ (bits - 1) <= n < 2 ^ (bits - 1)) ->
  in_range n bits = Ok false \/ in_range n bits = Raise ValueError.
Proof.
  intros H. unfold in_range. destruct (bits - 1 <? 0); [now right | left].
  rewrite Z.shiftl_1_l. f_equal.
  apply not_true_is_false. rewrite andb_true_iff, Z.leb_le, Z.ltb_lt. exact H.
Qed.

Lemma resolve_record_nonzero (fx : fixup) (w : Z) :
  mem_get (memory st) (fx_ref fx) = Ok w -> w <> 0 ->
  resolve_record label fx st =
    (ok <- in_range (target - fx_ref fx - 1) (fx_bits fx) ;;
     if negb ok then Raise ValueError
     else
       m <- mem_set (memory st) (fx_ref fx)
              (Z.lor w (Z.land (fx_mask fx) (target - fx_ref fx - 1))) ;;
       Ok (set_memory m st)).
Proof.
  intros Hw Hnz. unfold resolve_record, dict_item.
  rewrite label_defined, bind_Ok, Hw, bind_Ok.
  apply Z.eqb_neq in Hnz. now rewrite Hnz.
Qed.

Lemma resolve_record_zero (fx : fixup) :
  mem_get (memory st) (fx_ref fx) = Ok 0 ->
  resolve_record label fx st =
    (m <- mem_set (memory st) (fx_ref fx) target ;; Ok (set_memory m st)).
Proof.
  intros Hw. unfold resolve_record, dict_item.
  now rewrite label_defined, bind_Ok, Hw, bind_Ok.
Qed.

End Resolver.

(** ** The resolution loop around one record *)

Lemma resolve_record_labels (label : string) (fx : fixup) (st st' : state) :
  resolve_record label fx st = Ok st' -> labels st' = labels st.
Proof.
  unfold resolve_record.
  destruct (dict_item label (labels st)) as [target|]; [|discriminate].
  cbn [bind]. destruct (mem_get _ _) as [w|]; [|discriminate]. cbn [bind].
  destruct (w =? 0).
  - destruct (mem_set _ _ _); [|discriminate]. now intros [= <-].
  - destruct (in_range _ _) as [ok|]; [|discriminate]. cbn [bind].
    destruct (negb ok); [discriminate|].
    destruct (mem_set _ _ _); [|discriminate]. now intros [= <-].
Qed.

Lemma resolve_records_labels (label : string) (recs : list fixup) (st st' : state) :
  resolve_records label recs st = Ok st' -> labels st' = labels st.
Proof.
  revert st. induction recs as [|fx recs IH]; intros st; cbn [resolve_records].
  - now intros [= <-].
  - destruct (resolve_record label fx st) as [st1|] eqn:E; [|discriminate].
    cbn [bind]. intros H. rewrite (IH _ H). now apply resolve_record_labels in E.
Qed.

Lemma resolve_items_labels (items : dict (list fixup)) (st st' : state) :
  resolve_items items st = Ok st' -> labels st' = labels st.
Proof.
  revert st. induction items as [|[label value] items IH]; intros st;
    cbn [resolve_items].
  - now intros [= <-].
  - destruct (resolve_label label value st) as [st1|] eqn:E; [|discriminate].
    cbn [bind]. intros H. rewrite (IH _ H). revert E. unfold resolve_label.
    destruct (negb _); [now intros [= <-] | apply resolve_records_labels].
Qed.

Lemma resolve_records_app (label : string) (a b : list fixup) (st : state) :
  resolve_records label (a ++ b) st
    = (st1 <- resolve_records label a st ;; resolve_records label b st1).
Proof.
  revert st. induction a as [|fx a IH]; intros st; [reflexivity|].
  cbn [app resolve_records].
  destruct (resolve_record label fx st); [apply IH | reflexivity].
Qed.

Lemma resolve_items_app (a b : dict (list fixup)) (st : state) :
  resolve_items (a ++ b) st = (st1 <- resolve_items a st ;; resolve_items b st1).
Proof.
  revert st. induction a as [|[label value] a IH]; intros st; [reflexivity|].
  cbn [app resolve_items].
  destruct (resolve_label label value st); [apply IH | reflexivity].
Qed.

(** The resolver when it has come to one record of a defined label: the
    labels before it in the table and the earlier records of the same
    label are done, and what is left is this record, the later records of
    the label and the labels after it. *)
Lemma resolve_at_record
    (st st1 st2 : state) (before after : dict (list fixup)) (label : string)
    (earlier later : list fixup) (fx : fixup) (target : Z) :
  label_location st = before ++ (label, earlier ++ fx :: later) :: after ->
  resolve_items before st = Ok st1 ->
  resolve_records label earlier st1 = Ok st2 ->
  dict_get label (labels st) = Some target ->
  dict_get label (labels st2) = Some target
  /\ resolve st
     = (st3 <- resolve_record label fx st2 ;;
        st4 <- resolve_records label later st3 ;;
        resolve_items after st4).
Proof.
  intros Hloc Hbefore Hearlier Hl.
  pose proof (resolve_items_labels _ _ _ Hbefore) as L1.
  pose proof (resolve_records_labels _ _ _ _ Hearlier) as L2.
  split; [now rewrite L2, L1|].
  unfold resolve. rewrite Hloc, resolve_items_app, Hbefore, bind_Ok.
  cbn [resolve_items]. unfold resolve_label, dict_mem. rewrite L1, Hl.
  cbn [negb]. rewrite resolve_records_app, Hearlier, bind_Ok.
  cbn [resolve_records].
  destruct (resolve_record label fx st2) as [st3|]; [|reflexivity].
  cbn [bind]. reflexivity.
Qed.

(** C1. For every fixup record whose label is defined and whose stored
    word is non-zero when the resolver comes to it (the labels before it
    in the fix-up table and the earlier records of its label are done,
    without an exception), the resolver takes
    [offset = label_address - address - 1]; when
    [-2^(width-1) <= offset < 2^(width-1)] it replaces the stored word by
    [word | (offset & mask)], changes nothing else and goes on with the
    later records and labels; otherwise the whole resolution raises
    ValueError.  (The stored word and the mask are 16-bit values, as
    everything the encoder produces; for a width below 1 the bound
    [2^(width-1)] is 0 and the error comes from the negative shift
    count.) *)
Theorem C1_relative_fixup_range_checked
    (st st1 st2 : state) (before after : dict (list fixup)) (label : string)
    (earlier later : list fixup) (fx : fixup) (target w : Z) :
  label_location st = before ++ (label, earlier ++ fx :: later) :: after ->
  resolve_items before st = Ok st1 ->
  resolve_records label earlier st1 = Ok st2 ->
  dict_get label (labels st) = Some target ->
  mem_get (memory st2) (fx_ref fx) = Ok w ->
  w <> 0 ->
  0 <= w < 65536 ->
  0 <= fx_mask fx < 65536 ->
  let offset := target - fx_ref fx - 1 in
  (- 2 ^ (fx_bits fx - 1) <= offset < 2 ^ (fx_bits fx - 1) ->
   exists n,
     py_index (Z.of_nat (length (memory st2))) (fx_ref fx) = Ok n /\
     resolve st =
       (st3 <- resolve_records label later
                 (set_memory
                    (<[n := Z.lor w (Z.land offset (fx_mask fx))]> (memory st2)) st2) ;;
        resolve_items after st3))
  /\
  (~ (- 2 ^ (fx_bits fx - 1) <= offset < 2 ^ (fx_bits fx - 1)) ->
   resolve st = Raise ValueError).
Proof.
  intros Hloc Hbefore Hearlier Hl Hw Hnz Hw16 Hm16 offset.
  destruct (resolve_at_record st st1 st2 before after label earlier later fx target
              Hloc Hbefore Hearlier Hl) as [Hl2 ->].
  rewrite (resolve_record_nonzero label st2 target Hl2 fx w Hw Hnz).
  fold offset. split.
  - intros Hin. rewrite (in_range_inside _ _ Hin). cbn [bind negb].
    apply mem_get_index in Hw as (n & Hn & _). exists n. split; [exact Hn|].
    rewrite (Z.land_comm offset).
    rewrite (mem_set_index _ _ _ n Hn); [reflexivity|].
    apply lor_word; [exact Hw16 | now apply land_word_l].
  - intros Hout. destruct (in_range_outside _ _ Hout) as [-> | ->]; reflexivity.
Qed.

Lemma C1_relative_fixup_range_checked_witness :
  resolve two_fixups_state = Ok (set_memory [0x2001; 2; 0] two_fixups_state)
  /\ resolve narrow_fixup_state = Raise ValueError.
Proof.
  split.
  - destruct (C1_relative_fixup_range_checked two_fixups_state two_fixups_state
                (set_memory [0x2000; 2; 0] two_fixups_state) [] [] "L"
                [Fixup 1 511 9] [] (Fixup 0 511 9) 2 0x2000
                eq_refl eq_refl eq_refl eq_refl eq_refl) as [H _];
      [lia | simpl; lia | simpl; lia |].
    destruct H as (n & Hn & ->); [simpl; lia |].
    injection Hn as <-. reflexivity.
  - destruct (C1_relative_fixup_range_checked narrow_fixup_state narrow_fixup_state
                narrow_fixup_state [] [] "L" [] [] (Fixup 0 1 1) 2 0x2000
                eq_refl eq_refl eq_refl eq_refl eq_refl) as [_ H];
      [lia | simpl; lia | simpl; lia |].
    apply H. simpl. lia.
Defined.

(** C2. For every fixup record whose label is defined, if the stored word
    is exactly 0 when the resolver comes to it, the resolver replaces it
    by the label's address itself, whatever the mask and the width of the
    record, changes nothing else and goes on with the later records and
    labels: no offset is computed and no range is checked.  (The address
    is a 16-bit value, as the memory array requires of every item.) *)
Theorem C2_zero_word_absolute_fill
    (st st1 st2 : state) (before after : dict (list fixup)) (label : string)
    (earlier later : list fixup) (ref mask bits target : Z) :
  label_location st
    = before ++ (label, earlier ++ Fixup ref mask bits :: later) :: after ->
  resolve_items before st = Ok st1 ->
  resolve_records label earlier st1 = Ok st2 ->
  dict_get label (labels st) = Some target ->
  mem_get (memory st2) ref = Ok 0 ->
  0 <= target < 65536 ->
  exists n,
    py_index (Z.of_nat (length (memory st2))) ref = Ok n
    /\ resolve st =
         (st3 <- resolve_records label later
                   (set_memory (<[n := target]> (memory st2)) st2) ;;
          resolve_items after st3)
    /\ mem_get (<[n := target]> (memory st2)) ref = Ok target.
Proof.
  intros Hloc Hbefore Hearlier Hl Hw Ht.
  destruct (resolve_at_record st st1 st2 before after label earlier later
              (Fixup ref mask bits) target Hloc Hbefore Hearlier Hl) as [Hl2 ->].
  rewrite (resolve_record_zero label st2 target Hl2 (Fixup ref mask bits) Hw).
  cbn [fx_ref].
  apply mem_get_index in Hw as (n & Hn & _). exists n.
  split; [exact Hn|]. split.
  - now rewrite (mem_set_index _ _ _ n Hn Ht).
  - now apply mem_get_insert.
Qed.

Lemma C2_zero_word_absolute_fill_witness :
  resolve two_fixups_state = Ok (set_memory [0x2001; 2; 0] two_fixups_state)
  /\ mem_get [0x2000; 2; 0] 1 = Ok 2.
Proof.
  destruct (C2_zero_word_absolute_fill two_fixups_state two_fixups_state
              two_fixups_state [] [] "L" [] [Fixup 0 511 9] 1 511 9 2
              eq_refl eq_refl eq_refl eq_refl eq_refl) as (n & Hn & H & Hget);
    [lia|].
  injection Hn as <-. split; [rewrite H; reflexivity | exact Hget].
Defined.

(** ** Writing a value at the location counter *)

Lemma put_and_show_negative (n : Z) (st : state) (p : Z) (k : nat) :
  pc st = Some p ->
  py_index (Z.of_nat (length (memory st))) p = Ok k ->
  - 65536 <= n < 0 ->
  put_and_show n st = Ok (set_memory (<[k := n + 65536]> (memory st)) st).
Proof.
  intros Hp Hk Hn. unfold put_and_show, get_pc. rewrite Hp, bind_Ok.
  assert (E : (n <? 0) = true) by (apply Z.ltb_lt; lia). rewrite E.
  change (Z.shiftl 1 16) with 65536.
  rewrite (mem_set_index _ _ _ k Hk) by lia.
  simpl. do 3 f_equal. lia.
Qed.

Lemma fill_directive_literal (word : string) (n : Z) (st : state) :
  py_int word = Some n ->
  fill_directive [".FILL"; word] st = (st1 <- put_and_show n st ;; advance_pc 1 st1).
Proof.
  intros Hn. unfold fill_directive. simpl. rewrite Hn.
  destruct (put_and_show n st); reflexivity.
Qed.

(** C10. A negative value handed to the memory writer is stored as its
    16-bit two's complement: for [-2^16 <= n < 0] the word written at the
    location counter is [n + 2^16], which is [n mod 2^16]; a value below
    [-2^16] is not written at all (OverflowError).  A negative decimal
    [.FILL] literal is written this way, [.FILL -1] stores 0xFFFF, and the
    escape [\b] of a [.STRINGZ] literal (code 98 - 100 = -2) stores 0xFFFE. *)
Theorem C10_negative_values_twos_complement
    (n : Z) (st : state) (p : Z) (k : nat) (line word : string) :
  pc st = Some p ->
  py_index (Z.of_nat (length (memory st))) p = Ok k ->
  n < 0 ->
  (- 65536 <= n ->
   put_and_show n st = Ok (set_memory (<[k := n + 65536]> (memory st)) st)
   /\ mem_get (<[k := n + 65536]> (memory st)) p = Ok (n + 65536)
   /\ n + 65536 = n mod 65536
   /\ (py_int word = Some n ->
       process_instruction line [".FILL"; word] st
         = Ok (set_pc (p + 1) (set_memory (<[k := n + 65536]> (memory st)) st))))
  /\ (n < - 65536 -> put_and_show n st = Raise OverflowError)
  /\ word_at (encode_lines [".ORIG x3000"; ".FILL -1"] (initial_state false)) 0x3000
       = Ok 0xFFFF
  /\ word_at (encode_lines
                [".ORIG x3000";
                 String.append "S .STRINGZ " (String.append dquote
                   (String.append "\b" dquote))]
                (initial_state false)) 0x3000
       = Ok 0xFFFE.
Proof.
  intros Hp Hk Hn. split; [|split; [|split]].
  - intros Hlo.
    pose proof (put_and_show_negative n st p k Hp Hk (conj Hlo Hn)) as Hput.
    split; [exact Hput|]. split; [now apply mem_get_insert|]. split.
    + apply Z.mod_unique with (q := -1); lia.
    + intros Hword. unfold process_instruction.
      change (startswith ".FILL" ";") with false.
      change (str_in ".FILL" [".FILL"; word]) with true. cbv iota.
      rewrite (fill_directive_literal word n st Hword), Hput, bind_Ok.
      unfold advance_pc, get_pc. simpl. now rewrite Hp.
  - intros Hlo. unfold put_and_show, get_pc. rewrite Hp, bind_Ok.
    assert (E : (n <? 0) = true) by (apply Z.ltb_lt; lia). rewrite E.
    change (Z.shiftl 1 16) with 65536.
    rewrite (mem_set_overflow _ _ _ k Hk) by lia. reflexivity.
  - vm_compute. reflexivity.
  - vm_compute. reflexivity.
Qed.

Lemma C10_negative_values_twos_complement_witness :
  put_and_show (-2) (set_pc 1 small_state)
    = Ok (set_memory [0x2000; 0xFFFE; 0] (set_pc 1 small_state))
  /\ process_instruction ".FILL -1" [".FILL"; "-1"] (set_pc 1 small_state)
    = Ok (set_pc 2 (set_memory [0x2000; 0xFFFF; 0] (set_pc 1 small_state))).
Proof.
  split.
  - destruct (C10_negative_values_twos_complement (-2) (set_pc 1 small_state) 1 1%nat
                EmptyString EmptyString eq_refl eq_refl) as [H _]; [lia|].
    destruct H as [H _]; [lia|]. exact H.
  - destruct (C10_negative_values_twos_complement (-1) (set_pc 1 small_state) 1 1%nat
                ".FILL -1" "-1" eq_refl eq_refl) as [H _]; [lia|].
    destruct H as (_ & _ & _ & H); [lia|]. exact (H eq_refl).
Defined.

(** With the trace switched on, the same escape is stored as well, but
    printing it evaluates [chr(-2)], which raises ValueError and ends the
    run. *)
Lemma stringz_escape_b_verbose :
  encode_lines
    [".ORIG x3000";
     String.append "S .STRINGZ " (String.append dquote (String.append "\b" dquote))]
    (initial_state true)
  = Raise ValueError.
Proof. vm_compute. reflexivity. Qed.

(** ** Block reservation *)

Lemma blkw_directive_count (w0 : string) (rest : list string) (st : state)
    (p v : Z) :
  pc st = Some p ->
  get_immediate (List.last (w0 :: rest) EmptyString) 0xFFFF = Ok (Some v) ->
  0 < v ->
  blkw_directive (w0 :: rest) st
    = Ok (set_pc (p + v) (set_labels (dict_set w0 p (labels st)) st)).
Proof.
  intros Hp Hv Hpos. unfold blkw_directive, define_label, get_pc.
  change (list_item (w0 :: rest) 0) with (Ok w0).
  rewrite !bind_Ok, Hp, !bind_Ok, Hv, bind_Ok.
  assert (E : (v <=? 0) = false) by (apply Z.leb_gt; lia). rewrite E.
  unfold advance_pc, get_pc. simpl. now rewrite Hp.
Qed.

(** Whatever the state, a count token [-3] moves the location counter
    forward by 65533. *)
Lemma blkw_directive_minus_three (label : string) (st : state) (p : Z) :
  pc st = Some p ->
  blkw_directive [label; ".BLKW"; "-3"] st
    = Ok (set_pc (p + 65533) (set_labels (dict_set label p (labels st)) st)).
Proof.
  intros Hp.
  apply (blkw_directive_count label [".BLKW"; "-3"] st p 65533 Hp);
    [reflexivity | lia].
Qed.

(** C7 (what the code does). [.BLKW 0] raises ValueError and [.BLKW 4]
    advances the location counter by 4 and leaves the memory as it was,
    but [.BLKW -3] is accepted: the count is masked to 16 bits before the
    test [value <= 0], so it is 65533 and the location counter advances by
    65533. *)
Theorem C7_blkw_negative_count_accepted :
  pc_of (encode_lines [".ORIG x3000"; "BUF .BLKW -3"] (initial_state false))
       = Ok (Some (0x3000 + 65533))
  /\ encode_lines [".ORIG x3000"; "BUF .BLKW 0"] (initial_state false)
       = Raise ValueError
  /\ pc_of (encode_lines [".ORIG x3000"; "BUF .BLKW 4"] (initial_state false))
       = Ok (Some (0x3000 + 4))
  /\ unchanged_memory (encode_lines [".ORIG x3000"; "BUF .BLKW 4"] (initial_state false))
       = Ok true.
Proof.
  split; [|split; [|split]].
  - vm_compute. reflexivity.
  - vm_compute. reflexivity.
  - vm_compute. reflexivity.
  - vm_compute. reflexivity.
Qed.

(** ** Instruction lines *)

Lemma instructions_table (M : string) :
  str_in M instructions = true <-> exists base, dict_get M instruction_info = Some base.
Proof.
  split.
  - intros H. each_mnemonic H; eexists; reflexivity.
  - intros [base H]. unfold instructions, keys, instruction_info in *. simpl in *.
    repeat match type of H with
           | (if String.eqb M ?s then _ else _) = _ =>
               destruct (String.eqb M s); [reflexivity | simpl]
           end.
    discriminate.
Qed.

Lemma instruction_info_word (M : string) (base : Z) :
  dict_get M instruction_info = Some base -> 0 <= base < 65536.
Proof.
  intros H. assert (Hin : str_in M instructions = true).
  { apply instructions_table. eauto. }
  each_mnemonic Hin; vm_compute in H; inversion H; lia.
Qed.

(** No mnemonic is a directive or a comment, and only [BR] starts with
    the letters [BR]. *)
Lemma mnemonic_shape (M : string) :
  str_in M instructions = true ->
  startswith M ";" = false
  /\ String.eqb ".FILL" M = false /\ String.eqb ".ORIG" M = false
  /\ String.eqb ".STRINGZ" M = false /\ String.eqb ".BLKW" M = false
  /\ startswith M "BR" = String.eqb M "BR".
Proof.
  intros H. each_mnemonic H; vm_compute; repeat split.
Qed.

Lemma r_token_not_directive (name : string) (ops : list string) :
  startswith name "." = true ->
  forallb r_token ops = true ->
  str_in name ops = false.
Proof.
  intros Hname. induction ops as [|t ops IH]; [reflexivity|].
  simpl. intros [Ht Hops]%andb_true_iff. rewrite (IH Hops), orb_false_r.
  destruct name as [|c name]; [discriminate|].
  destruct t as [|c' t]; [discriminate|].
  unfold r_token in Ht. cbn [startswith] in *.
  rewrite andb_true_r in *.
  apply Ascii.eqb_eq in Ht as ->. apply Ascii.eqb_eq in Hname as ->.
  reflexivity.
Qed.

Lemma normalize_branch_mnemonic (M : string) (ops : list string) :
  str_in M instructions = true ->
  forallb r_token ops = true ->
  normalize_branch (M :: ops)
    = (M :: ops, if String.eqb M "BR" then Some 0xE00 else None).
Proof.
  intros HM Hops. apply mnemonic_shape in HM as (_ & _ & _ & _ & _ & HBR).
  unfold normalize_branch, branch_index. rewrite HBR.
  destruct (String.eqb_spec M "BR") as [->|_]; [reflexivity|].
  destruct ops as [|t ops]; [reflexivity|].
  simpl in Hops. apply andb_true_iff in Hops as [Ht _].
  destruct t as [|c t]; [discriminate|].
  unfold r_token in Ht. cbn [startswith] in Ht.
  rewrite andb_true_r in Ht. apply Ascii.eqb_eq in Ht as ->.
  reflexivity.
Qed.

(** A line that starts with a mnemonic and goes on with register tokens is
    an instruction line for that mnemonic. *)
Lemma process_instruction_mnemonic
    (line M : string) (ops : list string) (st : state) :
  str_in M instructions = true ->
  forallb r_token ops = true ->
  process_instruction line (M :: ops) st
    = encode_instruction M (if String.eqb M "BR" then Some 0xE00 else None)
        (M :: ops) st.
Proof.
  intros HM Hops.
  pose proof (mnemonic_shape M HM) as (Hc & Hf & Ho & Hs & Hb & _).
  unfold process_instruction. rewrite Hc.
  cbn [str_in]. rewrite Hf, Ho, Hs, Hb. cbn [orb].
  rewrite !r_token_not_directive by (assumption || reflexivity).
  unfold instruction_line.
  rewrite (normalize_branch_mnemonic M ops HM Hops).
  change (list_item (M :: ops) 0) with (Ok M). rewrite bind_Ok.
  now rewrite HM.
Qed.

(** *** Register operands *)

Lemma reg_name_lookup (d : Z) : 0 <= d < 8 -> dict_get (reg_name d) regs = Some d.
Proof. intros H. each_register d H; reflexivity. Qed.

Lemma rstrip_reg_token (d : Z) : 0 <= d < 8 -> rstrip_comma (reg_token d) = reg_name d.
Proof. intros H. each_register d H; reflexivity. Qed.

Lemma rstrip_reg_name (d : Z) : 0 <= d < 8 -> rstrip_comma (reg_name d) = reg_name d.
Proof. intros H. each_register d H; reflexivity. Qed.

Lemma operand_token_register
    (found token : string) (d pos i r : Z) (rc : nat) (st : state) :
  rstrip_comma token = reg_name d ->
  0 <= d < 8 ->
  list_item reg_pos rc = Ok pos ->
  operand_token found token (Operands i r rc st)
    = Ok (Operands i (Z.lor r (Z.shiftl d pos)) (rc + 1)%nat st).
Proof.
  intros Ht Hd Hpos. unfold operand_token.
  cbn [op_instruction op_r op_rc op_state].
  now rewrite Ht, (reg_name_lookup d Hd), Hpos.
Qed.

Lemma lor_three_registers (i a b c : Z) :
  Z.lor (Z.lor (Z.lor i (Z.lor 0 a)) (Z.lor (Z.lor 0 a) b))
        (Z.lor (Z.lor (Z.lor 0 a) b) (Z.shiftl c 0))
  = Z.lor (Z.lor (Z.lor i a) b) c.
Proof.
  rewrite Z.shiftl_0_r, !Z.lor_0_l.
  apply Z.bits_inj'. intros n _. rewrite !Z.lor_spec.
  destruct (Z.testbit i n), (Z.testbit a n), (Z.testbit b n), (Z.testbit c n);
    reflexivity.
Qed.

Lemma operand_loop_three_registers
    (found t1 t2 t3 : string) (d s1 s2 i : Z) (st : state) :
  String.eqb found "JMPT" = false ->
  rstrip_comma t1 = reg_name d -> rstrip_comma t2 = reg_name s1 ->
  rstrip_comma t3 = reg_name s2 ->
  0 <= d < 8 -> 0 <= s1 < 8 -> 0 <= s2 < 8 ->
  exists r,
    operand_loop found [t1; t2; t3] (Operands i 0 0 st)
      = Ok (Operands
              (Z.lor (Z.lor (Z.lor i (Z.shiftl d 9)) (Z.shiftl s1 6)) s2) r 3 st).
Proof.
  intros HJ H1 H2 H3 Hd Hs1 Hs2. eexists.
  cbn [operand_loop]. rewrite HJ.
  rewrite (operand_token_register found t1 d 9 _ _ 0 _ H1 Hd eq_refl), bind_Ok.
  cbn [op_instruction op_r op_rc op_state Nat.add].
  rewrite (operand_token_register found t2 s1 6 _ _ 1 _ H2 Hs1 eq_refl), bind_Ok.
  cbn [op_instruction op_r op_rc op_state Nat.add].
  rewrite (operand_token_register found t3 s2 0 _ _ 2 _ H3 Hs2 eq_refl), bind_Ok.
  cbn [op_instruction op_r op_rc op_state Nat.add].
  rewrite lor_three_registers. reflexivity.
Qed.

Lemma put_and_show_word (w : Z) (st : state) (p : Z) (k : nat) :
  pc st = Some p ->
  py_index (Z.of_nat (length (memory st))) p = Ok k ->
  0 <= w < 65536 ->
  put_and_show w st = Ok (set_memory (<[k := w]> (memory st)) st).
Proof.
  intros Hp Hk Hw. unfold put_and_show, get_pc. rewrite Hp, bind_Ok.
  assert (E : (w <? 0) = false) by (apply Z.ltb_ge; lia). rewrite E.
  now rewrite (mem_set_index _ _ _ k Hk Hw).
Qed.

Lemma register_field_word (d pos : Z) :
  0 <= d < 8 -> 0 <= pos <= 9 -> 0 <= Z.shiftl d pos < 65536.
Proof.
  intros Hd Hpos. rewrite Z.shiftl_mul_pow2 by lia.
  assert (0 < 2 ^ pos <= 2 ^ 9).
  { split; [apply Z.pow_pos_nonneg; lia | apply Z.pow_le_mono_r; lia]. }
  change (2 ^ 9) with 512 in *. nia.
Qed.

Lemma register_field_bit5 (d pos : Z) :
  0 <= d < 8 -> pos = 0 \/ 6 <= pos -> Z.testbit (Z.shiftl d pos) 5 = false.
Proof.
  intros Hd [-> | Hpos].
  - rewrite Z.shiftl_0_r. each_register d Hd; reflexivity.
  - rewrite Z.shiftl_spec by lia. apply Z.testbit_neg_r. lia.
Qed.

(** *** A label in front of the mnemonic *)

Lemma valid_label_head (w : string) :
  valid_label w = Ok true -> exists c r, w = String c r /\ isalpha c = true.
Proof.
  unfold valid_label. destruct w as [|c r]; [discriminate|].
  cbn [str_item String.get bind]. intros H. exists c, r. split; [reflexivity|].
  destruct (Ascii.eqb c "x"); cbn [bind] in H.
  - destruct r as [|c' r']; cbn [str_item String.get bind] in H; [discriminate|].
    destruct (isdigit c'); cbn [bind] in H; [discriminate|].
    injection H as H. now apply andb_true_iff in H as [H _].
  - injection H as H. now apply andb_true_iff in H as [H _].
Qed.

Lemma label_head_not (c d : ascii) :
  isalpha c = true -> isalpha d = false ->
  Ascii.eqb d c = false /\ Ascii.eqb c d = false.
Proof.
  intros Hc Hd. rewrite (Ascii.eqb_sym c d).
  destruct (Ascii.eqb_spec d c) as [->|]; [congruence|now split].
Qed.

Lemma has_directive_false (words : list string) :
  has_directive words = false ->
  str_in ".FILL" words = false /\ str_in ".ORIG" words = false
  /\ str_in ".STRINGZ" words = false /\ str_in ".BLKW" words = false.
Proof.
  unfold has_directive. intros H.
  apply orb_false_elim in H as [H H4]. apply orb_false_elim in H as [H H3].
  apply orb_false_elim in H as [H1 H2]. auto.
Qed.

(** A token of label shape is no comment and no directive. *)
Lemma label_shape (l : string) :
  valid_label l = Ok true ->
  startswith l ";" = false /\ has_directive [l] = false.
Proof.
  intros Hv. destruct (valid_label_head l Hv) as (c & r & -> & Hc).
  unfold has_directive. cbn [startswith str_in String.eqb].
  rewrite (proj2 (label_head_not c ";" Hc eq_refl)).
  now rewrite (proj1 (label_head_not c "." Hc eq_refl)).
Qed.

(** Branch normalization leaves alone a line whose first token is no
    branch token and whose second token does not start with [BR]. *)
Lemma normalize_branch_label (l M : string) (ops : list string) :
  branch_token l = false ->
  startswith M "BR" = false ->
  normalize_branch (l :: M :: ops) = (l :: M :: ops, None).
Proof.
  intros Hl HM. unfold normalize_branch, branch_index, branch_token in *.
  destruct (startswith l "BR"); [|now rewrite HM].
  cbn [nth_error]. cbn [andb] in Hl. now rewrite Hl.
Qed.

(** The operand loop of a labelled line starts at the mnemonic, which it
    passes over. *)
Lemma operand_token_mnemonic (M : string) (a : operands) :
  str_in M instructions = true -> operand_token M M a = Ok a.
Proof. intros H. each_mnemonic H; reflexivity. Qed.

Lemma operand_loop_cons (found token : string) (rest : list string) (a : operands) :
  operand_loop found (token :: rest) a
    = (a1 <- operand_token found token a ;;
       if String.eqb found "JMPT"
       then Ok (Operands (Z.lor (op_instruction a1) (op_r a1)) (op_r a1)
                  (op_rc a1) (op_state a1))
       else operand_loop found rest
              (Operands (Z.lor (op_instruction a1) (op_r a1)) (op_r a1)
                 (op_rc a1) (op_state a1))).
Proof. reflexivity. Qed.

Lemma process_instruction_labelled
    (line l M : string) (ops : list string) (st : state) (p : Z) :
  valid_label l = Ok true ->
  str_in l instructions = false ->
  branch_token l = false ->
  str_in M instructions = true ->
  M <> "BR" ->
  forallb r_token ops = true ->
  pc st = Some p ->
  process_instruction line (l :: M :: ops) st
    = encode_instruction M None (l :: M :: ops)
        (set_labels (dict_set l p (labels st)) st).
Proof.
  intros Hv Hli Hlb HM HBR Hops Hp.
  destruct (label_shape l Hv) as [Hc Hd].
  apply has_directive_false in Hd as (Hf & Ho & Hs & Hb).
  cbn [str_in] in Hf, Ho, Hs, Hb. rewrite orb_false_r in Hf, Ho, Hs, Hb.
  pose proof (mnemonic_shape M HM) as (_ & Mf & Mo & Ms & Mb & MBR).
  apply String.eqb_neq in HBR. rewrite HBR in MBR.
  unfold process_instruction. rewrite Hc.
  cbn [str_in]. rewrite Hf, Ho, Hs, Hb, Mf, Mo, Ms, Mb. cbn [orb].
  rewrite !r_token_not_directive by (assumption || reflexivity).
  unfold instruction_line.
  rewrite (normalize_branch_label l M ops Hlb MBR).
  cbn [list_item nth_error bind length]. rewrite Hli, Hv. cbn [bind].
  unfold define_label, get_pc. rewrite Hp. cbn [bind].
  replace (S (S (length ops)) <? 2)%nat with false
    by (symmetry; apply Nat.ltb_ge; lia).
  rewrite HM. destruct (String.eqb_spec M "") as [->|_]; [|reflexivity].
  vm_compute in HM. discriminate HM.
Qed.

(** A token that stands for a register starts with the letter [R]. *)
Lemma register_token_shape (t : string) (d : Z) :
  0 <= d < 8 -> rstrip_comma t = reg_name d -> r_token t = true.
Proof.
  intros Hd Ht. destruct t as [|c r]; [each_register d Hd; discriminate Ht|].
  cbn [rstrip_comma] in Ht. unfold r_token. cbn [startswith].
  rewrite andb_true_r.
  destruct (rstrip_comma r).
  - destruct (Ascii.eqb c ","); [each_register d Hd; discriminate Ht|].
    each_register d Hd; injection Ht as -> _; reflexivity.
  - each_register d Hd; injection Ht as -> _; reflexivity.
Qed.

Lemma encode_three_registers
    (M t1 t2 t3 : string) (base d s1 s2 p : Z) (k : nat) (st : state)
    (words : list string) :
  dict_get M instruction_info = Some base ->
  M <> "BR" -> M <> "JMPT" ->
  0 <= d < 8 -> 0 <= s1 < 8 -> 0 <= s2 < 8 ->
  rstrip_comma t1 = reg_name d -> rstrip_comma t2 = reg_name s1 ->
  rstrip_comma t3 = reg_name s2 ->
  pc st = Some p ->
  py_index (Z.of_nat (length (memory st))) p = Ok k ->
  drop 1 words = [t1; t2; t3] \/ drop 1 words = [M; t1; t2; t3] ->
  encode_instruction M None words st
    = Ok (set_pc (p + 1)
            (set_memory
               (<[k := Z.lor (Z.lor (Z.lor base (Z.shiftl d 9)) (Z.shiftl s1 6)) s2]>
                  (memory st)) st)).
Proof.
  intros Hbase HBR HJ Hd Hs1 Hs2 H1 H2 H3 Hp Hk Hwords.
  assert (HM : str_in M instructions = true) by (apply instructions_table; eauto).
  apply String.eqb_neq in HBR, HJ.
  unfold encode_instruction. rewrite Hbase, HBR, HJ, bind_Ok.
  assert (Hloop : exists r,
             operand_loop M (drop 1 words) (Operands base 0 0 st)
             = Ok (Operands
                     (Z.lor (Z.lor (Z.lor base (Z.shiftl d 9)) (Z.shiftl s1 6)) s2)
                     r 3 st)).
  { destruct (operand_loop_three_registers M t1 t2 t3 d s1 s2 base st HJ
                H1 H2 H3 Hd Hs1 Hs2) as (r & Hr).
    exists r. destruct Hwords as [-> | ->]; [exact Hr|].
    rewrite operand_loop_cons, (operand_token_mnemonic M _ HM), bind_Ok, HJ.
    cbn [op_instruction op_r op_rc op_state]. rewrite Z.lor_0_r. exact Hr. }
  destruct Hloop as (r & ->). rewrite bind_Ok. cbn [op_instruction op_state].
  set (w := Z.lor _ s2).
  assert (Hw : 0 <= w < 65536).
  { unfold w. pose proof (instruction_info_word M base Hbase).
    repeat apply lor_word; try assumption;
      try (apply register_field_word; lia). lia. }
  rewrite (put_and_show_word w st p k Hp Hk Hw), bind_Ok.
  unfold advance_pc, get_pc. cbn. now rewrite Hp.
Qed.

(** C3. A line made of a mnemonic [M] other than [BR] and [JMPT] and three
    register operands (tokens that are register names once their trailing
    commas are dropped), alone or after a label, writes at the location
    counter the word [base_opcode(M) | (d << 9) | (s1 << 6) | s2] and
    advances the counter by one (the label, if any, is bound to the
    address of the word).  Bit 5 of that word is bit 5 of the base
    opcode: for the three-register instructions [ADD] and [AND], whose
    immediate-mode bit it is, it is clear.  The example program leaves
    0x1283 at 0x3000 and 0xF025 at 0x3001, with origin 0x3000 and
    location counter 0x3002.  (A label is a token of label shape that is
    neither a mnemonic nor a branch token; a branch token in front makes
    the line a branch line.) *)
Theorem C3_three_register_encoding
    (line M l t1 t2 t3 : string) (base d s1 s2 p : Z) (k : nat) (st : state) :
  dict_get M instruction_info = Some base ->
  M <> "BR" -> M <> "JMPT" ->
  0 <= d < 8 -> 0 <= s1 < 8 -> 0 <= s2 < 8 ->
  rstrip_comma t1 = reg_name d -> rstrip_comma t2 = reg_name s1 ->
  rstrip_comma t3 = reg_name s2 ->
  pc st = Some p ->
  py_index (Z.of_nat (length (memory st))) p = Ok k ->
  let w := Z.lor (Z.lor (Z.lor base (Z.shiftl d 9)) (Z.shiftl s1 6)) s2 in
  process_instruction line [M; t1; t2; t3] st
    = Ok (set_pc (p + 1) (set_memory (<[k := w]> (memory st)) st))
  /\ (valid_label l = Ok true ->
      str_in l instructions = false ->
      branch_token l = false ->
      process_instruction line [l; M; t1; t2; t3] st
        = Ok (set_pc (p + 1)
                (set_memory (<[k := w]> (memory st))
                   (set_labels (dict_set l p (labels st)) st))))
  /\ Z.testbit w 5 = Z.testbit base 5
  /\ (M = "ADD" \/ M = "AND" -> Z.testbit w 5 = false)
  /\ word_at (snd (assemble false example_program)) 0x3000 = Ok 0x1283
  /\ word_at (snd (assemble false example_program)) 0x3001 = Ok 0xF025
  /\ orig_of (snd (assemble false example_program)) = Ok (Some 0x3000)
  /\ pc_of (snd (assemble false example_program)) = Ok (Some 0x3002).
Proof.
  intros Hbase HBR HJ Hd Hs1 Hs2 H1 H2 H3 Hp Hk w.
  assert (HM : str_in M instructions = true) by (apply instructions_table; eauto).
  assert (Hops : forallb r_token [t1; t2; t3] = true).
  { cbn [forallb].
    now rewrite (register_token_shape t1 d Hd H1),
      (register_token_shape t2 s1 Hs1 H2), (register_token_shape t3 s2 Hs2 H3). }
  assert (Hbit : Z.testbit w 5 = Z.testbit base 5).
  { unfold w. rewrite !Z.lor_spec.
    rewrite !register_field_bit5 by (assumption || lia).
    rewrite <- (Z.shiftl_0_r s2), register_field_bit5 by (assumption || lia).
    now rewrite !orb_false_r. }
  split; [|split; [|split; [exact Hbit | split;
    [|split; [|split; [|split]]; vm_compute; reflexivity]]]].
  - rewrite (process_instruction_mnemonic line M [t1; t2; t3] st HM Hops).
    replace (String.eqb M "BR") with false
      by (symmetry; now apply String.eqb_neq).
    apply (encode_three_registers M t1 t2 t3 base d s1 s2 p k st); auto.
  - intros Hv Hli Hlb.
    rewrite (process_instruction_labelled line l M [t1; t2; t3] st p
               Hv Hli Hlb HM HBR Hops Hp).
    apply (encode_three_registers M t1 t2 t3 base d s1 s2 p k
             (set_labels (dict_set l p (labels st)) st)); auto.
  - rewrite Hbit. intros [-> | ->]; vm_compute in Hbase; inversion Hbase; reflexivity.
Qed.

Lemma C3_three_register_encoding_witness :
  process_instruction "ADD R1, R2, R3" ["ADD"; "R1,"; "R2,"; "R3"] (set_pc 1 small_state)
    = Ok (set_pc 2 (set_memory [0x2000; 0x1283; 0] (set_pc 1 small_state)))
  /\ process_instruction "LOOP ADD R1, R2, R3" ["LOOP"; "ADD"; "R1,"; "R2,"; "R3"]
       (set_pc 1 small_state)
     = Ok (set_pc 2 (set_memory [0x2000; 0x1283; 0]
                       (set_labels [("L", 2); ("LOOP", 1)] (set_pc 1 small_state))))
  /\ Z.testbit 0x1283 5 = false.
Proof.
  destruct (C3_three_register_encoding "ADD R1, R2, R3" "ADD" "LOOP"
              "R1," "R2," "R3" 0x1000 1 2 3 1 1%nat (set_pc 1 small_state) eq_refl
              ltac:(discriminate) ltac:(discriminate) ltac:(lia) ltac:(lia)
              ltac:(lia) eq_refl eq_refl eq_refl eq_refl eq_refl)
    as (H & Hlabelled & _ & Hbit & _).
  split; [exact H | split; [|exact (Hbit (or_introl eq_refl))]].
  exact (Hlabelled eq_refl eq_refl eq_refl).
Defined.

(** A first token that is itself a branch token is the mnemonic of its
    line: [BRN ADD R1, R2, R3] is a [BRn] line, whose word is 0x0A83. *)
Lemma branch_token_in_front :
  word_at (encode_lines [".ORIG x3000"; "BRN ADD R1, R2, R3"] (initial_state false))
    0x3000 = Ok 0x0A83
  /\ branch_token "BRN" = true.
Proof. split; vm_compute; reflexivity. Qed.

(** ** Branch tokens *)










(** *** The operand of a branch *)

Lemma add_fixup_frame (word : string) (rec : fixup) (st : state) :
  pc (add_fixup word rec st) = pc st
  /\ memory (add_fixup word rec st) = memory st
  /\ labels (add_fixup word rec st) = labels st
  /\ orig (add_fixup word rec st) = orig st.
Proof. unfold add_fixup. destruct (dict_get word (label_location st)); auto. Qed.



Lemma land_bound (n x : Z) : 0 <= n -> 0 <= Z.land x (Z.ones n) < 2 ^ n.
Proof. intros Hn. rewrite Z.land_ones by lia. apply Z.mod_pos_bound. lia. Qed.


(** Every immediate the parser returns has been masked. *)
Lemma get_immediate_masked (word : string) (mask v : Z) :
  get_immediate word mask = Ok (Some v) -> exists x, v = Z.land x mask.
Proof.
  unfold get_immediate.
  destruct (_ && _ && _).
  - destruct (py_int0 _) as [x|]; [|discriminate]. intros [= <-]. eauto.
  - destruct (startswith word "#").
    + destruct (py_int _) as [x|]; [|discriminate]. intros [= <-]. eauto.
    + destruct (py_int word) as [x|]; [|discriminate]. intros [= <-]. eauto.
Qed.











(** *** A branch behind a label that starts with [BR] *)

(** The search for the branch token stops at a first token that starts
    with [BR], branch token or not. *)
Lemma normalize_branch_hidden (l : string) (rest : list string) :
  startswith l "BR" = true ->
  branch_token l = false ->
  normalize_branch (l :: rest) = (l :: rest, None).
Proof.
  intros Hl Hb. unfold normalize_branch, branch_index, branch_token in *.
  rewrite Hl in *. cbn [nth_error]. cbn [andb] in Hb. now rewrite Hb.
Qed.

Lemma only_BR_starts_with_BR (t : string) :
  startswith t "BR" = true -> t <> "BR" -> str_in t instructions = false.
Proof.
  intros Ht Hne. destruct (str_in t instructions) eqn:E; [|reflexivity].
  apply mnemonic_shape in E as (_ & _ & _ & _ & _ & E).
  rewrite Ht in E. symmetry in E. now apply String.eqb_eq in E.
Qed.

(** C5 (where the code departs from the claim). When the label in front
    of a branch starts with the letters [BR] without being a branch token
    itself ([BRANCH], [BREAK], ...), the search for the branch token
    stops at the label and the branch token behind it is never
    normalized: the bare [BR] is then looked up as it stands and its
    condition bits are read from a variable that was never assigned
    (UnboundLocalError), and [BR] with a suffix is not found among the
    mnemonics (prompt [Not instruction], no word written).  So
    [BRANCH BR x1] and [BRANCH BRnzp x1] neither encode alike nor encode
    at all, while [BR x1], [BRnzp x1] and [LOOP BR x1] all give 0x0E01. *)
Theorem C5_label_in_BR_hides_the_branch
    (line l s op : string) (st : state) (p : Z) :
  valid_label l = Ok true ->
  startswith l "BR" = true ->
  branch_token l = false ->
  has_directive [op] = false ->
  pc st = Some p ->
  process_instruction line [l; "BR"; op] st = Raise UnboundLocalError
  /\ (s <> EmptyString ->
      process_instruction line [l; String.append "BR" s; op] st
        = Ok (print (PromptNotInstruction line)
                (set_labels (dict_set l p (labels st)) st)))
  /\ encode_lines [".ORIG x3000"; "BRANCH BR x1"] (initial_state false)
       = Raise UnboundLocalError
  /\ word_at (encode_lines [".ORIG x3000"; "BRANCH BRnzp x1"] (initial_state false))
       0x3000 = Ok 0
  /\ pc_of (encode_lines [".ORIG x3000"; "BRANCH BRnzp x1"] (initial_state false))
       = Ok (Some 0x3000)
  /\ word_at (encode_lines [".ORIG x3000"; "BR x1"] (initial_state false)) 0x3000
       = Ok 0x0E01
  /\ word_at (encode_lines [".ORIG x3000"; "BRnzp x1"] (initial_state false)) 0x3000
       = Ok 0x0E01
  /\ word_at (encode_lines [".ORIG x3000"; "LOOP BR x1"] (initial_state false)) 0x3000
       = Ok 0x0E01.
Proof.
  intros Hv Hl Hb Hop Hp.
  destruct (label_shape l Hv) as [Hc Hd].
  apply has_directive_false in Hd as (Hf & Ho & Hs & Hk).
  apply has_directive_false in Hop as (Of & Oo & Os & Ok').
  cbn [str_in] in Hf, Ho, Hs, Hk, Of, Oo, Os, Ok'.
  rewrite orb_false_r in Hf, Ho, Hs, Hk, Of, Oo, Os, Ok'.
  assert (Hli : str_in l instructions = false).
  { apply only_BR_starts_with_BR; [exact Hl | intros ->; discriminate Hb]. }
  assert (Hline : forall t,
             startswith t "BR" = true ->
             process_instruction line [l; t; op] st
             = (let st1 := set_labels (dict_set l p (labels st)) st in
                let found := if str_in t instructions then t else EmptyString in
                if String.eqb found EmptyString
                then Ok (print (PromptNotInstruction line) st1)
                else encode_instruction found None [l; t; op] st1)).
  { intros t Ht.
    assert (Hdot : forall d, String.eqb (String "." d) t = false).
    { intros d. destruct t as [|c t]; [discriminate|].
      cbn [startswith] in Ht. apply andb_true_iff in Ht as [Hc0 _].
      apply Ascii.eqb_eq in Hc0 as ->. reflexivity. }
    unfold process_instruction. rewrite Hc. cbn [str_in].
    rewrite Hf, Ho, Hs, Hk, Of, Oo, Os, Ok', !Hdot. cbn [orb].
    unfold instruction_line. rewrite (normalize_branch_hidden l [t; op] Hl Hb).
    cbn [list_item nth_error bind length]. rewrite Hli, Hv. cbn [bind].
    unfold define_label, get_pc. rewrite Hp. cbn [bind]. reflexivity. }
  split; [|split; [|repeat split; vm_compute; reflexivity]].
  - rewrite (Hline "BR" eq_refl). reflexivity.
  - intros Hs0. rewrite (Hline (String.append "BR" s) eq_refl). cbn zeta.
    rewrite (only_BR_starts_with_BR (String.append "BR" s) eq_refl).
    + reflexivity.
    + destruct s; [contradiction | discriminate].
Qed.

Lemma C5_label_in_BR_hides_the_branch_witness :
  process_instruction "BRANCH BR x1" ["BRANCH"; "BR"; "x1"] (set_pc 1 small_state)
    = Raise UnboundLocalError
  /\ process_instruction "BRANCH BRnzp x1" ["BRANCH"; "BRnzp"; "x1"]
       (set_pc 1 small_state)
     = Ok (print (PromptNotInstruction "BRANCH BRnzp x1")
             (set_labels [("L", 2); ("BRANCH", 1)] (set_pc 1 small_state))).
Proof.
  split.
  - exact (proj1 (C5_label_in_BR_hides_the_branch "BRANCH BR x1" "BRANCH" "nzp"
                    "x1" (set_pc 1 small_state) 1
                    eq_refl eq_refl eq_refl eq_refl eq_refl)).
  - destruct (C5_label_in_BR_hides_the_branch "BRANCH BRnzp x1" "BRANCH" "nzp"
                "x1" (set_pc 1 small_state) 1
                eq_refl eq_refl eq_refl eq_refl eq_refl) as (_ & H & _).
    apply H. discriminate.
Defined.

(** ** The tokenizer *)

Lemma split_char_nonempty (sep : ascii) (s : string) : split_char sep s <> [].
Proof.
  destruct s as [|c r]; cbn [split_char]; [discriminate|].
  destruct (Ascii.eqb c sep); [discriminate|].
  destruct (split_char sep r); discriminate.
Qed.

(** The first piece of [split(';')] is the text before the first [;]. *)
Lemma split_char_head_cut (sep : ascii) (pre t : string) :
  char_in sep pre = false ->
  hd EmptyString (split_char sep (String.append pre (String sep t))) = pre.
Proof.
  induction pre as [|c pre IH]; cbn [char_in String.append split_char].
  - intros _. now rewrite Ascii.eqb_refl.
  - intros [Hc Hpre]%orb_false_elim. rewrite Ascii.eqb_sym, Hc.
    specialize (IH Hpre).
    destruct (split_char sep (String.append pre (String sep t))) as [|q qs] eqn:E.
    + now apply split_char_nonempty in E.
    + cbn in *. now subst.
Qed.

Lemma split_char_head_whole (sep : ascii) (pre : string) :
  char_in sep pre = false ->
  hd EmptyString (split_char sep pre) = pre.
Proof.
  induction pre as [|c pre IH]; cbn [char_in split_char]; [reflexivity|].
  intros [Hc Hpre]%orb_false_elim. rewrite Ascii.eqb_sym, Hc.
  specialize (IH Hpre).
  destruct (split_char sep pre) as [|q qs] eqn:E.
  - now apply split_char_nonempty in E.
  - cbn in *. now subst.
Qed.

(** C4 (as the code has it). The text from the first [;] of a line on is
    discarded whether or not the line holds a quoted string: the line, its
    tokens and the whole encoding step are those of the text before the
    [;].  What a quote in that text switches off is the spacing of commas. *)
Theorem C4_comment_cut_is_unconditional (pre t : string) :
  char_in ";" pre = false ->
  preprocess (String.append pre (String ";" t)) = preprocess pre
  /\ preprocess pre
       = (if char_in "034" pre then pre else replace_comma pre,
          split_ws (if char_in "034" pre then pre else replace_comma pre))
  /\ (forall rest st,
        encode_lines (String.append pre (String ";" t) :: rest) st
          = encode_lines (pre :: rest) st).
Proof.
  intros Hpre.
  assert (E : preprocess (String.append pre (String ";" t)) = preprocess pre).
  { unfold preprocess.
    now rewrite (split_char_head_cut ";" pre t Hpre), (split_char_head_whole ";" pre Hpre). }
  split; [exact E | split].
  - unfold preprocess. rewrite (split_char_head_whole ";" pre Hpre).
    destruct (char_in "034" pre); reflexivity.
  - intros rest st. cbn [encode_lines]. now rewrite E.
Qed.

Lemma C4_comment_cut_is_unconditional_witness :
  preprocess stringz_semicolon_line
    = preprocess (String.append "S .STRINGZ " (String.append dquote "a")).
Proof.
  destruct (C4_comment_cut_is_unconditional
              (String.append "S .STRINGZ " (String.append dquote "a"))
              (String.append "b" dquote) eq_refl) as [H _].
  exact H.
Defined.

(** C4 (counterexample to the claim as stated). In [S .STRINGZ "a;b"] the
    literal is cut at the [;]: the line emits the code of [a] and the
    terminating zero, two words instead of the four a preserved [;] would
    give, and no word holds the code 59 of [;]. *)
Lemma C4_counterexample_semicolon_in_literal :
  word_at (encode_lines [".ORIG x3000"; stringz_semicolon_line] (initial_state false))
    0x3000 = Ok 97
  /\ word_at (encode_lines [".ORIG x3000"; stringz_semicolon_line] (initial_state false))
       0x3001 = Ok 0
  /\ pc_of (encode_lines [".ORIG x3000"; stringz_semicolon_line] (initial_state false))
       = Ok (Some 0x3002)
  /\ ord ";" = 59.
Proof. split; [|split; [|split]]; vm_compute; reflexivity. Qed.

(** ** Undefined labels *)

Lemma resolve_label_undefined (label : string) (value : list fixup) (st : state) :
  dict_get label (labels st) = None ->
  resolve_label label value st = Ok (print (BadLabelFailure label value) st).
Proof. intros H. unfold resolve_label, dict_mem. now rewrite H. Qed.

Lemma resolve_items_all_undefined (items : dict (list fixup)) (st : state) :
  Forall (fun item => dict_get (fst item) (labels st) = None) items ->
  resolve_items items st = Ok (fold_left report_undefined items st).
Proof.
  revert st. induction items as [|[label value] items IH]; intros st Hall.
  - reflexivity.
  - apply Forall_cons in Hall as [Hl Hrest]. cbn [resolve_items fold_left].
    rewrite (resolve_label_undefined label value st Hl), bind_Ok.
    apply IH. exact Hrest.
Qed.

(** *** The run with and without the records of an undefined label *)

Lemma same_outcome_bind (r1 r2 : result state) (k1 k2 : state -> result state) :
  same_outcome r1 r2 ->
  (forall s1 s2, same_run s1 s2 -> same_outcome (k1 s1) (k2 s2)) ->
  same_outcome (bind r1 k1) (bind r2 k2).
Proof.
  destruct r1 as [s1|e1], r2 as [s2|e2]; cbn; intros H Hk; auto; contradiction.
Qed.

Lemma resolve_record_same (label : string) (fx : fixup) (s1 s2 : state) :
  same_run s1 s2 ->
  same_outcome (resolve_record label fx s1) (resolve_record label fx s2).
Proof.
  intros (Hv & Hm & Ho & Hp & Hl). unfold resolve_record. rewrite Hl, Hm.
  destruct (dict_item label (labels s2)) as [target|]; [|reflexivity]. cbn [bind].
  destruct (mem_get (memory s2) (fx_ref fx)) as [w|]; [|reflexivity]. cbn [bind].
  destruct (w =? 0).
  - destruct (mem_set _ _ _); cbn; [|reflexivity]. repeat split; cbn; first [assumption | reflexivity].
  - destruct (in_range _ _) as [ok|]; [|reflexivity]. cbn [bind].
    destruct (negb ok); [reflexivity|].
    destruct (mem_set _ _ _); cbn; [|reflexivity]. repeat split; cbn; first [assumption | reflexivity].
Qed.

Lemma resolve_records_same (label : string) (recs : list fixup) (s1 s2 : state) :
  same_run s1 s2 ->
  same_outcome (resolve_records label recs s1) (resolve_records label recs s2).
Proof.
  revert s1 s2. induction recs as [|fx recs IH]; intros s1 s2 H; [exact H|].
  cbn [resolve_records].
  apply same_outcome_bind; [now apply resolve_record_same | exact IH].
Qed.

Lemma print_same (e1 : event) (s1 s2 : state) :
  same_run s1 s2 -> same_run (print e1 s1) s2.
Proof. intros H. exact H. Qed.

Lemma resolve_items_same (items : dict (list fixup)) (s1 s2 : state) :
  same_run s1 s2 ->
  same_outcome (resolve_items items s1) (resolve_items items s2).
Proof.
  revert s1 s2. induction items as [|[label value] items IH]; intros s1 s2 H;
    [exact H|].
  cbn [resolve_items]. apply same_outcome_bind; [|exact IH].
  unfold resolve_label, dict_mem.
  destruct H as (Hv & Hm & Ho & Hp & Hl). rewrite Hl.
  destruct (dict_get label (labels s2)); cbn [negb].
  - apply resolve_records_same. repeat split; cbn; first [assumption | reflexivity].
  - cbn. repeat split; cbn; first [assumption | reflexivity].
Qed.

Lemma emit_same (s1 s2 : state) :
  same_run s1 s2 ->
  fst (emit s1) = fst (emit s2) /\ same_outcome (snd (emit s1)) (snd (emit s2)).
Proof.
  intros (Hv & Hm & Ho & Hp & Hl).
  unfold emit, emit_obj, get_orig, get_pc. rewrite Hl, Ho, Hp, Hm.
  destruct (orig s2) as [o|] eqn:Eo; cbn [bind]; [|split; reflexivity].
  destruct (pc s2) as [p|] eqn:Ep; cbn [bind]; [|split; reflexivity].
  destruct (mem_gets (memory s2) (py_range o p)) as [ws|]; [|split; reflexivity].
  destruct (mem_set (memory s2) p o) as [m|]; cbn [bind fst snd];
    [|split; reflexivity].
  split; [reflexivity|]. cbn. repeat split; cbn; congruence.
Qed.

Lemma finish_same (r1 r2 : result state) :
  same_outcome r1 r2 ->
  fst (finish r1) = fst (finish r2)
  /\ same_outcome (snd (finish r1)) (snd (finish r2)).
Proof.
  destruct r1 as [s1|e1], r2 as [s2|e2]; cbn [finish same_outcome];
    try contradiction.
  - apply emit_same.
  - intros ->. split; reflexivity.
Qed.

(** C8 (as the code has it). A label that fix-ups refer to and that is
    absent from the final symbol table raises nothing and aborts nothing:
    when the resolver comes to its entry of the fix-up table it prints the
    [Bad label failure] diagnostic with the label and its records,
    changes nothing else, and goes on with the labels after it.  Apart
    from the diagnostic the run ends as the run without these records
    would: with the same exception if there is one, otherwise with the
    same memory, symbol table, origin and counter and the same files from
    the output stage. *)
Theorem C8_undefined_label_is_reported_not_raised
    (st : state) (before after : dict (list fixup)) (label : string)
    (value : list fixup) :
  label_location st = before ++ (label, value) :: after ->
  dict_get label (labels st) = None ->
  let without := set_label_location (before ++ after) st in
  resolve st
    = (st1 <- resolve_items before st ;;
       resolve_items after (print (BadLabelFailure label value) st1))
  /\ same_outcome (resolve st) (resolve without)
  /\ fst (finish (resolve st)) = fst (finish (resolve without))
  /\ same_outcome (snd (finish (resolve st))) (snd (finish (resolve without)))
  /\ (forall v lines,
        encode_lines lines (initial_state v) = Ok st ->
        assemble v lines = finish (resolve st)).
Proof.
  intros Hloc Hl without.
  assert (Hstep : resolve st
                  = (st1 <- resolve_items before st ;;
                     resolve_items after (print (BadLabelFailure label value) st1))).
  { unfold resolve. rewrite Hloc, resolve_items_app.
    destruct (resolve_items before st) as [st1|] eqn:E; [|reflexivity].
    cbn [bind resolve_items].
    rewrite (resolve_label_undefined label value st1); [reflexivity|].
    now rewrite (resolve_items_labels _ _ _ E). }
  assert (Hsame : same_outcome (resolve st) (resolve without)).
  { rewrite Hstep. unfold resolve, without. cbn [label_location set_label_location].
    rewrite resolve_items_app.
    apply same_outcome_bind.
    - apply resolve_items_same. repeat split.
    - intros s1 s2 H. apply resolve_items_same. exact H. }
  split; [exact Hstep | split; [exact Hsame|]].
  destruct (finish_same _ _ Hsame) as [Hfiles Hend].
  split; [exact Hfiles | split; [exact Hend|]].
  intros v lines He. unfold assemble. rewrite He. reflexivity.
Qed.

Lemma C8_undefined_label_is_reported_not_raised_witness :
  resolve dangling_state
    = Ok (print (BadLabelFailure "NOWHERE" [Fixup 1 511 9])
            (set_memory [0x2001; 0; 0] dangling_state))
  /\ fst (finish (resolve dangling_state))
     = fst (finish (resolve (set_label_location [("L", [Fixup 0 511 9])]
                              dangling_state))).
Proof.
  destruct (C8_undefined_label_is_reported_not_raised dangling_state
              [("L", [Fixup 0 511 9])] [] "NOWHERE" [Fixup 1 511 9]
              eq_refl eq_refl) as (H1 & _ & H2 & _).
  split; [rewrite H1; reflexivity | exact H2].
Defined.

(** C8 (counterexample to the claim as stated). The reference to the
    undefined label [NOWHERE] does not abort the run: it ends without an
    exception, with the diagnostic on the standard output, the word of the
    reference unpatched (0x2200) and the three files written, the object
    file holding the origin and the two words of the program. *)
Lemma C8_counterexample_run_completes :
  is_ok (snd (assemble false undefined_label_program)) = true
  /\ stdout_of (snd (assemble false undefined_label_program))
       = Ok [BadLabelFailure "NOWHERE" [Fixup 0x3000 511 9]]
  /\ word_at (snd (assemble false undefined_label_program)) 0x3000 = Ok 0x2200
  /\ length (fst (assemble false undefined_label_program)) = 3%nat
  /\ nth_error (fst (assemble false undefined_label_program)) 2
       = Some (ObjFile [0x0030; 0x0022; 0x25F0]).
Proof. split; [|split; [|split; [|split]]]; vm_compute; reflexivity. Qed.

(** ** The object file *)

Lemma byteswap_involutive (m : list Z) : words16 m -> byteswap (byteswap m) = m.
Proof.
  unfold byteswap. induction 1 as [|w m Hw _ IH]; [reflexivity|].
  cbn. now rewrite (swap_bytes_involutive w Hw), IH.
Qed.

Lemma words16_insert (m : list Z) (k : nat) (v : Z) :
  words16 m -> 0 <= v < 65536 -> words16 (<[k := v]> m).
Proof.
  unfold words16. revert k. induction m as [|w m IH]; intros k Hm Hv; [exact Hm|].
  apply Forall_cons in Hm as [Hw Hm].
  destruct k as [|k]; cbn; constructor; auto.
Qed.

Lemma mem_slice_byteswap (m : list Z) (a b : Z) :
  mem_slice (byteswap m) a b = swap_bytes <$> mem_slice m a b.
Proof.
  unfold mem_slice, byteswap. rewrite length_fmap.
  now rewrite fmap_take, fmap_drop.
Qed.

Lemma mem_gets_in_range (m : list Z) (ms : list Z) :
  Forall (fun i => 0 <= i < Z.of_nat (length m)) ms ->
  exists ws, mem_gets m ms = Ok ws.
Proof.
  induction 1 as [|i ms Hi _ [ws IH]]; [eexists; reflexivity|].
  cbn [mem_gets]. unfold mem_get, py_index.
  assert (E1 : (i <? 0) = false) by (apply Z.ltb_ge; lia).
  assert (E2 : ((0 <=? i) && (i <? Z.of_nat (length m))) = true).
  { apply andb_true_iff. rewrite Z.leb_le, Z.ltb_lt. lia. }
  rewrite E1, E2. cbn [bind].
  destruct (m !! Z.to_nat i) as [w|] eqn:E.
  - rewrite IH. eexists. reflexivity.
  - apply lookup_ge_None in E. lia.
Qed.

Lemma py_range_bounds (a b : Z) :
  Forall (fun i => a <= i < b) (py_range a b).
Proof.
  unfold py_range. apply Forall_forall. intros i Hi.
  apply list_elem_of_In, in_map_iff in Hi as (n & <- & Hn%in_seq). lia.
Qed.

Lemma emit_obj_result (st : state) (o p : Z) (k : nat) :
  orig st = Some o -> pc st = Some p ->
  py_index (Z.of_nat (length (memory st))) p = Ok k ->
  0 <= o < 65536 ->
  words16 (memory st) ->
  emit_obj st
    = Ok (swap_bytes <$> (mem_slice (<[k := o]> (memory st)) p (p + 1)
                          ++ mem_slice (<[k := o]> (memory st)) o p),
          set_memory (<[k := o]> (memory st)) st).
Proof.
  intros Ho Hp Hk Ho16 Hm. unfold emit_obj, get_orig, get_pc.
  rewrite Ho, Hp, !bind_Ok, (mem_set_index _ _ _ k Hk Ho16), bind_Ok.
  rewrite (byteswap_involutive _ (words16_insert _ k o Hm Ho16)).
  now rewrite !mem_slice_byteswap, fmap_app.
Qed.

(** C9 (as the code has it). Writing the object file parks the origin in
    the word at the location counter: after it that word holds the origin,
    every other word of the memory is as before, and the symbol table and
    the fixup list are untouched.  The items written are the origin and
    the words of the window, each with its two bytes exchanged; the
    exchange done on the array is undone afterwards.  The whole output
    stage ends in that state. *)
Theorem C9_emission_overwrites_the_counter_word
    (st : state) (o p : Z) (k : nat) :
  orig st = Some o -> pc st = Some p ->
  py_index (Z.of_nat (length (memory st))) p = Ok k ->
  0 <= o < 65536 ->
  words16 (memory st) ->
  let m := <[k := o]> (memory st) in
  emit_obj st
    = Ok (swap_bytes <$> (mem_slice m p (p + 1) ++ mem_slice m o p),
          set_memory m st)
  /\ snd (emit st) = Ok (set_memory m st)
  /\ mem_get m p = Ok o
  /\ (forall j, j <> k -> m !! j = memory st !! j)
  /\ labels (set_memory m st) = labels st
  /\ label_location (set_memory m st) = label_location st.
Proof.
  intros Ho Hp Hk Ho16 Hm m.
  pose proof (emit_obj_result st o p k Ho Hp Hk Ho16 Hm) as He. fold m in He.
  split; [exact He|]. split; [|split; [|split; [|split]]].
  - unfold emit, get_orig, get_pc. rewrite Ho, Hp, bind_Ok.
    destruct (mem_gets_in_range (memory st) (py_range o p)) as [ws ->].
    + eapply Forall_impl; [apply py_range_bounds|].
      intros i Hi. cbn in Hi |- *. apply py_index_upper in Hk. lia.
    + now rewrite He.
  - now apply mem_get_insert.
  - intros j Hj. now apply list_lookup_insert_ne.
  - reflexivity.
  - reflexivity.
Qed.

Lemma C9_emission_overwrites_the_counter_word_witness :
  emit_obj loaded_state
    = Ok ([0x0100; 0x8312; 0x25F0],
          set_memory [0; 0x1283; 0xF025; 1] loaded_state)
  /\ snd (emit loaded_state) = Ok (set_memory [0; 0x1283; 0xF025; 1] loaded_state).
Proof.
  destruct (C9_emission_overwrites_the_counter_word loaded_state 1 3 3%nat
              eq_refl eq_refl eq_refl) as (H1 & H2 & _).
  - lia.
  - unfold words16, loaded_state. cbn [memory].
    repeat (constructor; [lia|]). constructor.
  - split; [exact H1 | exact H2].
Defined.

(** C9 (counterexample to the claim as stated). For the example program
    the word at the final location counter 0x3002 is 0 when resolution
    ends and 0x3000, the origin, when the output stage ends: the memory is
    not the one it was before the object file was written. *)
Lemma C9_counterexample_counter_word_changed :
  word_at (st <- encode_lines example_program (initial_state false) ;; resolve st)
    0x3002 = Ok 0
  /\ word_at (snd (assemble false example_program)) 0x3002 = Ok 0x3000
  /\ pc_of (snd (assemble false example_program)) = Ok (Some 0x3002).
Proof. split; [|split]; vm_compute; reflexivity. Qed.

(** ** The encoder never reads the symbol table

    Two runs of the encoder from states that differ only in their symbol
    tables stay in step: they raise the same exception or end in states
    that again differ only in their symbol tables, to which the same
    definitions have been added. *)

Section LabelsNeverRead.

Variable Rl : dict Z -> dict Z -> Prop.
Variable settable : string -> Prop.
Hypothesis Rl_set :
  forall w p L1 L2, settable w -> Rl L1 L2 -> Rl (dict_set w p L1) (dict_set w p L2).

























End LabelsNeverRead.

(** ** Resolution reads the symbol table only through lookups *)

Lemma dict_get_set {V : Type} (k w : string) (v : V) (d : dict V) :
  dict_get k (dict_set w v d) = if String.eqb k w then Some v else dict_get k d.
Proof.
  induction d as [|[k' v'] d IH]; cbn [dict_set dict_get].
  - reflexivity.
  - destruct (String.eqb_spec w k') as [<-|Hne]; cbn [dict_get].
    + destruct (String.eqb k w); reflexivity.
    + rewrite IH. destruct (String.eqb_spec k k') as [->|_]; [|reflexivity].
      destruct (String.eqb_spec k' w) as [->|_]; [contradiction | reflexivity].
Qed.







(** ** Label operands *)

Lemma add_fixup_appends (word : string) (rec : fixup) (st : state) :
  fixups_of word (add_fixup word rec st) = fixups_of word st ++ [rec]
  /\ (forall other, other <> word ->
        fixups_of other (add_fixup word rec st) = fixups_of other st).
Proof.
  unfold fixups_of, add_fixup. split.
  - destruct (dict_get word (label_location st)) as [recs|] eqn:E;
      cbn [label_location set_label_location];
      now rewrite dict_get_set, String.eqb_refl.
  - intros other Hne. apply String.eqb_neq in Hne.
    destruct (dict_get word (label_location st)) as [recs|] eqn:E;
      cbn [label_location set_label_location];
      now rewrite dict_get_set, Hne.
Qed.





(** ** Every memory item stays a 16-bit word

    The hypotheses of C1 and C9 on the memory hold in every state the
    program reaches: the only writes go through [mem_set]. *)

Lemma keeps_words_bind (r : result state) (k : state -> result state) :
  keeps_words r ->
  (forall st, words16 (memory st) -> keeps_words (k st)) ->
  keeps_words (bind r k).
Proof. destruct r as [st|e]; cbn; auto. Qed.

Lemma mem_set_words (m : list Z) (i v : Z) (st : state) :
  words16 m ->
  keeps_words (m' <- mem_set m i v ;; Ok (set_memory m' st)).
Proof.
  intros Hm. unfold mem_set.
  destruct (py_index _ i) as [n|e]; [|exact I]. cbn [bind].
  destruct (is_word v) eqn:E; [|exact I]. cbn.
  apply words16_insert; [exact Hm | now apply is_word_spec].
Qed.

Lemma put_and_show_words (n : Z) (st : state) :
  words16 (memory st) -> keeps_words (put_and_show n st).
Proof.
  intros Hm. unfold put_and_show.
  destruct (get_pc st) as [p|e]; [|exact I]. cbn [bind].
  now apply mem_set_words.
Qed.

Lemma advance_pc_words (n : Z) (st : state) :
  words16 (memory st) -> keeps_words (advance_pc n st).
Proof. intros Hm. unfold advance_pc. destruct (get_pc st); [exact Hm | exact I]. Qed.

Lemma define_label_words (name : string) (st : state) :
  words16 (memory st) -> keeps_words (define_label name st).
Proof. intros Hm. unfold define_label. destruct (get_pc st); [exact Hm | exact I]. Qed.

Lemma add_fixup_words (word : string) (rec : fixup) (st : state) :
  words16 (memory st) -> words16 (memory (add_fixup word rec st)).
Proof.
  intros Hm. destruct (add_fixup_frame word rec st) as (_ & -> & _). exact Hm.
Qed.

Lemma stringz_chars_words (s : list Z) (b : bool) (st : state) :
  words16 (memory st) -> keeps_words (stringz_chars s b st).
Proof.
  revert b st. induction s as [|c r IH]; intros b st Hm;
    cbn [stringz_chars]; [exact Hm|].
  destruct (negb b && (c =? ord "\")); [now apply IH|].
  apply keeps_words_bind; [now apply put_and_show_words|].
  intros st1 H1. destruct (if verbose st1 then chr_check _ else Ok tt); [|exact I].
  cbn [bind]. apply keeps_words_bind; [now apply advance_pc_words|].
  intros st2 H2. now apply IH.
Qed.

Lemma operand_loop_words (found : string) (tokens : list string) (a : operands) :
  words16 (memory (op_state a)) ->
  match operand_loop found tokens a with
  | Ok a' => words16 (memory (op_state a'))
  | Raise _ => True
  end.
Proof.
  revert a. induction tokens as [|token rest IH]; intros a Hm;
    cbn [operand_loop]; [exact Hm|].
  assert (Ht : match operand_token found token a with
               | Ok a1 => words16 (memory (op_state a1))
               | Raise _ => True
               end).
  { unfold operand_token. destruct (dict_get _ regs).
    - destruct (list_item reg_pos _); [exact Hm | exact I].
    - destruct (dict_item found immediate_mask); [|exact I]. cbn [bind].
      destruct (get_immediate _ _) as [[v|]|]; [exact Hm | | exact I].
      cbn [bind]. destruct (negb _); [|exact Hm].
      destruct (valid_label _) as [[|]|]; try exact I. cbn [bind].
      destruct (get_pc _); [|exact I]. cbn [bind].
      destruct (dict_item found immediate); [|exact I]. cbn.
      now apply add_fixup_words. }
  destruct (operand_token found token a) as [a1|e]; [|exact I]. cbn [bind].
  destruct (String.eqb found "JMPT"); [exact Ht|]. now apply IH.
Qed.

Lemma encode_instruction_words
    (found : string) (fl : option Z) (words : list string) (st : state) :
  words16 (memory st) -> keeps_words (encode_instruction found fl words st).
Proof.
  intros Hm. unfold encode_instruction.
  destruct (dict_get found instruction_info); [|exact Hm].
  destruct (if String.eqb found "BR" then _ else _) as [instruction|]; [|exact I].
  cbn [bind].
  pose proof (operand_loop_words found (drop 1 words)
                (Operands instruction 0
                   (if String.eqb found "JMPT" then 1%nat else 0%nat) st) Hm) as Hl.
  destruct (operand_loop _ _ _) as [a|e]; [|exact I]. cbn [bind].
  apply keeps_words_bind; [now apply put_and_show_words|].
  intros st1 H1. now apply advance_pc_words.
Qed.

Lemma process_instruction_words (line : string) (words : list string) (st : state) :
  words16 (memory st) -> keeps_words (process_instruction line words st).
Proof.
  intros Hm. unfold process_instruction.
  destruct words as [|w0 rest]; [exact Hm|].
  destruct (startswith w0 ";"); [exact Hm|].
  destruct (str_in ".FILL" _).
  { unfold fill_directive. destruct (list_item _ _) as [word|]; [|exact I].
    cbn [bind]. apply keeps_words_bind.
    - destruct (py_int word); [now apply put_and_show_words|].
      destruct (get_immediate word _) as [value|]; [|exact I]. cbn [bind].
      destruct (get_pc st) as [p|]; [|exact I]. cbn [bind].
      destruct value; [now apply mem_set_words | now apply add_fixup_words].
    - intros st1 H1. cbn [list_item nth_error bind]. apply keeps_words_bind.
      + destruct (negb _); [now apply define_label_words | exact H1].
      + intros st2 H2. now apply advance_pc_words. }
  destruct (str_in ".ORIG" _).
  { unfold orig_directive. destruct (list_item _ 1); [|exact I]. cbn [bind].
    destruct (py_int0 _); [exact Hm | exact I]. }
  destruct (str_in ".STRINGZ" _).
  { unfold stringz_directive. cbn [list_item nth_error bind].
    destruct (valid_label w0) as [ok|]; [|exact I]. cbn [bind].
    apply keeps_words_bind.
    - destruct ok; [now apply define_label_words|].
      destruct (get_pc st); [exact Hm | exact I].
    - intros st1 H1. destruct (list_item _ 1); [|exact I]. cbn [bind].
      apply keeps_words_bind; [now apply stringz_chars_words|].
      intros st2 H2. apply keeps_words_bind; [now apply put_and_show_words|].
      intros st3 H3. now apply advance_pc_words. }
  destruct (str_in ".BLKW" _).
  { unfold blkw_directive. cbn [list_item nth_error bind].
    apply keeps_words_bind; [now apply define_label_words|].
    intros st1 H1. destruct (get_immediate _ _) as [[v|]|]; try exact I.
    cbn [bind]. destruct (v <=? 0); [exact I | now apply advance_pc_words]. }
  unfold instruction_line.
  destruct (normalize_branch _) as [words' fl].
  destruct (list_item words' 0) as [w|]; [|exact I]. cbn [bind].
  destruct (str_in w instructions); [now apply encode_instruction_words|].
  destruct (valid_label w) as [ok|]; [|exact I]. cbn [bind].
  apply keeps_words_bind.
  - destruct ok; [now apply define_label_words | exact Hm].
  - intros st1 H1. destruct (_ <? 2)%nat; [exact H1|].
    destruct (list_item words' 1); [|exact I]. cbn [bind].
    destruct (String.eqb _ EmptyString); [|now apply encode_instruction_words].
    destruct (1 <? _)%nat; [exact H1|]. cbn [bind].
    destruct ok; [|exact I]. destruct (get_pc st1); [|exact I].
    cbn. now apply add_fixup_words.
Qed.

Lemma encode_lines_words (lines : list string) (st : state) :
  words16 (memory st) -> keeps_words (encode_lines lines st).
Proof.
  revert st. induction lines as [|raw lines IH]; intros st Hm;
    cbn [encode_lines]; [exact Hm|].
  destruct (preprocess raw) as [line words].
  destruct (str_in ".END" words); [exact Hm|].
  apply keeps_words_bind; [now apply process_instruction_words|].
  intros st1 H1. now apply IH.
Qed.

Lemma resolve_words (st : state) :
  words16 (memory st) -> keeps_words (resolve st).
Proof.
  unfold resolve. generalize (label_location st) as items.
  intros items. revert st. induction items as [|[label value] items IH];
    intros st Hm; cbn [resolve_items]; [exact Hm|].
  apply keeps_words_bind; [|intros st1 H1; now apply IH].
  unfold resolve_label. destruct (negb _); [exact Hm|].
  clear IH. revert st Hm. induction value as [|fx value IHv]; intros st Hm;
    cbn [resolve_records]; [exact Hm|].
  apply keeps_words_bind; [|intros st1 H1; now apply IHv].
  unfold resolve_record. destruct (dict_item _ _); [|exact I]. cbn [bind].
  destruct (mem_get _ _) as [w|]; [|exact I]. cbn [bind].
  destruct (w =? 0); [now apply mem_set_words|].
  destruct (in_range _ _) as [ok|]; [|exact I]. cbn [bind].
  destruct (negb ok); [exact I | now apply mem_set_words].
Qed.

Lemma memory_init_words : words16 memory_init.
Proof.
  unfold words16, memory_init. apply Forall_replicate. lia.
Qed.

(** Whatever the source lines, the state handed to the output stage has a
    memory of 16-bit words. *)
Lemma assembled_memory_words (v : bool) (lines : list string) :
  keeps_words (st <- encode_lines lines (initial_state v) ;; resolve st).
Proof.
  apply keeps_words_bind.
  - apply encode_lines_words. exact memory_init_words.
  - intros st Hm. now apply resolve_words.
Qed.

(** * Further properties of the code *)

(** ** Tokens as labels and as immediates *)

Lemma isalpha_codes (c : ascii) :
  isalpha c = true <-> 65 <= ord c <= 90 \/ 97 <= ord c <= 122.
Proof.
  unfold isalpha, in_codes.
  rewrite orb_true_iff, !andb_true_iff, !Z.leb_le. tauto.
Qed.

Lemma isspace_codes (c : ascii) :
  isspace c = true <-> 9 <= ord c <= 13 \/ 28 <= ord c <= 32.
Proof.
  unfold isspace, in_codes.
  rewrite orb_true_iff, !andb_true_iff, !Z.leb_le. tauto.
Qed.

Lemma ascii_eqb_ord (c d : ascii) : Ascii.eqb c d = true -> ord c = ord d.
Proof. now intros ->%Ascii.eqb_eq. Qed.

Lemma ord_neq_eqb (c d : ascii) : ord c <> ord d -> Ascii.eqb c d = false.
Proof.
  intros H. destruct (Ascii.eqb_spec c d) as [->|_]; [contradiction | reflexivity].
Qed.

Lemma lstrip_keeps (c : ascii) (r : string) :
  isspace c = false -> lstrip (String c r) = String c r.
Proof. intros H. cbn [lstrip]. now rewrite H. Qed.

Lemma rstrip_keeps (c : ascii) (r : string) :
  isspace c = false -> rstrip (String c r) = String c (rstrip r).
Proof. intros H. cbn [rstrip]. rewrite H. now destruct (rstrip r). Qed.

Lemma strip_keeps (c : ascii) (r : string) :
  isspace c = false -> strip (String c r) = String c (rstrip r).
Proof. intros H. unfold strip. now rewrite lstrip_keeps, rstrip_keeps. Qed.

(** A string that starts with a letter is no decimal literal. *)
Lemma py_int_letter (c : ascii) (r : string) :
  isalpha c = true -> py_int (String c r) = None.
Proof.
  intros Hc. pose proof (proj1 (isalpha_codes c) Hc) as Ho.
  assert (Hsp : isspace c = false).
  { apply not_true_is_false. rewrite isspace_codes. lia. }
  unfold py_int, int_parse. rewrite (strip_keeps c r Hsp).
  assert (Hplus : Ascii.eqb c "+" = false)
    by (apply ord_neq_eqb; change (ord "+") with 43; lia).
  assert (Hminus : Ascii.eqb c "-" = false)
    by (apply ord_neq_eqb; change (ord "-") with 45; lia).
  assert (Hus : Ascii.eqb c "_" = false)
    by (apply ord_neq_eqb; change (ord "_") with 95; lia).
  assert (Hd : int_unsigned false (String c (rstrip r)) = None).
  { unfold int_unsigned. cbn [int_digits]. rewrite Hus.
    unfold digit_value, in_codes.
    destruct ((48 <=? ord c) && (ord c <=? 57)) eqn:E1.
    { apply andb_true_iff in E1 as [?%Z.leb_le ?%Z.leb_le]. lia. }
    destruct ((97 <=? ord c) && (ord c <=? 122)) eqn:E2.
    { apply andb_true_iff in E2 as [?%Z.leb_le ?%Z.leb_le].
      assert (E : (ord c - 97 + 10 <? 10) = false) by (apply Z.ltb_ge; lia).
      now rewrite E. }
    destruct ((65 <=? ord c) && (ord c <=? 90)) eqn:E3.
    { apply andb_true_iff in E3 as [?%Z.leb_le ?%Z.leb_le].
      assert (E : (ord c - 65 + 10 <? 10) = false) by (apply Z.ltb_ge; lia).
      now rewrite E. }
    reflexivity. }
  destruct c as [b0 b1 b2 b3 b4 b5 b6 b7].
  destruct b0, b1, b2, b3, b4, b5, b6, b7; try exact Hd; discriminate.
Qed.

(** X1. [valid_label] raises only IndexError, and exactly on the empty
    string and on the one-letter string [x] (where [word[1]] is read). *)
Theorem X1_valid_label_index_error (word : string) :
  (valid_label word = Raise IndexError <-> word = "" \/ word = "x")
  /\ (forall e, valid_label word = Raise e -> e = IndexError).
Proof.
  unfold valid_label. destruct word as [|c [|c' r]]; cbn [str_item String.get bind].
  - split; [split; auto | now intros e [= <-]].
  - destruct (Ascii.eqb_spec c "x") as [->|Hne]; cbn [bind].
    + split; [split; auto | now intros e [= <-]].
    + split; [|discriminate]. split; [discriminate|].
      intros [H|H]; [discriminate | now injection H].
  - destruct (Ascii.eqb c "x"); cbn [bind].
    + destruct (isdigit c'); (split; [split; [discriminate | intros [H|H]; discriminate]
                                     | discriminate]).
    + split; [split; [discriminate | intros [H|H]; discriminate] | discriminate].
Qed.

(** X2. A token of label shape that does not start with [x] is never taken
    for an immediate, whatever the mask: [get_immediate] returns [None], so
    the operand loop goes on to treat it as a label. *)
Theorem X2_label_is_no_immediate (word : string) (mask : Z) :
  valid_label word = Ok true ->
  startswith word "x" = false ->
  get_immediate word mask = Ok None.
Proof.
  destruct word as [|c r]; [discriminate|].
  unfold valid_label. cbn [str_item String.get bind startswith].
  rewrite andb_true_r. intros Hv Hx. rewrite Hx in Hv. cbn [bind] in Hv.
  injection Hv as Hv. apply andb_true_iff in Hv as [Hc _].
  unfold get_immediate. cbn [startswith]. rewrite andb_true_r, Hx. cbn [andb].
  assert (Hhash : Ascii.eqb c "#" = false).
  { apply ord_neq_eqb. change (ord "#") with 35.
    apply isalpha_codes in Hc. lia. }
  rewrite Hhash. now rewrite (py_int_letter c r Hc).
Qed.

Lemma X2_label_is_no_immediate_witness :
  get_immediate "LOOP" 511 = Ok None.
Proof. exact (X2_label_is_no_immediate "LOOP" 511 eq_refl eq_refl). Defined.

(** X3. A token that starts with [x-] never yields a value: when the rest
    is made of hexadecimal characters the literal [0x-...] is refused by
    [int] and the ValueError escapes, and otherwise the token is no
    immediate at all. *)
Theorem X3_signed_hex_is_never_a_value (rest : string) (mask : Z) :
  get_immediate (String "x" (String "-" rest)) mask
    = if str_all (fun n => char_in n "-0123456789abcdefgABCDEF") rest
         && negb (char_in "-" rest)
      then Raise ValueError
      else Ok None.
Proof.
  unfold get_immediate.
  change (startswith (String "x" (String "-" rest)) "x") with true.
  change (startswith (String "x" (String "-" rest)) "#") with false.
  change (str_drop 1 (String "x" (String "-" rest))) with (String "-" rest).
  change (str_drop 2 (String "x" (String "-" rest))) with rest.
  cbn [str_all andb].
  change (char_in "-" "-0123456789abcdefgABCDEF") with true. cbn [andb].
  assert (H0 : py_int0 (String "0" (String "x" (String "-" rest))) = None).
  { unfold py_int0, int_parse.
    rewrite (strip_keeps "0"), (rstrip_keeps "x"), (rstrip_keeps "-") by reflexivity.
    reflexivity. }
  assert (H1 : py_int (String "x" (String "-" rest)) = None).
  { apply py_int_letter. reflexivity. }
  rewrite H0, H1. destruct (_ && _); reflexivity.
Qed.

(** X4. An immediate is reduced modulo the field, never rejected: with the
    mask [(1 << n) - 1] of an [n]-bit field every value returned lies in
    [0, 2^n), and a [#]-prefixed decimal literal of value [x] gives
    [x mod 2^n]. *)
Theorem X4_immediate_reduced_modulo_field (word digits : string) (n v x : Z) :
  0 <= n ->
  (get_immediate word (Z.shiftl 1 n - 1) = Ok (Some v) -> 0 <= v < 2 ^ n)
  /\ (py_int digits = Some x ->
      get_immediate (String "#" digits) (Z.shiftl 1 n - 1) = Ok (Some (x mod 2 ^ n))).
Proof.
  intros Hn.
  assert (Hones : Z.shiftl 1 n - 1 = Z.ones n) by (unfold Z.ones; lia).
  rewrite Hones. split.
  - intros H. apply get_immediate_masked in H as [y ->]. now apply land_bound.
  - intros Hx. unfold get_immediate.
    change (startswith (String "#" digits) "x") with false.
    change (startswith (String "#" digits) "#") with true.
    change (str_drop 1 (String "#" digits)) with digits.
    cbn [andb]. rewrite Hx. now rewrite Z.land_ones.
Qed.

Lemma X4_immediate_reduced_modulo_field_witness :
  get_immediate "#-16" 31 = Ok (Some 16)
  /\ get_immediate "#100" 31 = Ok (Some 4).
Proof.
  split.
  - destruct (X4_immediate_reduced_modulo_field "" "-16" 5 0 (-16)) as [_ H]; [lia|].
    exact (H eq_refl).
  - destruct (X4_immediate_reduced_modulo_field "" "100" 5 0 100) as [_ H]; [lia|].
    exact (H eq_refl).
Defined.

(** ** What every step of the encoder preserves

    A relation between the state before and after that is reflexive and
    transitive and that the primitive updates respect is respected by every
    line. *)

Section EncoderSteps.

Variable R : state -> state -> Prop.
Hypothesis R_refl : forall st, R st st.
Hypothesis R_trans : forall s1 s2 s3, R s1 s2 -> R s2 s3 -> R s1 s3.
Hypothesis R_store : forall st k v, R st (set_memory (<[k := v]> (memory st)) st).
Hypothesis R_advance :
  forall st p n, pc st = Some p -> 0 <= n -> R st (set_pc (p + n) st).
Hypothesis R_define :
  forall st name p, R st (set_labels (dict_set name p (labels st)) st).
Hypothesis R_fixup :
  forall st word p mask width,
    field_shape mask width -> R st (add_fixup word (Fixup p mask width) st).
Hypothesis R_print : forall st e, R st (print e st).

Lemma reaches_bind (st : state) (r : result state) (k : state -> result state) :
  reaches R st r -> (forall s1, reaches R s1 (k s1)) -> reaches R st (bind r k).
Proof.
  destruct r as [s1|e]; cbn; [|auto]. intros H1 Hk. specialize (Hk s1).
  destruct (k s1) as [s2|e]; cbn in *; eauto.
Qed.

Lemma mem_set_reaches (st : state) (i v : Z) :
  reaches R st (m <- mem_set (memory st) i v ;; Ok (set_memory m st)).
Proof.
  unfold mem_set. destruct (py_index _ i) as [n|e]; [|exact I]. cbn [bind].
  destruct (is_word v); [|exact I]. apply R_store.
Qed.

Lemma put_and_show_reaches (n : Z) (st : state) : reaches R st (put_and_show n st).
Proof.
  unfold put_and_show. destruct (get_pc st); [|exact I]. apply mem_set_reaches.
Qed.

Lemma advance_pc_reaches (n : Z) (st : state) :
  0 <= n -> reaches R st (advance_pc n st).
Proof.
  intros Hn. unfold advance_pc, get_pc. destruct (pc st) as [p|] eqn:E; [|exact I].
  now apply R_advance.
Qed.

Lemma define_label_reaches (name : string) (st : state) :
  reaches R st (define_label name st).
Proof.
  unfold define_label. destruct (get_pc st); [|exact I]. apply R_define.
Qed.

Lemma immediate_tables_shape (found : string) (mask width : Z) :
  dict_item found immediate_mask = Ok mask ->
  dict_item found immediate = Ok width ->
  field_shape mask width.
Proof.
  unfold dict_item, immediate_mask, immediate. cbn [map fst snd dict_get].
  repeat match goal with
         | |- context [String.eqb found ?s] =>
             destruct (String.eqb found s);
             [intros [= <-] [= <-]; split; [reflexivity | lia] |]
         end.
  discriminate.
Qed.

Lemma stringz_chars_reaches (s : list Z) (b : bool) (st : state) :
  reaches R st (stringz_chars s b st).
Proof.
  revert b st. induction s as [|c r IH]; intros b st;
    cbn [stringz_chars]; [apply R_refl|].
  destruct (negb b && (c =? ord "\")); [apply IH|].
  apply reaches_bind; [apply put_and_show_reaches|].
  intros s1. destruct (if verbose s1 then chr_check _ else Ok tt); [|exact I].
  cbn [bind]. apply reaches_bind; [apply advance_pc_reaches; lia|].
  intros s2. apply IH.
Qed.

Lemma operand_loop_reaches (found : string) (tokens : list string) (a : operands) :
  reaches_operands R (op_state a) (operand_loop found tokens a).
Proof.
  revert a. induction tokens as [|token rest IH]; intros a;
    cbn [operand_loop]; [apply R_refl|].
  assert (Ht : reaches_operands R (op_state a) (operand_token found token a)).
  { unfold operand_token. destruct (dict_get _ regs).
    - destruct (list_item reg_pos _); [apply R_refl | exact I].
    - destruct (dict_item found immediate_mask) as [mask|] eqn:Em; [|exact I].
      cbn [bind].
      destruct (get_immediate _ _) as [[v|]|]; [apply R_refl | | exact I].
      cbn [bind]. destruct (negb _); [|apply R_refl].
      destruct (valid_label _) as [[|]|]; try exact I. cbn [bind].
      destruct (get_pc _); [|exact I]. cbn [bind].
      destruct (dict_item found immediate) as [width|] eqn:Ew; [|exact I]. cbn.
      apply R_fixup. now apply (immediate_tables_shape found). }
  destruct (operand_token found token a) as [a1|e]; [|exact I]. cbn [bind].
  cbn in Ht. destruct (String.eqb found "JMPT"); [exact Ht|].
  specialize (IH (Operands (Z.lor (op_instruction a1) (op_r a1)) (op_r a1)
                    (op_rc a1) (op_state a1))).
  cbn [op_state] in IH. destruct (operand_loop _ _ _) as [a2|e]; [|exact I].
  cbn in *. eauto.
Qed.

Lemma encode_instruction_reaches
    (found : string) (fl : option Z) (words : list string) (st : state) :
  reaches R st (encode_instruction found fl words st).
Proof.
  unfold encode_instruction.
  destruct (dict_get found instruction_info); [|apply R_print].
  destruct (if String.eqb found "BR" then _ else _) as [instruction|]; [|exact I].
  cbn [bind].
  pose proof (operand_loop_reaches found (drop 1 words)
                (Operands instruction 0
                   (if String.eqb found "JMPT" then 1%nat else 0%nat) st)) as Hl.
  cbn [op_state] in Hl. destruct (operand_loop _ _ _) as [a|e]; [|exact I].
  cbn [bind]. cbn in Hl.
  assert (H : reaches R (op_state a)
                (st1 <- put_and_show (op_instruction a) (op_state a) ;;
                 advance_pc 1 st1)).
  { apply reaches_bind; [apply put_and_show_reaches|].
    intros s1. apply advance_pc_reaches. lia. }
  destruct (bind _ _) as [s2|e]; [|exact I]. cbn in *. eauto.
Qed.

Lemma shape_16 : field_shape 0xFFFF 16.
Proof. split; [reflexivity | lia]. Qed.

Lemma process_instruction_reaches (line : string) (words : list string) (st : state) :
  str_in ".ORIG" words = false \/ (forall s a, R s (set_orig_pc a s)) ->
  reaches R st (process_instruction line words st).
Proof.
  intros Horig. unfold process_instruction.
  destruct words as [|w0 rest]; [apply R_refl|].
  destruct (startswith w0 ";"); [apply R_refl|].
  destruct (str_in ".FILL" _).
  { unfold fill_directive. destruct (list_item _ _) as [word|]; [|exact I].
    cbn [bind]. apply reaches_bind.
    - destruct (py_int word); [apply put_and_show_reaches|].
      destruct (get_immediate word _) as [value|]; [|exact I]. cbn [bind].
      destruct (get_pc st) as [p|]; [|exact I]. cbn [bind].
      destruct value; [apply mem_set_reaches | apply R_fixup, shape_16].
    - intros s1. cbn [list_item nth_error bind]. apply reaches_bind.
      + destruct (negb _); [apply define_label_reaches | apply R_refl].
      + intros s2. apply advance_pc_reaches. lia. }
  destruct (str_in ".ORIG" (w0 :: rest)) eqn:Eo.
  { destruct Horig as [Ho | Ho]; [discriminate|].
    unfold orig_directive. destruct (list_item _ 1); [|exact I]. cbn [bind].
    destruct (py_int0 _); [apply Ho | exact I]. }
  destruct (str_in ".STRINGZ" _).
  { unfold stringz_directive. cbn [list_item nth_error bind].
    destruct (valid_label w0) as [ok|]; [|exact I]. cbn [bind].
    apply reaches_bind.
    - destruct ok; [apply define_label_reaches|].
      destruct (get_pc st); [apply R_print | exact I].
    - intros s1. destruct (list_item _ 1); [|exact I]. cbn [bind].
      apply reaches_bind; [apply stringz_chars_reaches|].
      intros s2. apply reaches_bind; [apply put_and_show_reaches|].
      intros s3. apply advance_pc_reaches. lia. }
  destruct (str_in ".BLKW" _).
  { unfold blkw_directive. cbn [list_item nth_error bind].
    apply reaches_bind; [apply define_label_reaches|].
    intros s1. destruct (get_immediate _ _) as [[v|]|]; try exact I.
    cbn [bind]. destruct (v <=? 0) eqn:Ev; [exact I|].
    apply advance_pc_reaches. apply Z.leb_gt in Ev. lia. }
  unfold instruction_line.
  destruct (normalize_branch _) as [words' fl].
  destruct (list_item words' 0) as [w|]; [|exact I]. cbn [bind].
  destruct (str_in w instructions); [apply encode_instruction_reaches|].
  destruct (valid_label w) as [ok|]; [|exact I]. cbn [bind].
  apply reaches_bind.
  - destruct ok; [apply define_label_reaches | apply R_print].
  - intros s1. destruct (_ <? 2)%nat; [apply R_refl|].
    destruct (list_item words' 1); [|exact I]. cbn [bind].
    destruct (String.eqb _ EmptyString); [|apply encode_instruction_reaches].
    destruct (1 <? _)%nat; [apply R_print|]. cbn [bind].
    destruct ok; [|exact I]. destruct (get_pc s1); [|exact I].
    cbn. apply R_fixup, shape_16.
Qed.

Lemma encode_lines_reaches (lines : list string) (st : state) :
  Forall (fun raw => str_in ".ORIG" (snd (preprocess raw)) = false) lines
  \/ (forall s a, R s (set_orig_pc a s)) ->
  reaches R st (encode_lines lines st).
Proof.
  intros Horig. revert st. induction lines as [|raw lines IH]; intros st;
    cbn [encode_lines]; [apply R_refl|].
  destruct (preprocess raw) as [line words] eqn:Ep.
  destruct (str_in ".END" words); [apply R_refl|].
  apply reaches_bind.
  - apply process_instruction_reaches.
    destruct Horig as [Ho | Ho]; [left | now right].
    apply Forall_cons in Ho as [Ho _]. now rewrite Ep in Ho.
  - intros s1. apply IH. destruct Horig as [Ho | Ho]; [left | now right].
    now apply Forall_cons in Ho as [_ Ho].
Qed.

End EncoderSteps.

(** ** Three instances *)

Lemma counter_advances_refl (st : state) : counter_advances st st.
Proof.
  split; [reflexivity|]. destruct (pc st) as [p|]; [|reflexivity].
  exists p. split; [reflexivity | lia].
Qed.

Lemma counter_advances_trans (s1 s2 s3 : state) :
  counter_advances s1 s2 -> counter_advances s2 s3 -> counter_advances s1 s3.
Proof.
  intros [Ho1 Hp1] [Ho2 Hp2]. split; [congruence|].
  destruct (pc s1) as [p1|].
  - destruct Hp1 as (p2 & E2 & H12). rewrite E2 in Hp2.
    destruct Hp2 as (p3 & E3 & H23). exists p3. split; [exact E3 | lia].
  - now rewrite Hp1 in Hp2.
Qed.

Lemma counter_advances_frame (st st' : state) :
  orig st' = orig st -> pc st' = pc st -> counter_advances st st'.
Proof.
  intros Ho Hp. split; [exact Ho|]. rewrite Hp.
  destruct (pc st) as [p|]; [|reflexivity]. exists p. split; [reflexivity | lia].
Qed.

(** X5. Between [.ORIG] directives the location counter never moves back
    and the origin stays: for lines none of which holds the token [.ORIG],
    the encoder ends with the origin it started with and a location
    counter at least as large (and still unbound if it was unbound). *)
Theorem X5_counter_only_advances (lines : list string) (st st' : state) :
  Forall (fun raw => str_in ".ORIG" (snd (preprocess raw)) = false) lines ->
  encode_lines lines st = Ok st' ->
  counter_advances st st'.
Proof.
  intros Hl He.
  pose proof (encode_lines_reaches counter_advances
                counter_advances_refl counter_advances_trans) as H.
  specialize (H ltac:(intros; now apply counter_advances_frame)).
  specialize (H ltac:(intros s p n Hp Hn; split; [reflexivity|];
                      rewrite Hp; exists (p + n); split; [reflexivity | lia])).
  specialize (H ltac:(intros; now apply counter_advances_frame)).
  specialize (H ltac:(intros s word p mask width _;
                      destruct (add_fixup_frame word (Fixup p mask width) s)
                        as (Hpc & _ & _ & Ho);
                      now apply counter_advances_frame)).
  specialize (H ltac:(intros; now apply counter_advances_frame)).
  specialize (H lines st (or_introl Hl)). now rewrite He in H.
Qed.

Lemma X5_counter_only_advances_witness :
  counter_advances (set_pc 1 fresh_state)
    (set_pc 3 (set_memory [0; 0x1283; 0xF025; 0] (set_pc 1 fresh_state))).
Proof.
  apply (X5_counter_only_advances ["ADD R1, R2, R3"; "HALT ; stop"]).
  - repeat constructor.
  - reflexivity.
Defined.

Lemma only_grows_refl (st : state) : only_grows st st.
Proof.
  repeat split; auto.
  - intros w. exists []. now rewrite app_nil_r.
  - exists []. now rewrite app_nil_r.
Qed.

Lemma only_grows_trans (s1 s2 s3 : state) :
  only_grows s1 s2 -> only_grows s2 s3 -> only_grows s1 s3.
Proof.
  intros (Hf1 & Hl1 & [o1 Ho1] & Hm1 & Hv1) (Hf2 & Hl2 & [o2 Ho2] & Hm2 & Hv2).
  repeat split.
  - intros w. destruct (Hf1 w) as [m1 E1], (Hf2 w) as [m2 E2].
    exists (m1 ++ m2). now rewrite E2, E1, app_assoc.
  - auto.
  - exists (o1 ++ o2). now rewrite Ho2, Ho1, app_assoc.
  - congruence.
  - congruence.
Qed.

Lemma only_grows_frame (st st' : state) :
  label_location st' = label_location st -> labels st' = labels st ->
  stdout st' = stdout st -> length (memory st') = length (memory st) ->
  verbose st' = verbose st ->
  only_grows st st'.
Proof.
  intros Hf Hl Ho Hm Hv. repeat split; auto.
  - intros w. exists []. unfold fixups_of. now rewrite Hf, app_nil_r.
  - now rewrite Hl.
  - exists []. now rewrite Ho, app_nil_r.
Qed.

(** X6. The encoder only adds: whatever the lines, the records queued for
    each label after the run are those queued before followed by new ones,
    every name defined before is still defined, the diagnostics printed
    before are a prefix of those printed after, the memory has the size
    it had and the verbose flag the value it had. *)
Theorem X6_encoder_only_adds (lines : list string) (st st' : state) :
  encode_lines lines st = Ok st' ->
  only_grows st st'.
Proof.
  intros He.
  pose proof (encode_lines_reaches only_grows only_grows_refl only_grows_trans) as H.
  specialize (H ltac:(intros s k v; apply only_grows_frame;
                      try reflexivity; apply length_insert)).
  specialize (H ltac:(intros; now apply only_grows_frame)).
  specialize (H ltac:(intros s name p; repeat split; try reflexivity;
    [ intros w; exists []; now rewrite app_nil_r
    | intros k; unfold dict_mem; cbn [labels set_labels];
      rewrite dict_get_set; now destruct (String.eqb k name)
    | exists []; now rewrite app_nil_r ])).
  specialize (H ltac:(intros s word p mask width _;
    destruct (add_fixup_appends word (Fixup p mask width) s) as [Ha Hb];
    destruct (add_fixup_frame word (Fixup p mask width) s) as (_ & Hm & Hl & _);
    repeat split;
    [ intros w; destruct (String.eqb_spec w word) as [->|Hne];
      [ eexists; exact Ha | exists []; rewrite app_nil_r; now apply Hb ]
    | now rewrite Hl
    | exists []; rewrite app_nil_r; unfold add_fixup;
      now destruct (dict_get word (label_location s))
    | now rewrite Hm
    | unfold add_fixup; now destruct (dict_get word (label_location s)) ])).
  specialize (H ltac:(intros s e; repeat split; try reflexivity;
    [ intros w; exists []; now rewrite app_nil_r | auto | now exists [e] ])).
  specialize (H lines st
                (or_intror ltac:(intros s a; now apply only_grows_frame))).
  now rewrite He in H.
Qed.

Lemma X6_encoder_only_adds_witness :
  only_grows (add_fixup "L" (Fixup 0 511 9) fresh_state)
    (set_pc 1 (set_memory [0x2200; 0; 0; 0]
       (add_fixup "L" (Fixup 0 511 9)
          (add_fixup "L" (Fixup 0 511 9) fresh_state)))).
Proof.
  apply (X6_encoder_only_adds ["LD R1, L"]). reflexivity.
Defined.

Lemma field_shape_mask (mask width : Z) :
  field_shape mask width -> 0 <= mask < 65536.
Proof.
  intros [-> Hw]. rewrite Z.shiftl_1_l.
  assert (0 < 2 ^ width <= 2 ^ 16).
  { split; [apply Z.pow_pos_nonneg; lia | apply Z.pow_le_mono_r; lia]. }
  change (2 ^ 16) with 65536 in *. lia.
Qed.

Lemma initial_state_shaped (v : bool) : shaped_fixups (initial_state v).
Proof. intros w rec []. Qed.

(** X7. Every fixup record the encoder queues pairs a mask with its width:
    if that holds of the records of the starting state (it has none when
    the run starts) then in the state the encoder ends in the mask of each
    record is [(1 << bits) - 1] with [bits] between 0 and 16, so that the
    mask is a 16-bit value, as the range-checked patch of C1 supposes. *)
Theorem X7_queued_masks_match_widths
    (lines : list string) (st0 st : state) (w : string) (rec : fixup) :
  shaped_fixups st0 ->
  encode_lines lines st0 = Ok st ->
  In rec (fixups_of w st) ->
  fx_mask rec = Z.shiftl 1 (fx_bits rec) - 1
  /\ 0 <= fx_bits rec <= 16
  /\ 0 <= fx_mask rec < 65536.
Proof.
  intros H0 He Hin.
  set (R := fun s s' : state => shaped_fixups s -> shaped_fixups s').
  pose proof (encode_lines_reaches R) as H.
  specialize (H ltac:(intros s; exact (fun h => h))).
  specialize (H ltac:(intros s1 s2 s3 H12 H23 h; exact (H23 (H12 h)))).
  specialize (H ltac:(intros s k x h; exact h)).
  specialize (H ltac:(intros s p n _ _ h; exact h)).
  specialize (H ltac:(intros s name p h; exact h)).
  specialize (H ltac:(intros s word p mask width Hs h w0 r0 Hr;
    destruct (add_fixup_appends word (Fixup p mask width) s) as [Ha Hb];
    destruct (String.eqb_spec w0 word) as [->|Hne];
    [ rewrite Ha in Hr; apply in_app_or in Hr as [Hr | [<- | []]];
      [ now apply (h word) | exact Hs ]
    | rewrite (Hb w0 Hne) in Hr; now apply (h w0) ])).
  specialize (H ltac:(intros s e h; exact h)).
  specialize (H lines st0 (or_intror ltac:(intros s a h; exact h))).
  rewrite He in H. cbn in H.
  assert (Hs : field_shape (fx_mask rec) (fx_bits rec)).
  { apply (H H0) with (w := w). exact Hin. }
  destruct Hs as [Hm Hb]. split; [exact Hm | split; [exact Hb|]].
  now apply (field_shape_mask _ (fx_bits rec)).
Qed.

Lemma X7_queued_masks_match_widths_witness :
  fx_mask (Fixup 0 511 9) = Z.shiftl 1 (fx_bits (Fixup 0 511 9)) - 1
  /\ 0 <= fx_bits (Fixup 0 511 9) <= 16
  /\ 0 <= fx_mask (Fixup 0 511 9) < 65536.
Proof.
  apply (X7_queued_masks_match_widths ["LD R1, L"] fresh_state
           (set_pc 1 (set_memory [0x2200; 0; 0; 0]
              (add_fixup "L" (Fixup 0 511 9) fresh_state))) "L").
  - intros w rec [].
  - reflexivity.
  - left. reflexivity.
Defined.

(** ** What resolution leaves alone *)

Lemma mem_set_inv (m : list Z) (i v : Z) (m' : list Z) :
  mem_set m i v = Ok m' ->
  exists n, py_index (Z.of_nat (length m)) i = Ok n /\ m' = <[n := v]> m.
Proof.
  unfold mem_set. destruct (py_index _ i) as [n|e]; [|discriminate]. cbn [bind].
  destruct (is_word v); [|discriminate]. intros [= <-]. eauto.
Qed.

Lemma patched_within_refl (T : nat -> Prop) (st : state) : patched_within T st st.
Proof. repeat split; auto. exists []. now rewrite app_nil_r. Qed.

Lemma patched_within_trans (T1 T2 T : nat -> Prop) (s1 s2 s3 : state) :
  (forall i, T1 i -> T i) -> (forall i, T2 i -> T i) ->
  patched_within T1 s1 s2 -> patched_within T2 s2 s3 -> patched_within T s1 s3.
Proof.
  intros H1 H2 (Hl1 & Hf1 & Hp1 & Ho1 & Hv1 & Hn1 & Hm1 & [o1 Hs1])
               (Hl2 & Hf2 & Hp2 & Ho2 & Hv2 & Hn2 & Hm2 & [o2 Hs2]).
  repeat split; try congruence.
  - intros i Hi. rewrite Hm2, Hm1; auto.
  - exists (o1 ++ o2). now rewrite Hs2, Hs1, app_assoc.
Qed.

Lemma resolve_record_within (label : string) (fx : fixup) (st st' : state) :
  resolve_record label fx st = Ok st' ->
  patched_within (touched (Z.of_nat (length (memory st))) [fx]) st st'.
Proof.
  unfold resolve_record. intros H.
  apply bind_Ok_inv in H as (target & _ & H).
  apply bind_Ok_inv in H as (w & _ & H).
  assert (Hset : forall v,
            (m <- mem_set (memory st) (fx_ref fx) v ;; Ok (set_memory m st)) = Ok st' ->
            patched_within (touched (Z.of_nat (length (memory st))) [fx]) st st').
  { intros v Hv. apply bind_Ok_inv in Hv as (m & Hm & [= <-]).
    apply mem_set_inv in Hm as (n & Hn & ->).
    repeat split; try reflexivity.
    - apply length_insert.
    - intros i Hi. cbn [memory set_memory]. apply list_lookup_insert_ne.
      intros <-. apply Hi. exists fx. split; [now left | exact Hn].
    - exists []. cbn. now rewrite app_nil_r. }
  destruct (w =? 0); [now apply (Hset target)|].
  apply bind_Ok_inv in H as (ok & _ & H).
  destruct (negb ok); [discriminate|]. eapply Hset. exact H.
Qed.

Lemma resolve_records_within (label : string) (recs : list fixup) (st st' : state) :
  resolve_records label recs st = Ok st' ->
  patched_within (touched (Z.of_nat (length (memory st))) recs) st st'.
Proof.
  revert st. induction recs as [|fx recs IH]; intros st; cbn [resolve_records].
  - intros [= <-]. apply patched_within_refl.
  - intros H. apply bind_Ok_inv in H as (s1 & H1 & H2).
    apply resolve_record_within in H1. apply IH in H2.
    assert (Hlen : length (memory s1) = length (memory st)) by apply H1.
    rewrite Hlen in H2.
    eapply patched_within_trans; [| | exact H1 | exact H2].
    + intros i (f & [<- | []] & Hi). exists fx. split; [now left | exact Hi].
    + intros i (f & Hf & Hi). exists f. split; [now right | exact Hi].
Qed.

Lemma resolve_items_within (items : dict (list fixup)) (st st' : state) :
  resolve_items items st = Ok st' ->
  patched_within
    (fun i => exists label recs,
       In (label, recs) items /\ touched (Z.of_nat (length (memory st))) recs i)
    st st'.
Proof.
  revert st. induction items as [|[label recs] items IH]; intros st;
    cbn [resolve_items].
  - intros [= <-]. apply patched_within_refl.
  - intros H. apply bind_Ok_inv in H as (s1 & H1 & H2).
    assert (W1 : patched_within (touched (Z.of_nat (length (memory st))) recs) st s1).
    { unfold resolve_label in H1. destruct (negb _).
      - injection H1 as <-. repeat split; auto. now exists [BadLabelFailure label recs].
      - now apply (resolve_records_within label). }
    apply IH in H2.
    assert (Hlen : length (memory s1) = length (memory st)) by apply W1.
    rewrite Hlen in H2.
    eapply patched_within_trans; [| | exact W1 | exact H2].
    + intros i Hi. exists label, recs. split; [now left | exact Hi].
    + intros i (l & r & Hin & Hi). exists l, r. split; [now right | exact Hi].
Qed.

(** X8. Resolution patches memory words at the addresses of queued fixup
    records and nothing else: when it raises nothing, the symbol table,
    the fixup list, the origin and the location counter are as before, the
    memory has the same size, every word that no record points to is
    unchanged, and diagnostics are only added. *)
Theorem X8_resolution_touches_only_fixup_words (st st' : state) :
  resolve st = Ok st' ->
  patched_within (patched_at st) st st'.
Proof. intros H. now apply resolve_items_within. Qed.

Lemma X8_resolution_touches_only_fixup_words_witness :
  patched_within (patched_at (add_fixup "L" (Fixup 0 511 9) small_state))
    (add_fixup "L" (Fixup 0 511 9) small_state)
    (set_memory [0x2001; 0; 0] (add_fixup "L" (Fixup 0 511 9) small_state)).
Proof.
  apply X8_resolution_touches_only_fixup_words. reflexivity.
Defined.

(** ** More on the tokenizer *)

Lemma append_cons (c : ascii) (a b : string) :
  String.append (String c a) b = String c (String.append a b).
Proof. reflexivity. Qed.

Lemma replace_comma_append (a b : string) :
  replace_comma (String.append a b)
    = String.append (replace_comma a) (replace_comma b).
Proof.
  induction a as [|c a IH]; [reflexivity|].
  cbn [String.append replace_comma]. rewrite IH.
  destruct (Ascii.eqb c ","); reflexivity.
Qed.

(** One space or two between the same texts split alike. *)
Lemma split_ws_double_space (x y cur : string) :
  split_ws_from cur (String.append x (String " " (String " " y)))
    = split_ws_from cur (String.append x (String " " y)).
Proof.
  revert cur. induction x as [|c x IH]; intros cur.
  - cbn [String.append split_ws_from].
    change (isspace " ") with true. cbv iota.
    destruct cur; cbn [split_ws_from]; change (isspace " ") with true; reflexivity.
  - cbn [String.append split_ws_from].
    destruct (isspace c); [destruct cur|]; now rewrite IH.
Qed.

(** X9. A comma separates tokens with or without a space after it: the
    tokens of a text are the same whether a comma in it is followed by a
    space or not, as [R1,R2] and [R1, R2]. *)
Theorem X9_comma_with_or_without_space (a b : string) :
  split_ws (replace_comma (String.append a (String "," b)))
    = split_ws (replace_comma (String.append a (String "," (String " " b)))).
Proof.
  unfold split_ws. rewrite !replace_comma_append.
  cbn [replace_comma]. change (Ascii.eqb "," ",") with true.
  change (Ascii.eqb " " ",") with false. cbv iota.
  set (ra := replace_comma a). set (rb := replace_comma b).
  change (String.append ra (String "," (String " " (String " " rb))))
    with (String.append ra (String.append "," (String " " (String " " rb)))).
  change (String.append ra (String "," (String " " rb)))
    with (String.append ra (String.append "," (String " " rb))).
  assert (Hassoc : forall u v w, String.append u (String.append v w)
                                 = String.append (String.append u v) w).
  { intros u v w. induction u as [|c u IH]; [reflexivity|].
    cbn [String.append]. now rewrite IH. }
  rewrite !Hassoc. symmetry. apply split_ws_double_space.
Qed.

Lemma isspace_append_nonempty (cur : string) (c : ascii) :
  String.append cur (String c EmptyString) <> EmptyString.
Proof. destruct cur; discriminate. Qed.

Lemma str_all_append (p : ascii -> bool) (a b : string) :
  str_all p (String.append a b) = str_all p a && str_all p b.
Proof.
  induction a as [|c a IH]; [reflexivity|].
  cbn [String.append str_all]. now rewrite IH, andb_assoc.
Qed.

Lemma split_ws_from_tokens (cur s : string) (t : string) :
  str_all (fun c => negb (isspace c)) cur = true ->
  In t (split_ws_from cur s) ->
  t <> EmptyString /\ str_all (fun c => negb (isspace c)) t = true.
Proof.
  revert cur. induction s as [|c s IH]; intros cur Hcur; cbn [split_ws_from].
  - destruct cur as [|c0 cur]; [intros []|].
    intros [<- | []]. split; [discriminate | exact Hcur].
  - destruct (isspace c) eqn:Ec.
    + destruct cur as [|c0 cur]; [now apply IH|].
      intros [<- | Hin]; [split; [discriminate | exact Hcur]|].
      now apply (IH EmptyString).
    + apply IH. rewrite str_all_append, Hcur. cbn [str_all]. now rewrite Ec.
Qed.

(** X10. Every token of a line is a non-empty string without whitespace:
    [words[0][0]] can always be read, and the only way [valid_label] can
    fail on a token is the one-letter token [x]. *)
Theorem X10_tokens_are_nonempty_words (raw t : string) :
  In t (snd (preprocess raw)) ->
  t <> EmptyString
  /\ str_all (fun c => negb (isspace c)) t = true
  /\ (valid_label t = Raise IndexError -> t = "x").
Proof.
  unfold preprocess. cbn [snd]. intros Hin.
  apply (split_ws_from_tokens EmptyString) in Hin as [Hne Hws]; [|reflexivity].
  split; [exact Hne | split; [exact Hws|]].
  clear Hws. revert Hne. unfold valid_label.
  destruct t as [|c [|c' r]]; cbn [str_item String.get bind]; [congruence| |].
  - intros _. destruct (Ascii.eqb_spec c "x") as [->|_]; [reflexivity|discriminate].
  - intros _. destruct (Ascii.eqb c "x"); cbn [bind]; [destruct (isdigit c')|];
      discriminate.
Qed.

Lemma X10_tokens_are_nonempty_words_witness :
  "R1," <> EmptyString
  /\ str_all (fun c => negb (isspace c)) "R1," = true
  /\ (valid_label "R1," = Raise IndexError -> "R1," = "x").
Proof.
  apply (X10_tokens_are_nonempty_words "  ADD R1,R2 ; sum").
  vm_compute. right. left. reflexivity.
Defined.

(** ** A line that holds only a label *)

(** X11. A line holding a single token of label shape that is neither a
    mnemonic nor starts with [BR] binds the label to the location counter
    and does nothing else: no word is stored, the counter stays, nothing
    is printed, no fix-up is queued. *)
Theorem X11_label_only_line (line w : string) (st : state) (p : Z) :
  valid_label w = Ok true ->
  str_in w instructions = false ->
  startswith w "BR" = false ->
  pc st = Some p ->
  process_instruction line [w] st
    = Ok (set_labels (dict_set w p (labels st)) st).
Proof.
  intros Hv Hi Hb Hp.
  destruct (valid_label_head w Hv) as (c & r & -> & Hc).
  unfold process_instruction.
  assert (H1 : startswith (String c r) ";" = false).
  { cbn [startswith]. now rewrite (proj2 (label_head_not c ";" Hc eq_refl)). }
  assert (Hdot : forall d, str_in (String "." d) [String c r] = false).
  { intros d. cbn [str_in String.eqb].
    now rewrite (proj1 (label_head_not c "." Hc eq_refl)). }
  rewrite H1. rewrite !Hdot.
  unfold instruction_line, normalize_branch, branch_index. rewrite Hb.
  cbn [list_item nth_error bind]. rewrite Hi, Hv. cbn [bind].
  unfold define_label, get_pc. rewrite Hp. reflexivity.
Qed.

Lemma X11_label_only_line_witness :
  process_instruction "LOOP" ["LOOP"] small_state
    = Ok (set_labels (dict_set "LOOP" 3 (labels small_state)) small_state).
Proof.
  apply (X11_label_only_line "LOOP" "LOOP" small_state 3); reflexivity.
Defined.

(** ** The files describe the memory as it was before the output *)

Lemma mem_gets_seq (m : list Z) (n : nat) (o : nat) :
  (o + n <= length m)%nat ->
  mem_gets m (map (fun i => Z.of_nat o + Z.of_nat i) (seq 0 n))
    = Ok (take n (drop o m)).
Proof.
  revert o. induction n as [|n IH]; intros o Hle; [reflexivity|].
  cbn [seq map mem_gets]. rewrite <- seq_shift, map_map.
  assert (Hget : mem_get m (Z.of_nat o + Z.of_nat 0)
                 = match m !! o with Some w => Ok w | None => Raise IndexError end).
  { unfold mem_get, py_index.
    assert (E1 : (Z.of_nat o + Z.of_nat 0 <? 0) = false) by (apply Z.ltb_ge; lia).
    assert (E2 : ((0 <=? Z.of_nat o + Z.of_nat 0)
                  && (Z.of_nat o + Z.of_nat 0 <? Z.of_nat (length m))) = true).
    { apply andb_true_iff. rewrite Z.leb_le, Z.ltb_lt. lia. }
    rewrite E1, E2. cbn [bind]. now replace (Z.to_nat _) with o by lia. }
  rewrite Hget.
  destruct (m !! o) as [w|] eqn:E; [|apply lookup_ge_None in E; lia].
  cbn [bind].
  rewrite (map_ext _ (fun i => Z.of_nat (S o) + Z.of_nat i)) by (intros; lia).
  rewrite (IH (S o)) by lia. cbn [bind].
  f_equal. rewrite (drop_S m w o E). reflexivity.
Qed.

Lemma slice_bound_in (len i : Z) :
  0 <= i <= len -> slice_bound len i = Z.to_nat i.
Proof.
  intros H. unfold slice_bound.
  assert (E : (i <? 0) = false) by (apply Z.ltb_ge; lia).
  rewrite E. f_equal. lia.
Qed.

Lemma slice_bound_le (len i j : Z) :
  0 <= i -> 0 <= j -> i <= j -> (slice_bound len i <= slice_bound len j)%nat.
Proof.
  intros Hi Hj H. unfold slice_bound.
  assert (E1 : (i <? 0) = false) by (apply Z.ltb_ge; lia).
  assert (E2 : (j <? 0) = false) by (apply Z.ltb_ge; lia).
  rewrite E1, E2. lia.
Qed.

Lemma mem_gets_window (m : list Z) (o p : Z) :
  0 <= o -> 0 <= p <= Z.of_nat (length m) ->
  mem_gets m (py_range o p) = Ok (mem_slice m o p).
Proof.
  intros Ho Hp. unfold py_range, mem_slice.
  rewrite (slice_bound_in _ p) by lia.
  destruct (Z.le_gt_cases o p) as [Hop|Hop].
  - rewrite (slice_bound_in _ o) by lia.
    rewrite (map_ext _ (fun i => Z.of_nat (Z.to_nat o) + Z.of_nat i))
      by (intros; lia).
    replace (Z.to_nat (p - o)) with (Z.to_nat p - Z.to_nat o)%nat by lia.
    apply mem_gets_seq. lia.
  - replace (Z.to_nat (p - o)) with 0%nat by lia.
    pose proof (slice_bound_le (Z.of_nat (length m)) p o (proj1 Hp) Ho) as Hle.
    rewrite (slice_bound_in _ p) in Hle by lia.
    replace (Z.to_nat p - slice_bound (Z.of_nat (length m)) o)%nat with 0%nat by lia.
    reflexivity.
Qed.

Lemma mem_slice_counter_word (m : list Z) (p o : Z) :
  0 <= p < Z.of_nat (length m) ->
  mem_slice (<[Z.to_nat p := o]> m) p (p + 1) = [o].
Proof.
  intros Hp. unfold mem_slice. rewrite length_insert.
  rewrite !slice_bound_in by lia.
  replace (Z.to_nat (p + 1) - Z.to_nat p)%nat with 1%nat by lia.
  rewrite drop_insert_ge by lia. rewrite Nat.sub_diag.
  destruct (drop (Z.to_nat p) m) as [|w r] eqn:E; [|reflexivity].
  apply (f_equal length) in E. rewrite length_drop in E. cbn in E. lia.
Qed.

Lemma mem_slice_below_counter (m : list Z) (p o v : Z) :
  0 <= o -> 0 <= p < Z.of_nat (length m) ->
  mem_slice (<[Z.to_nat p := v]> m) o p = mem_slice m o p.
Proof.
  intros Ho Hp. unfold mem_slice. rewrite length_insert.
  rewrite (slice_bound_in _ p) by lia.
  set (lo := slice_bound (Z.of_nat (length m)) o).
  destruct (Nat.le_gt_cases lo (Z.to_nat p)) as [Hle|Hgt].
  - rewrite drop_insert_ge by exact Hle.
    apply take_insert_ge. lia.
  - now replace (Z.to_nat p - lo)%nat with 0%nat by lia.
Qed.

(** X12. When the output stage runs with an origin and a location counter
    inside the memory, the three files describe the memory as resolution
    left it: the binary file is the origin followed by the words of
    [memory[orig:pc]], one 16-digit line each, and the object file holds
    the same sequence of words, each with its two bytes exchanged.  (The
    origin parked in [memory[pc]] does not reach the window.) *)
Theorem X12_files_hold_origin_and_window (st : state) (o p : Z) :
  orig st = Some o -> pc st = Some p ->
  0 <= o < 65536 ->
  0 <= p < Z.of_nat (length (memory st)) ->
  words16 (memory st) ->
  let ws := mem_slice (memory st) o p in
  fst (emit st)
    = [SymFile (sym_text (labels st));
       BinFile (String.append (String.append (format_016b o) newline)
                  (String.append (join newline (map format_016b ws)) newline));
       ObjFile (swap_bytes <$> (o :: ws))].
Proof.
  intros Ho Hp Ho16 Hpm Hm ws.
  assert (Hk : py_index (Z.of_nat (length (memory st))) p = Ok (Z.to_nat p)).
  { unfold py_index.
    assert (E1 : (p <? 0) = false) by (apply Z.ltb_ge; lia).
    assert (E2 : ((0 <=? p) && (p <? Z.of_nat (length (memory st)))) = true).
    { apply andb_true_iff. rewrite Z.leb_le, Z.ltb_lt. lia. }
    now rewrite E1, E2. }
  pose proof (emit_obj_result st o p _ Ho Hp Hk Ho16 Hm) as He.
  rewrite mem_slice_counter_word, mem_slice_below_counter in He by lia.
  unfold emit, get_orig, get_pc. rewrite Ho, Hp, bind_Ok.
  rewrite mem_gets_window by lia. rewrite He. reflexivity.
Qed.

Lemma X12_files_hold_origin_and_window_witness :
  fst (emit loaded_state)
    = [SymFile (sym_text []);
       BinFile (String.append (String.append (format_016b 1) newline)
                  (String.append
                     (join newline (map format_016b [0x1283; 0xF025])) newline));
       ObjFile (swap_bytes <$> [1; 0x1283; 0xF025])].
Proof.
  apply (X12_files_hold_origin_and_window loaded_state 1 3 eq_refl eq_refl).
  - lia.
  - cbn. lia.
  - unfold words16, loaded_state. cbn [memory].
    repeat (constructor; [lia|]). constructor.
Defined.

(** ** Offsets that pass the range check *)

(** X13. The range check of label resolution is tight enough for the
    patched field to determine the offset: two offsets that [in_range]
    accepts for a width and that leave the same bits in the field of that
    width are equal, so different accepted offsets give different fields;
    and the field of an accepted offset is the offset itself when it is
    not negative and the offset plus [2^width] when it is. *)
Theorem X13_accepted_offsets_keep_apart (bits n1 n2 : Z) :
  in_range n1 bits = Ok true ->
  in_range n2 bits = Ok true ->
  (offset_field bits n1 = offset_field bits n2 -> n1 = n2)
  /\ (n1 <> n2 -> offset_field bits n1 <> offset_field bits n2)
  /\ offset_field bits n1 = (if n1 <? 0 then n1 + 2 ^ bits else n1).
Proof.
  unfold in_range, offset_field. destruct (bits - 1 <? 0) eqn:Eb; [discriminate|].
  apply Z.ltb_ge in Eb.
  intros [= [H1 H1']%andb_true_iff] [= [H2 H2']%andb_true_iff].
  apply Z.leb_le in H1, H2. apply Z.ltb_lt in H1', H2'.
  rewrite Z.shiftl_1_l in *.
  assert (Hones : 2 ^ bits - 1 = Z.ones bits).
  { rewrite Z.ones_equiv. lia. }
  rewrite Hones, !(Z.land_comm (Z.ones bits)), !Z.land_ones by lia.
  assert (Hpow : 2 ^ bits = 2 * 2 ^ (bits - 1)).
  { rewrite <- Z.pow_succ_r by lia. f_equal. lia. }
  assert (Hpos : 0 < 2 ^ (bits - 1)) by (apply Z.pow_pos_nonneg; lia).
  assert (Hinj : n1 mod 2 ^ bits = n2 mod 2 ^ bits -> n1 = n2).
  { intros Hmod.
    pose proof (Z.div_mod n1 (2 ^ bits) ltac:(lia)) as D1.
    pose proof (Z.div_mod n2 (2 ^ bits) ltac:(lia)) as D2.
    rewrite Hmod in D1.
    assert (Hq : n1 / 2 ^ bits = n2 / 2 ^ bits) by nia.
    rewrite Hq in D1. lia. }
  split; [exact Hinj | split; [intros Hne Hmod; now apply Hne, Hinj|]].
  destruct (n1 <? 0) eqn:En; [apply Z.ltb_lt in En | apply Z.ltb_ge in En].
  - symmetry. apply (Z.mod_unique n1 (2 ^ bits) (-1)); lia.
  - apply Z.mod_small. lia.
Qed.

Lemma X13_accepted_offsets_keep_apart_witness :
  offset_field 9 5 <> offset_field 9 (-3)
  /\ offset_field 9 5 = 5
  /\ offset_field 9 (-3) = 509.
Proof.
  destruct (X13_accepted_offsets_keep_apart 9 5 (-3) eq_refl eq_refl)
    as (_ & Hapart & Hplain).
  destruct (X13_accepted_offsets_keep_apart 9 (-3) 5 eq_refl eq_refl)
    as (_ & _ & Hwrapped).
  split; [apply Hapart; discriminate | split; [exact Hplain | exact Hwrapped]].
Defined.

(** ** The text of a [.STRINGZ] directive *)

Lemma ord_bounds (c : ascii) : 0 <= ord c < 256.
Proof. unfold ord. pose proof (nat_ascii_bounded c). lia. Qed.

Lemma ord_inj (c d : ascii) : ord c = ord d -> c = d.
Proof.
  unfold ord. intros H%Nat2Z.inj.
  rewrite <- (ascii_nat_embedding c), <- (ascii_nat_embedding d). now rewrite H.
Qed.

(** The first character of a text and the text behind it: the character
    is the first byte itself or has a code of 128 or more, and the rest is
    a shorter text that holds no byte the whole did not hold. *)
Lemma code_points_cons (c0 : ascii) (r0 : string) :
  exists v r,
    code_points (String c0 r0) = v :: code_points r
    /\ 0 <= v
    /\ (v = ord c0 \/ 0x80 <= v)
    /\ (String.length r <= String.length r0)%nat
    /\ (forall d, char_in d r = true -> char_in d r0 = true).
Proof.
  pose proof (ord_bounds c0) as Hc0.
  assert (Hsingle : exists v r,
             ord c0 :: code_points r0 = v :: code_points r
             /\ 0 <= v /\ (v = ord c0 \/ 0x80 <= v)
             /\ (String.length r <= String.length r0)%nat
             /\ (forall d, char_in d r = true -> char_in d r0 = true)).
  { exists (ord c0), r0. repeat split; auto; lia. }
  cbn [code_points].
  destruct (ord c0 <? 192); [exact Hsingle|].
  destruct r0 as [|c1 r1]; [exact Hsingle|].
  destruct (continuation c1) as [x1|]; [|exact Hsingle].
  destruct (ord c0 <? 224).
  { destruct (128 <=? _) eqn:E; [|exact Hsingle]. apply Z.leb_le in E.
    eexists _, r1. split; [reflexivity|]. repeat split; [lia | now right | cbn; lia |].
    intros d Hd. cbn [char_in]. rewrite Hd. apply orb_true_r. }
  destruct r1 as [|c2 r2]; [exact Hsingle|].
  destruct (continuation c2) as [x2|]; [|exact Hsingle].
  destruct (ord c0 <? 240).
  { destruct (_ && _) eqn:E; [|exact Hsingle].
    apply andb_true_iff in E as [E%Z.leb_le _].
    eexists _, r2. split; [reflexivity|]. repeat split; [lia | right; lia | cbn; lia |].
    intros d Hd. cbn [char_in]. rewrite Hd. now rewrite !orb_true_r. }
  destruct r2 as [|c3 r3]; [exact Hsingle|].
  destruct (continuation c3) as [x3|]; [|exact Hsingle].
  destruct (_ && _) eqn:E; [|exact Hsingle].
  apply andb_true_iff in E as [E%Z.leb_le _].
  eexists _, r3. split; [reflexivity|]. repeat split; [lia | right; lia | cbn; lia |].
  intros d Hd. cbn [char_in]. rewrite Hd. now rewrite !orb_true_r.
Qed.

Lemma code_points_within (n : nat) (s : string) :
  (String.length s <= n)%nat ->
  Forall (fun c => 0 <= c) (code_points s)
  /\ (forall d, ord d < 0x80 -> In (ord d) (code_points s) -> char_in d s = true).
Proof.
  revert s. induction n as [|n IH]; intros s Hn.
  - destruct s; [|cbn in Hn; lia]. split; [constructor | intros d _ []].
  - destruct s as [|c0 r0]; [split; [constructor | intros d _ []]|].
    destruct (code_points_cons c0 r0) as (v & r & -> & Hv & Hfirst & Hlen & Hin).
    cbn [String.length] in Hn.
    destruct (IH r ltac:(lia)) as [Hall Hchar]. split; [now constructor|].
    intros d Hd [Hhead | Htail]; cbn [char_in].
    + destruct Hfirst as [-> | Hwide]; [|lia].
      apply ord_inj in Hhead as ->. now rewrite Ascii.eqb_refl.
    + rewrite (Hin d (Hchar d Hd Htail)). apply orb_true_r.
Qed.

Lemma code_points_nonneg (s : string) : Forall (fun c => 0 <= c) (code_points s).
Proof. exact (proj1 (code_points_within (String.length s) s (Nat.le_refl _))). Qed.








Lemma split_char_whole (sep : ascii) (s : string) :
  char_in sep s = false -> split_char sep s = [s].
Proof.
  induction s as [|c s IH]; cbn [char_in split_char]; [reflexivity|].
  intros [Hc Hs]%orb_false_elim. rewrite Ascii.eqb_sym, Hc, (IH Hs). reflexivity.
Qed.





(** ** Numbers as the assembler prints them *)

Lemma hex_digit_value (b0 b1 b2 b3 : bool) :
  hex_lower (hex_digit b0 b1 b2 b3) = true
  /\ digit_value (hex_digit b0 b1 b2 b3)
     = Some (bits_value [b0; b1; b2; b3])
  /\ bits_value [b0; b1; b2; b3] < 16.
Proof. destruct b0, b1, b2, b3; vm_compute; repeat split; congruence. Qed.

Lemma hex_lower_facts (c : ascii) :
  hex_lower c = true ->
  Ascii.eqb c "_" = false /\ isspace c = false /\ Ascii.eqb "-" c = false
  /\ char_in c "-0123456789abcdefgABCDEF" = true.
Proof.
  intros H. unfold hex_lower in H. cbn [char_in] in H.
  rewrite !orb_true_iff in H.
  repeat destruct H as [H|H]; try discriminate;
    apply Ascii.eqb_eq in H; subst c; vm_compute; repeat split; congruence.
Qed.

Lemma int_digits_hex_step (c : ascii) (v : Z) (r : string) (seen : bool) (acc : Z) :
  hex_lower c = true -> digit_value c = Some v -> v < 16 ->
  int_digits 16 (String c r) false seen acc
    = int_digits 16 r false true (acc * 16 + v).
Proof.
  intros Hc Hv Hlt. cbn [int_digits].
  destruct (hex_lower_facts c Hc) as (-> & _). rewrite Hv.
  assert (E : (v <? 16) = true) by (apply Z.ltb_lt; lia). now rewrite E.
Qed.

Lemma hex_of_bits_read (n : nat) (bs : list bool) (acc : string) (seen : bool) :
  (length bs <= n)%nat -> bs <> [] ->
  int_digits 16 (hex_of_bits bs acc) false seen 0
    = int_digits 16 acc false true (bits_value bs)
  /\ str_all hex_lower (hex_of_bits bs acc) = str_all hex_lower acc
  /\ hex_of_bits bs acc <> EmptyString.
Proof.
  revert bs acc seen. induction n as [|n IH]; intros bs acc seen Hn Hne.
  - destruct bs; [contradiction | cbn in Hn; lia].
  - destruct bs as [|b0 [|b1 [|b2 [|b3 r]]]]; [contradiction| | | |].
    + destruct (hex_digit_value b0 false false false) as (Hc & Hv & Hlt).
      cbn [hex_of_bits str_all]. rewrite Hc.
      rewrite (int_digits_hex_step _ _ _ _ _ Hc Hv Hlt).
      repeat split; first [discriminate | f_equal; cbn; lia].
    + destruct (hex_digit_value b0 b1 false false) as (Hc & Hv & Hlt).
      cbn [hex_of_bits str_all]. rewrite Hc.
      rewrite (int_digits_hex_step _ _ _ _ _ Hc Hv Hlt).
      repeat split; first [discriminate | f_equal; cbn; lia].
    + destruct (hex_digit_value b0 b1 b2 false) as (Hc & Hv & Hlt).
      cbn [hex_of_bits str_all]. rewrite Hc.
      rewrite (int_digits_hex_step _ _ _ _ _ Hc Hv Hlt).
      repeat split; first [discriminate | f_equal; cbn; lia].
    + destruct (hex_digit_value b0 b1 b2 b3) as (Hc & Hv & Hlt).
      cbn [hex_of_bits].
      destruct r as [|b4 r'].
      * cbn [hex_of_bits str_all]. rewrite Hc.
        rewrite (int_digits_hex_step _ _ _ _ _ Hc Hv Hlt).
        repeat split; first [discriminate | f_equal; cbn; lia].
      * destruct (IH (b4 :: r') (String (hex_digit b0 b1 b2 b3) acc) seen)
          as (H1 & H2 & H3); [cbn in Hn |- *; lia | discriminate |].
        rewrite H1, H2. cbn [str_all]. rewrite Hc.
        rewrite (int_digits_hex_step _ _ _ _ _ Hc Hv Hlt).
        repeat split; [|exact H3].
        f_equal. cbn [bits_value] in *. lia.
Qed.

Lemma bits_value_pos (p : positive) : bits_value (pos_bits p) = Zpos p.
Proof. induction p as [p IH|p IH|]; cbn [pos_bits bits_value Z.b2z]; lia. Qed.

Lemma str_all_impl (p q : ascii -> bool) (s : string) :
  (forall c, p c = true -> q c = true) ->
  str_all p s = true -> str_all q s = true.
Proof.
  intros Hpq. induction s as [|c s IH]; cbn [str_all]; [reflexivity|].
  intros [Hc Hs]%andb_true_iff. now rewrite (Hpq c Hc), IH.
Qed.

Lemma rstrip_no_space (s : string) :
  str_all (fun c => negb (isspace c)) s = true -> rstrip s = s.
Proof.
  induction s as [|c s IH]; cbn [str_all]; [reflexivity|].
  intros [Hc Hs]%andb_true_iff. apply negb_true_iff in Hc.
  rewrite (rstrip_keeps c s Hc), (IH Hs). reflexivity.
Qed.

Lemma char_in_none (c : ascii) (p : ascii -> bool) (s : string) :
  (forall d, p d = true -> Ascii.eqb c d = false) ->
  str_all p s = true -> char_in c s = false.
Proof.
  intros Hp. induction s as [|d s IH]; cbn [str_all char_in]; [reflexivity|].
  intros [Hd Hs]%andb_true_iff. now rewrite (Hp d Hd), IH.
Qed.

Lemma skip_underscore_hex (c : ascii) (r : string) :
  hex_lower c = true -> skip_underscore (String c r) = String c r.
Proof.
  unfold hex_lower. cbn [char_in]. rewrite !orb_true_iff.
  intros H. repeat destruct H as [H|H]; try discriminate;
    apply Ascii.eqb_eq in H; subst c; reflexivity.
Qed.

Lemma py_int0_hex (digits : string) :
  rstrip digits = digits ->
  py_int0 (String "0" (String "x" digits))
    = int_digits 16 (skip_underscore digits) false false 0.
Proof.
  intros H. unfold py_int0, int_parse.
  rewrite strip_keeps by reflexivity. rewrite rstrip_keeps by reflexivity.
  rewrite H. reflexivity.
Qed.

(** X15. The hexadecimal notation the cross reference prints is the one
    the assembler reads: for every [h >= 0], [get_immediate] reads
    [lc_hex(h)] back as [h], reduced by the mask; with the 16-bit mask of
    [.FILL] and [.BLKW] every 16-bit value is read back unchanged. *)
Theorem X15_lc_hex_is_read_back (h mask : Z) :
  0 <= h ->
  get_immediate (lc_hex h) mask = Ok (Some (Z.land h mask))
  /\ (h < 65536 -> get_immediate (lc_hex h) 0xFFFF = Ok (Some h)).
Proof.
  intros Hh.
  assert (Hgen : forall m, get_immediate (lc_hex h) m = Ok (Some (Z.land h m))).
  { intros m. destruct h as [|p|p]; [reflexivity| |lia].
    unfold lc_hex, hex. cbn [String.append str_drop].
    set (digits := hex_of_bits (pos_bits p) EmptyString).
    destruct (hex_of_bits_read (length (pos_bits p)) (pos_bits p) EmptyString false)
      as (Hread & Hall & Hne); [lia | now destruct p |].
    fold digits in Hread, Hall, Hne. cbn [str_all] in Hall.
    cbn [int_digits orb negb] in Hread. rewrite bits_value_pos in Hread.
    unfold get_immediate. cbn [startswith str_drop].
    rewrite Ascii.eqb_refl. cbn [andb].
    rewrite (str_all_impl hex_lower _ digits
               (fun c Hc => proj2 (proj2 (proj2 (hex_lower_facts c Hc)))) Hall).
    cbn [andb].
    assert (Hsp : rstrip digits = digits).
    { apply rstrip_no_space.
      apply (str_all_impl hex_lower); [|exact Hall].
      intros c Hc. now rewrite (proj1 (proj2 (hex_lower_facts c Hc))). }
    destruct digits as [|c r] eqn:Ed; [contradiction|].
    cbn [str_all] in Hall. apply andb_true_iff in Hall as [Hc Hr].
    cbn [str_drop].
    rewrite (char_in_none "-" hex_lower r
               (fun d Hd => proj1 (proj2 (proj2 (hex_lower_facts d Hd)))) Hr).
    cbn [negb]. rewrite (py_int0_hex _ Hsp), (skip_underscore_hex c r Hc), Hread.
    reflexivity. }
  split; [apply Hgen|].
  intros Hlt. rewrite Hgen. do 2 f_equal.
  change 0xFFFF with (Z.ones 16). rewrite Z.land_ones by lia.
  apply Z.mod_small. change (2 ^ 16) with 65536. lia.
Qed.

Lemma X15_lc_hex_is_read_back_witness :
  get_immediate (lc_hex 0x3000) 0x1FF = Ok (Some (Z.land 0x3000 0x1FF))
  /\ (0x3000 < 65536 -> get_immediate (lc_hex 0x3000) 0xFFFF = Ok (Some 0x3000)).
Proof. apply (X15_lc_hex_is_read_back 0x3000 0x1FF). lia. Defined.

Lemma string_append_assoc (u v w : string) :
  String.append (String.append u v) w = String.append u (String.append v w).
Proof. induction u as [|c u IH]; [reflexivity|]. cbn [String.append]. now rewrite IH. Qed.

Lemma string_length_append (u v : string) :
  String.length (String.append u v) = (String.length u + String.length v)%nat.
Proof. induction u as [|c u IH]; [reflexivity|]. cbn [String.append String.length]. now rewrite IH. Qed.

Lemma spaces_length (k : nat) (c : ascii) : String.length (spaces k c) = k.
Proof. induction k as [|k IH]; [reflexivity|]. cbn [spaces String.length]. now rewrite IH. Qed.

Lemma spaces_all (p : ascii -> bool) (k : nat) (c : ascii) :
  p c = true -> str_all p (spaces k c) = true.
Proof. intros Hc. induction k as [|k IH]; [reflexivity|]. cbn [spaces str_all]. now rewrite Hc, IH. Qed.

Lemma int_digits_bin_step (b : bool) (r : string) (seen : bool) (acc : Z) :
  int_digits 2 (String (if b then "1" else "0")%char r) false seen acc
    = int_digits 2 r false true (acc * 2 + Z.b2z b).
Proof. destruct b; reflexivity. Qed.

Lemma bin_pos_read (p : positive) (rest : string) (seen : bool) :
  int_digits 2 (String.append (bin_pos p) rest) false seen 0
    = int_digits 2 rest false true (Zpos p).
Proof.
  revert rest seen. induction p as [p IH|p IH|]; intros rest seen; cbn [bin_pos].
  - rewrite string_append_assoc, IH. cbn [String.append].
    rewrite (int_digits_bin_step true). f_equal. cbn [Z.b2z]. lia.
  - rewrite string_append_assoc, IH. cbn [String.append].
    rewrite (int_digits_bin_step false). f_equal. cbn [Z.b2z]. lia.
  - cbn [String.append]. now rewrite (int_digits_bin_step true).
Qed.

Lemma bin_pos_digits (p : positive) :
  str_all (fun c => char_in c "01") (bin_pos p) = true.
Proof.
  induction p as [p IH|p IH|]; cbn [bin_pos]; [| |reflexivity];
    now rewrite str_all_append, IH.
Qed.

Lemma bin_pos_length (p : positive) (k : nat) :
  Zpos p < 2 ^ Z.of_nat k -> (String.length (bin_pos p) <= k)%nat.
Proof.
  revert k. induction p as [p IH|p IH|]; intros k Hk; cbn [bin_pos].
  - destruct k as [|k]; [cbn in Hk; lia|].
    rewrite string_length_append. cbn [String.length].
    rewrite Nat2Z.inj_succ, Z.pow_succ_r in Hk by lia.
    specialize (IH k ltac:(lia)). lia.
  - destruct k as [|k]; [cbn in Hk; lia|].
    rewrite string_length_append. cbn [String.length].
    rewrite Nat2Z.inj_succ, Z.pow_succ_r in Hk by lia.
    specialize (IH k ltac:(lia)). lia.
  - destruct k as [|k]; [cbn in Hk; lia|]. cbn. lia.
Qed.

Lemma zeros_read (k : nat) (s : string) (v : Z) (seen : bool) :
  (forall seen', int_digits 2 s false seen' 0 = Some v) ->
  int_digits 2 (String.append (spaces k "0") s) false seen 0 = Some v.
Proof.
  intros Hs. revert seen. induction k as [|k IH]; intros seen; [apply Hs|].
  cbn [spaces String.append]. rewrite (int_digits_bin_step false). apply IH.
Qed.

(** X16. A line of the binary file is the 16-digit binary numeral of its
    word: for a 16-bit [n] the text ['{0:016b}'.format(n)] has 16
    characters, all of them [0] or [1], and read in base 2 it gives [n]
    back. *)
Theorem X16_binary_line_is_the_word (n : Z) :
  0 <= n < 65536 ->
  String.length (format_016b n) = 16%nat
  /\ str_all (fun c => char_in c "01") (format_016b n) = true
  /\ int_digits 2 (format_016b n) false false 0 = Some n.
Proof.
  intros Hn. destruct n as [|p|p]; [repeat split| |lia].
  unfold format_016b, pad_left.
  assert (Hlen : (String.length (bin_pos p) <= 16)%nat).
  { apply bin_pos_length. change (2 ^ Z.of_nat 16) with 65536. lia. }
  split; [|split].
  - rewrite string_length_append, spaces_length. lia.
  - rewrite str_all_append, spaces_all, bin_pos_digits; reflexivity.
  - apply zeros_read. intros seen.
    assert (Hnil : forall s, String.append s EmptyString = s).
    { intros s. induction s as [|c s IH]; [reflexivity|].
      cbn [String.append]. now rewrite IH. }
    rewrite <- (Hnil (bin_pos p)). apply bin_pos_read.
Qed.

Lemma X16_binary_line_is_the_word_witness :
  String.length (format_016b 0x1283) = 16%nat
  /\ str_all (fun c => char_in c "01") (format_016b 0x1283) = true
  /\ int_digits 2 (format_016b 0x1283) false false 0 = Some 0x1283.
Proof. apply (X16_binary_line_is_the_word 0x1283). lia. Defined.

(** ** The one way to overflow a memory word *)

Lemma ends_bind {A B : Type} (P : A -> Prop) (Q : B -> Prop)
    (c : result A) (k : A -> result B) :
  ends P c -> (forall a, P a -> ends Q (k a)) -> ends Q (bind c k).
Proof. destruct c as [a|e]; cbn; auto. Qed.

Lemma ends_weaken {A : Type} (P Q : A -> Prop) (r : result A) :
  (forall a, P a -> Q a) -> ends P r -> ends Q r.
Proof. destruct r; cbn; auto. Qed.

Lemma all_values_get {V : Type} (p : V -> bool) (d : dict V) (k : string) (v : V) :
  all_values p d = true -> dict_get k d = Some v -> p v = true.
Proof.
  unfold all_values. induction d as [|[k' v'] d IH]; cbn [forallb dict_get snd];
    [discriminate|].
  intros [Hv Hd]%andb_true_iff. destruct (String.eqb k k'); [now intros [= <-]|].
  now apply IH.
Qed.

Lemma masked_word (x mask width : Z) :
  field_shape mask width -> 0 <= Z.land x mask < 65536.
Proof.
  intros [-> Hw]. rewrite Z.shiftl_1_l.
  replace (2 ^ width - 1) with (Z.ones width) by (rewrite Z.ones_equiv; lia).
  rewrite Z.land_ones by lia.
  assert (0 < 2 ^ width <= 2 ^ 16).
  { split; [apply Z.pow_pos_nonneg; lia | apply Z.pow_le_mono_r; lia]. }
  pose proof (Z.mod_pos_bound x (2 ^ width) ltac:(lia)).
  change (2 ^ 16) with 65536 in *. lia.
Qed.

Lemma get_immediate_ends (word : string) (mask width : Z) :
  field_shape mask width ->
  ends (fun value => forall v, value = Some v -> 0 <= v < 65536)
    (get_immediate word mask).
Proof.
  intros Hs.
  destruct (get_immediate word mask) as [[v|]|e] eqn:E; cbn.
  - intros v' [= <-]. apply get_immediate_masked in E as [x ->].
    now apply (masked_word x mask width).
  - discriminate.
  - revert E. unfold get_immediate.
    assert (Hraise : forall (r : result (option Z)),
               match r with Raise e' => e' = ValueError | Ok _ => True end ->
               r = Raise e -> e <> OverflowError).
    { intros [a|e'] He' Hr; [discriminate Hr|].
      injection Hr as <-. subst e'. discriminate. }
    apply Hraise.
    destruct (_ && _ && _).
    + now destruct (py_int0 _).
    + destruct (startswith word "#").
      * now destruct (py_int _).
      * now destruct (py_int word).
Qed.

Lemma immediate_mask_shape (found : string) (mask : Z) :
  dict_item found immediate_mask = Ok mask -> exists width, field_shape mask width.
Proof.
  unfold dict_item, immediate_mask, immediate. cbn [map fst snd dict_get].
  repeat match goal with
         | |- context [String.eqb found ?s] =>
             destruct (String.eqb found s);
             [intros [= <-]; eexists; split; [reflexivity | lia] |]
         end.
  discriminate.
Qed.

Lemma dict_item_ends {V : Type} (P : V -> Prop) (k : string) (d : dict V) :
  (forall v, dict_get k d = Some v -> P v) -> ends P (dict_item k d).
Proof.
  intros H. unfold dict_item. destruct (dict_get k d); cbn; [auto | discriminate].
Qed.

Lemma list_item_ends {A : Type} (P : A -> Prop) (l : list A) (n : nat) :
  (forall a, nth_error l n = Some a -> P a) -> ends P (list_item l n).
Proof.
  intros H. unfold list_item. destruct (nth_error l n); cbn; [auto | discriminate].
Qed.

Lemma valid_label_ends (w : string) : ends (fun _ => True) (valid_label w).
Proof.
  unfold valid_label. destruct w as [|c [|c' r]]; cbn [str_item String.get bind];
    [cbn; discriminate | |].
  - destruct (Ascii.eqb c "x"); cbn; [discriminate | exact I].
  - destruct (Ascii.eqb c "x"); cbn [bind]; [destruct (isdigit c')|]; exact I.
Qed.

Lemma get_pc_ends (st : state) : ends (fun _ => True) (get_pc st).
Proof. unfold get_pc. destruct (pc st); cbn; [exact I | discriminate]. Qed.

Lemma mem_set_ends (m : list Z) (i v : Z) :
  0 <= v < 65536 -> ends (fun _ => True) (mem_set m i v).
Proof.
  intros Hv%is_word_spec. unfold mem_set.
  destruct (py_index _ i) as [n|e] eqn:E; cbn [bind].
  - rewrite Hv. exact I.
  - revert E. unfold py_index. destruct (_ && _); [discriminate|].
    now intros [= <-].
Qed.

Lemma put_and_show_ends (n : Z) (st : state) :
  - 65536 <= n < 65536 -> ends (fun _ => True) (put_and_show n st).
Proof.
  intros Hn. unfold put_and_show.
  apply (ends_bind (fun _ => True)); [apply get_pc_ends|]. intros p _.
  apply (ends_bind (fun _ => True)); [|intros; exact I].
  apply mem_set_ends. change (Z.shiftl 1 16) with 65536.
  destruct (n <? 0) eqn:E; [apply Z.ltb_lt in E | apply Z.ltb_ge in E]; lia.
Qed.

Lemma advance_pc_ends (n : Z) (st : state) : ends (fun _ => True) (advance_pc n st).
Proof.
  unfold advance_pc. apply (ends_bind (fun _ => True)); [apply get_pc_ends|].
  intros; exact I.
Qed.

Lemma define_label_ends (name : string) (st : state) :
  ends (fun _ => True) (define_label name st).
Proof.
  unfold define_label. apply (ends_bind (fun _ => True)); [apply get_pc_ends|].
  intros; exact I.
Qed.

Lemma register_token_word (word : string) (n : Z) (rc : nat) (pos : Z) :
  dict_get word regs = Some n -> nth_error reg_pos rc = Some pos ->
  0 <= Z.shiftl n pos < 65536.
Proof.
  intros Hn Hpos.
  assert (Hn' : (0 <=? n) && (n <? 8) = true).
  { apply (all_values_get (fun n => (0 <=? n) && (n <? 8)) regs word n);
      [reflexivity | exact Hn]. }
  apply andb_true_iff in Hn' as [H0%Z.leb_le H8%Z.ltb_lt].
  assert (Hp : pos = 9 \/ pos = 6 \/ pos = 0).
  { destruct rc as [|[|[|rc]]]; cbn in Hpos; try (injection Hpos as <-); auto.
    destruct rc; discriminate. }
  rewrite Z.shiftl_mul_pow2 by lia.
  destruct Hp as [-> | [-> | ->]]; lia.
Qed.

Lemma operand_token_ends (found token : string) (a : operands) :
  word_operands a -> ends word_operands (operand_token found token a).
Proof.
  intros [Hi Hr]. unfold operand_token.
  destruct (dict_get (rstrip_comma token) regs) as [n|] eqn:En.
  - apply (ends_bind (fun pos => 0 <= Z.shiftl n pos < 65536)).
    + apply list_item_ends. intros pos Hpos.
      now apply (register_token_word (rstrip_comma token) n (op_rc a)).
    + intros pos Hpos. split; cbn [op_instruction op_r]; [exact Hi|].
      now apply lor_word.
  - apply (ends_bind (fun mask => exists width, field_shape mask width)).
    { apply dict_item_ends. intros mask Hm. apply (immediate_mask_shape found).
      unfold dict_item. now rewrite Hm. }
    intros mask [width Hs].
    apply (ends_bind _ _ _ _ (get_immediate_ends (rstrip_comma token) mask width Hs)).
    intros [v|] Hv.
    + specialize (Hv v eq_refl). split; cbn [op_instruction op_r]; [|exact Hr].
      destruct (_ || _);
        [apply lor_word; [|change (Z.shiftl 1 5) with 32; lia]|]; now apply lor_word.
    + destruct (negb _); [|now split].
      apply (ends_bind (fun _ => True)); [apply valid_label_ends|].
      intros [|] _; [|cbn; discriminate].
      apply (ends_bind (fun _ => True)); [apply get_pc_ends|]. intros p _.
      apply (ends_bind (fun _ => True)); [now apply dict_item_ends|].
      intros w _. now split.
Qed.

Lemma operand_loop_ends (found : string) (tokens : list string) (a : operands) :
  word_operands a -> ends word_operands (operand_loop found tokens a).
Proof.
  revert a. induction tokens as [|token rest IH]; intros a Ha; [exact Ha|].
  cbn [operand_loop].
  apply (ends_bind _ _ _ _ (operand_token_ends found token a Ha)).
  intros a1 [Hi Hr].
  assert (H2 : word_operands
                 (Operands (Z.lor (op_instruction a1) (op_r a1)) (op_r a1)
                    (op_rc a1) (op_state a1))).
  { split; cbn [op_instruction op_r]; [now apply lor_word | exact Hr]. }
  destruct (String.eqb found "JMPT"); [exact H2 | now apply IH].
Qed.

Lemma flag_bits_word (s : string) (acc : Z) :
  0 <= acc < 65536 -> 0 <= flag_bits s acc < 65536.
Proof.
  revert acc. induction s as [|c s IH]; intros acc Ha; [exact Ha|].
  cbn [flag_bits]. apply IH.
  destruct (dict_get (String c EmptyString) flags) as [b|] eqn:E; [|exact Ha].
  apply lor_word; [exact Ha|].
  apply (all_values_get (fun b => (0 <=? b) && (b <? 65536)) flags _ b) in E;
    [|reflexivity].
  apply andb_true_iff in E as [H0%Z.leb_le H1%Z.ltb_lt]. lia.
Qed.

Lemma normalize_branch_word (words words' : list string) (f : Z) :
  normalize_branch words = (words', Some f) -> 0 <= f < 65536.
Proof.
  unfold normalize_branch.
  destruct (branch_index words) as [ind|]; [|discriminate].
  destruct (nth_error words ind) as [w|]; [|discriminate].
  destruct (_ && _); [|discriminate].
  intros [= _ <-]. apply flag_bits_word. lia.
Qed.

Lemma encode_instruction_ends (found : string) (fl : option Z)
    (words : list string) (st : state) :
  (forall f, fl = Some f -> 0 <= f < 65536) ->
  ends (fun _ => True) (encode_instruction found fl words st).
Proof.
  intros Hfl. unfold encode_instruction.
  destruct (dict_get found instruction_info) as [i|] eqn:Ei; [|exact I].
  apply (all_values_get (fun i => (0 <=? i) && (i <? 65536))) in Ei; [|reflexivity].
  apply andb_true_iff in Ei as [H0%Z.leb_le H1%Z.ltb_lt].
  apply (ends_bind (fun i => 0 <= i < 65536)).
  { destruct (String.eqb found "BR"); [|cbn; lia].
    destruct fl as [f|]; cbn; [|discriminate].
    apply lor_word; [lia | now apply Hfl]. }
  intros i' Hi'.
  apply (ends_bind word_operands).
  { apply operand_loop_ends. split; cbn [op_instruction op_r]; lia. }
  intros a [Ha _].
  apply (ends_bind (fun _ => True)); [apply put_and_show_ends; lia|].
  intros st1 _. apply advance_pc_ends.
Qed.

Lemma instruction_line_ends (line : string) (words : list string) (st : state) :
  ends (fun _ => True) (instruction_line line words st).
Proof.
  unfold instruction_line.
  destruct (normalize_branch words) as [words' fl] eqn:En.
  assert (Hfl : forall f, fl = Some f -> 0 <= f < 65536).
  { intros f ->. now apply (normalize_branch_word words words'). }
  apply (ends_bind (fun _ => True)); [now apply list_item_ends|]. intros w0 _.
  destruct (str_in w0 instructions); [now apply encode_instruction_ends|].
  apply (ends_bind (fun _ => True)); [apply valid_label_ends|]. intros ok _.
  apply (ends_bind (fun _ => True)).
  { destruct ok; [apply define_label_ends | exact I]. }
  intros st1 _. destruct (length words' <? 2)%nat; [exact I|].
  apply (ends_bind (fun _ => True)); [now apply list_item_ends|]. intros w1 _.
  destruct (String.eqb _ EmptyString); [|now apply encode_instruction_ends].
  destruct (1 <? length words')%nat; [exact I|].
  apply (ends_bind (fun _ => True)); [apply valid_label_ends|].
  intros [|] _; [|cbn; discriminate].
  apply (ends_bind (fun _ => True)); [apply get_pc_ends|]. intros; exact I.
Qed.

Lemma stringz_chars_ends (cs : list Z) (b : bool) (st : state) :
  Forall (fun c => 0 <= c <= 0xFFFF) cs ->
  ends (fun _ => True) (stringz_chars cs b st).
Proof.
  intros Hcs. revert b st.
  induction Hcs as [|c r Hc _ IH]; intros b st; [exact I|].
  cbn [stringz_chars]. destruct (negb b && (c =? ord "\")); [apply IH|].
  apply (ends_bind (fun _ => True)).
  { apply put_and_show_ends. destruct (b && escape_letter c); lia. }
  intros st1 _. apply (ends_bind (fun _ => True)).
  { destruct (verbose st1); [|exact I]. unfold chr_check.
    destruct (_ && _); cbn; [exact I | discriminate]. }
  intros _ _. apply (ends_bind (fun _ => True)); [apply advance_pc_ends|].
  intros st2 _. apply IH.
Qed.

Lemma wide_or_narrow (cs : list Z) :
  Forall (fun c => c <= 0xFFFF) cs \/ exists c, In c cs /\ 0xFFFF < c.
Proof.
  induction cs as [|c cs [IH | (d & Hd & Hwide)]].
  - left. constructor.
  - destruct (Z_le_gt_dec c 0xFFFF) as [Hle | Hgt].
    + left. now constructor.
    + right. exists c. split; [now left | lia].
  - right. exists d. split; [now right | exact Hwide].
Qed.

Lemma directives_end (line : string) (words : list string) (st : state) :
  ends (fun _ => True) (orig_directive words st)
  /\ ((forall first,
         list_item (split_char "034" line) 1 = Ok first ->
         Forall (fun c => c <= 0xFFFF)
           (code_points (rejoin_quotes first (drop 2 (split_char "034" line))))) ->
      ends (fun _ => True) (stringz_directive line words st))
  /\ ends (fun _ => True) (blkw_directive words st).
Proof.
  split; [|split].
  - unfold orig_directive.
    apply (ends_bind (fun _ => True)); [now apply list_item_ends|]. intros w1 _.
    destruct (py_int0 _); cbn; [exact I | discriminate].
  - intros Hnarrow. unfold stringz_directive.
    apply (ends_bind (fun _ => True)); [now apply list_item_ends|]. intros w0 _.
    apply (ends_bind (fun _ => True)); [apply valid_label_ends|]. intros ok _.
    apply (ends_bind (fun _ => True)).
    { destruct ok; [apply define_label_ends|].
      apply (ends_bind (fun _ => True)); [apply get_pc_ends|]. intros; exact I. }
    intros st1 _.
    apply (ends_bind (fun first => list_item (split_char "034" line) 1 = Ok first)).
    { destruct (list_item _ 1) as [first|e] eqn:E; cbn; [reflexivity|].
      revert E. unfold list_item. destruct (nth_error _ _); [discriminate|].
      now intros [= <-]. }
    intros first Hfirst.
    apply (ends_bind (fun _ => True)).
    { apply stringz_chars_ends.
      pose proof (code_points_nonneg
                    (rejoin_quotes first (drop 2 (split_char "034" line)))) as Hnn.
      specialize (Hnarrow first Hfirst).
      rewrite Forall_forall in *. intros c Hc. split; auto. }
    intros st2 _.
    apply (ends_bind (fun _ => True)); [apply put_and_show_ends; lia|]. intros st3 _.
    apply advance_pc_ends.
  - unfold blkw_directive.
    apply (ends_bind (fun _ => True)); [now apply list_item_ends|]. intros w0 _.
    apply (ends_bind (fun _ => True)); [apply define_label_ends|]. intros st1 _.
    apply (ends_bind (fun _ => True)).
    { apply (ends_weaken (fun value : option Z => forall v, value = Some v -> 0 <= v < 65536)
               (fun _ => True)); [intros; exact I|].
      apply (get_immediate_ends _ 0xFFFF 16). split; [reflexivity | lia]. }
    intros [v|] _; [|cbn; discriminate].
    destruct (v <=? 0); [cbn; discriminate | apply advance_pc_ends].
Qed.

(** X17. There are two ways a line can overflow a 16-bit memory word: a
    [.FILL] with a decimal literal outside -65536 .. 65535, and a
    [.STRINGZ] whose text holds a character above U+FFFF.  Every
    instruction word the encoder builds, every other character of a text
    and every hexadecimal or [#] literal fits.  If [process_instruction]
    raises OverflowError, either the line holds [.FILL] and the token
    after it is a decimal numeral that [int] accepts with such a value,
    or it is a [.STRINGZ] line and its text holds such a character. *)
Theorem X17_what_overflows_a_word
    (line : string) (words : list string) (st : state) :
  process_instruction line words st = Raise OverflowError ->
  (str_in ".FILL" words = true
   /\ exists word n,
        list_item words (index_of ".FILL" words + 1) = Ok word
        /\ py_int word = Some n
        /\ ~ (- 65536 <= n < 65536))
  \/ (str_in ".FILL" words = false
      /\ str_in ".STRINGZ" words = true
      /\ exists first c,
           list_item (split_char "034" line) 1 = Ok first
           /\ In c (code_points
                      (rejoin_quotes first (drop 2 (split_char "034" line))))
           /\ 0xFFFF < c).
Proof.
  unfold process_instruction. destruct words as [|w0 rest]; [discriminate|].
  destruct (startswith w0 ";"); [discriminate|].
  destruct (directives_end line (w0 :: rest) st) as (Ho & Hs & Hb).
  pose proof (instruction_line_ends line (w0 :: rest) st) as Hi.
  destruct (str_in ".FILL" (w0 :: rest)) eqn:Ef.
  2:{ intros E. right. split; [reflexivity|].
      destruct (str_in ".ORIG" _); [rewrite E in Ho; now destruct Ho|].
      destruct (str_in ".STRINGZ" _).
      2:{ destruct (str_in ".BLKW" _); [rewrite E in Hb; now destruct Hb|].
          rewrite E in Hi. now destruct Hi. }
      split; [reflexivity|].
      destruct (list_item (split_char "034" line) 1) as [first|e] eqn:Efirst.
      - destruct (wide_or_narrow
                    (code_points
                       (rejoin_quotes first (drop 2 (split_char "034" line)))))
          as [Hnarrow | (c & Hc & Hwide)].
        + exfalso. rewrite E in Hs. apply Hs; [|reflexivity].
          now intros first' [= <-].
        + now exists first, c.
      - exfalso. rewrite E in Hs. apply Hs; [discriminate | reflexivity]. }
  intros E. left. split; [reflexivity|].
  unfold fill_directive in E.
  destruct (list_item (w0 :: rest) (index_of ".FILL" (w0 :: rest) + 1))
    as [word|e] eqn:Ew; [|cbn in E; injection E as ->; revert Ew;
                          unfold list_item; destruct (nth_error _ _); discriminate].
  cbn [bind] in E. exists word.
  destruct (py_int word) as [n|] eqn:En.
  - exists n. split; [reflexivity | split; [reflexivity|]]. intros Hn.
    pose proof (put_and_show_ends n st Hn) as Hp.
    destruct (put_and_show n st) as [st1|e]; cbn [bind] in E.
    + assert (Hrest : ends (fun _ => True)
                (st2 <- (if negb (String.eqb w0 ".FILL")
                         then define_label w0 st1 else Ok st1) ;;
                 advance_pc 1 st2)).
      { apply (ends_bind (fun _ => True)).
        - destruct (negb _); [apply define_label_ends | exact I].
        - intros; apply advance_pc_ends. }
      cbn [list_item nth_error bind] in E. rewrite E in Hrest. now destruct Hrest.
    + injection E as ->. now destruct Hp.
  - exfalso.
    assert (Hall : ends (fun _ => True)
              (st1 <- (value <- get_immediate word 0xFFFF ;;
                       p <- get_pc st ;;
                       match value with
                       | None => Ok (add_fixup word (Fixup p 0xFFFF 16) st)
                       | Some v => m <- mem_set (memory st) p v ;; Ok (set_memory m st)
                       end) ;;
               w0' <- list_item (w0 :: rest) 0 ;;
               st2 <- (if negb (String.eqb w0' ".FILL")
                       then define_label w0' st1 else Ok st1) ;;
               advance_pc 1 st2)).
    { apply (ends_bind (fun _ => True)).
      - assert (Hs16 : field_shape 0xFFFF 16) by (split; [reflexivity | lia]).
        apply (ends_bind _ _ _ _ (get_immediate_ends word 0xFFFF 16 Hs16)).
        intros value Hv.
        apply (ends_bind (fun _ => True)); [apply get_pc_ends|]. intros p _.
        destruct value as [v|]; [|exact I].
        apply (ends_bind (fun _ => True)); [|intros; exact I].
        apply mem_set_ends. now apply Hv.
      - intros st1 _.
        apply (ends_bind (fun _ => True)); [now apply list_item_ends|]. intros w _.
        apply (ends_bind (fun _ => True)).
        + destruct (negb _); [apply define_label_ends | exact I].
        + intros; apply advance_pc_ends. }
    rewrite E in Hall. now destruct Hall.
Qed.

Lemma X17_what_overflows_a_word_witness :
  ((str_in ".FILL" [".FILL"; "70000"] = true
    /\ exists word n,
         list_item [".FILL"; "70000"] (index_of ".FILL" [".FILL"; "70000"] + 1)
           = Ok word
         /\ py_int word = Some n
         /\ ~ (- 65536 <= n < 65536))
   \/ (str_in ".FILL" [".FILL"; "70000"] = false
       /\ str_in ".STRINGZ" [".FILL"; "70000"] = true
       /\ exists first c,
            list_item (split_char "034" ".FILL 70000") 1 = Ok first
            /\ In c (code_points
                       (rejoin_quotes first (drop 2 (split_char "034" ".FILL 70000"))))
            /\ 0xFFFF < c))
  /\ exists first c,
       list_item (split_char "034" wide_stringz_line) 1 = Ok first
       /\ In c (code_points
                  (rejoin_quotes first (drop 2 (split_char "034" wide_stringz_line))))
       /\ 0xFFFF < c.
Proof.
  split.
  - apply (X17_what_overflows_a_word ".FILL 70000" [".FILL"; "70000"] fresh_state).
    reflexivity.
  - destruct (X17_what_overflows_a_word wide_stringz_line
                (snd (preprocess wide_stringz_line)) fresh_state eq_refl)
      as [(Hfill & _) | (_ & _ & H)]; [discriminate Hfill | exact H].
Defined.

(** ** The origin directive *)

Lemma lc_hex_shape (h : Z) :
  0 <= h ->
  exists digits, lc_hex h = String "x" digits
                 /\ py_int0 (String "0" (String "x" digits)) = Some h.
Proof.
  intros Hh. destruct h as [|p|p]; [now exists "0"| |lia].
  exists (hex_of_bits (pos_bits p) EmptyString). split; [reflexivity|].
  set (digits := hex_of_bits (pos_bits p) EmptyString).
  destruct (hex_of_bits_read (length (pos_bits p)) (pos_bits p) EmptyString false)
    as (Hread & Hall & Hne); [lia | now destruct p |].
  fold digits in Hread, Hall, Hne. cbn [str_all] in Hall.
  cbn [int_digits orb negb] in Hread. rewrite bits_value_pos in Hread.
  assert (Hsp : rstrip digits = digits).
  { apply rstrip_no_space.
    apply (str_all_impl hex_lower); [|exact Hall].
    intros c Hc. now rewrite (proj1 (proj2 (hex_lower_facts c Hc))). }
  rewrite (py_int0_hex _ Hsp).
  destruct digits as [|c r]; [contradiction|].
  cbn [str_all] in Hall. apply andb_true_iff in Hall as [Hc _].
  now rewrite (skip_underscore_hex c r Hc).
Qed.

(** X18. [.ORIG] takes the address from the second token of the line,
    wherever [.ORIG] itself stands.  With the address in the notation of
    [lc_hex] the line sets the origin and the location counter to it; a
    line with a token in front of [.ORIG] reads [.ORIG] itself as the
    address and raises ValueError; [.ORIG] alone raises IndexError. *)
Theorem X18_orig_reads_the_second_token
    (line l a : string) (h : Z) (st : state) :
  0 <= h ->
  startswith l ";" = false ->
  str_in ".FILL" [l; a] = false ->
  process_instruction line [".ORIG"; lc_hex h] st = Ok (set_orig_pc h st)
  /\ process_instruction line [l; ".ORIG"; a] st = Raise ValueError
  /\ process_instruction line [".ORIG"] st = Raise IndexError.
Proof.
  intros Hh Hl Hf. split; [|split; [|reflexivity]].
  - destruct (lc_hex_shape h Hh) as (digits & -> & Hint).
    unfold process_instruction, orig_directive.
    cbn [startswith str_in String.eqb Ascii.eqb Bool.eqb orb andb list_item
         nth_error bind].
    now rewrite Hint.
  - unfold process_instruction. rewrite Hl.
    cbn [str_in] in Hf |- *.
    apply orb_false_elim in Hf as [Hf1 Hf2].
    rewrite Hf1, Hf2. destruct (String.eqb ".ORIG" l); reflexivity.
Qed.

Lemma X18_orig_reads_the_second_token_witness :
  process_instruction ".ORIG x3000" [".ORIG"; lc_hex 0x3000] fresh_state
    = Ok (set_orig_pc 0x3000 fresh_state)
  /\ process_instruction ".ORIG x3000" ["START"; ".ORIG"; "x3000"] fresh_state
     = Raise ValueError
  /\ process_instruction ".ORIG x3000" [".ORIG"] fresh_state = Raise IndexError.
Proof.
  apply (X18_orig_reads_the_second_token ".ORIG x3000" "START" "x3000" 0x3000
           fresh_state); [lia | reflexivity | reflexivity].
Defined.

(** ** The end directive *)

(** X19. A line holding the token [.END] ends the encoding: the line
    itself and everything after it are never processed, whatever they
    hold, so the encoder does on the whole text what it does on the lines
    before that one. *)
Theorem X19_end_stops_the_encoder
    (before after : list string) (raw : string) (st : state) :
  str_in ".END" (snd (preprocess raw)) = true ->
  encode_lines (before ++ raw :: after) st = encode_lines before st.
Proof.
  intros Hend. revert st. induction before as [|l before IH]; intros st.
  - cbn [app encode_lines]. destruct (preprocess raw) as [line words].
    cbn [snd] in Hend. now rewrite Hend.
  - cbn [app encode_lines]. destruct (preprocess l) as [line words].
    destruct (str_in ".END" words); [reflexivity|].
    destruct (process_instruction line words st) as [st1|e]; [|reflexivity].
    cbn [bind]. apply IH.
Qed.

Lemma X19_end_stops_the_encoder_witness :
  encode_lines ([".ORIG x0"; "HALT"] ++ "DONE .END ; stop" :: [".FILL 70000"])
    fresh_state
  = encode_lines [".ORIG x0"; "HALT"] fresh_state.
Proof.
  apply (X19_end_stops_the_encoder [".ORIG x0"; "HALT"] [".FILL 70000"]
           "DONE .END ; stop" fresh_state).
  reflexivity.
Defined.
